(** * whosthere: probe and discovery core, embedded in Rocq

    A shallow embedding of the parts of the Go packages [probe] and
    [discovery] that decide the documented properties of the Wake-on-LAN
    sender, the broadcast derivation, the banner sanitizer, the NBSTAT
    parser, the device-type and OS classifiers, the prober and the
    interface listing.

    Conventions.
    - A Go [string] is a Rocq [string] (a sequence of 8-bit characters);
      a Go [[]byte] is a [list byte]; a Go [int] used as a port, a TTL or a
      duration is a [Z]; an [int] used as a slice index or a length is a
      [nat] (no index of this code comes near the 64-bit limit).
    - A Go [map] is the list of its entries in the order in which [range]
      visits them during the call at hand; keys are pairwise distinct.
    - Calls into the network are answered by an explicit environment and
      leave an event in a trace. *)

From Stdlib Require Import ZArith NArith String Ascii Bool Lia.
From Stdlib Require Import List Permutation.
From Stdlib Require Import Strings.Byte.
Import ListNotations.

Local Open Scope string_scope.
Local Open Scope list_scope.

(* ================================================================== *)
(** * Go values shared by the packages *)
(* ================================================================== *)

Module Go.

(** Outcome of running a piece of Go code that indexes slices: a value,
    a run-time panic (index out of range), or exhaustion of the fuel
    the model gives to a [for] loop without a static bound. *)
Inductive run (A : Type) : Type :=
| Ret (a : A)
| Fault
| OutOfFuel.
Arguments Ret {A} a.
Arguments Fault {A}.
Arguments OutOfFuel {A}.

Definition bind {A B} (m : run A) (k : A -> run B) : run B :=
  match m with
  | Ret a => k a
  | Fault => Fault
  | OutOfFuel => OutOfFuel
  end.

(** Numeric value of a byte, and the byte of an integer modulo 256
    (the wrap-around of Go's [uint8]). *)
Definition byte_val (b : byte) : Z := Z.of_N (Byte.to_N b).

Definition byte_of_Z (z : Z) : byte :=
  match Byte.of_N (Z.to_N (z mod 256)) with
  | Some b => b
  | None => x00
  end.

(** [a | b] and [^a] on [uint8]. *)
Definition byte_or (a b : byte) : byte :=
  byte_of_Z (Z.lor (byte_val a) (byte_val b)).

Definition byte_not (a : byte) : byte :=
  byte_of_Z (Z.lnot (byte_val a)).

(** [s[i]] on a byte slice. *)
Definition index (s : list byte) (i : nat) : run byte :=
  match nth_error s i with
  | Some b => Ret b
  | None => Fault
  end.

(** [s[lo:hi]] on a byte slice of length [length s] (capacity equals
    length for every slice this code takes). *)
Definition slice (s : list byte) (lo hi : nat) : run (list byte) :=
  if (lo <=? hi)%nat && (hi <=? length s)%nat
  then Ret (firstn (hi - lo) (skipn lo s))
  else Fault.

(** The builtin [copy(dst, src)]: overwrites the first
    [min (len dst) (len src)] elements of [dst]. *)
Fixpoint copy (dst src : list byte) : list byte :=
  match dst, src with
  | _ :: dst', b :: src' => b :: copy dst' src'
  | _, _ => dst
  end.

(** [copy(dst[off:], src)] seen from the whole of [dst]. *)
Definition copy_at (dst : list byte) (off : nat) (src : list byte) : list byte :=
  firstn off dst ++ copy (skipn off dst) src.

(** [a[i] = b] for [i] inside the array. *)
Definition set_at (a : list byte) (i : nat) (b : byte) : list byte :=
  firstn i a ++ match skipn i a with
                | [] => []
                | _ :: rest => b :: rest
                end.

(** ** Facts about bytes and slices *)

Lemma byte_val_range (b : byte) : (0 <= byte_val b < 256)%Z.
Proof.
  unfold byte_val. pose proof (Byte.to_N_bounded b). lia.
Qed.

Lemma byte_of_val (b : byte) : byte_of_Z (byte_val b) = b.
Proof.
  unfold byte_of_Z. pose proof (byte_val_range b) as H.
  rewrite Z.mod_small by exact H.
  unfold byte_val. rewrite N2Z.id, Byte.of_to_N. reflexivity.
Qed.

Lemma byte_val_of_Z (z : Z) : byte_val (byte_of_Z z) = (z mod 256)%Z.
Proof.
  unfold byte_of_Z, byte_val.
  pose proof (Z.mod_pos_bound z 256 ltac:(lia)) as H.
  destruct (Byte.of_N (Z.to_N (z mod 256))) as [b|] eqn:E.
  - apply Byte.to_of_N in E. rewrite E. lia.
  - apply Byte.of_N_None_iff in E. lia.
Qed.

Lemma byte_val_inj (a b : byte) : byte_val a = byte_val b -> a = b.
Proof.
  intros H. rewrite <- (byte_of_val a), <- (byte_of_val b), H. reflexivity.
Qed.

(** The derived byte or-ed with the mask byte has all eight bits set. *)
Lemma or_not_all_ones (a m : byte) :
  byte_or (byte_or a (byte_not m)) m = xff.
Proof.
  apply byte_val_inj. unfold byte_or, byte_not.
  rewrite !byte_val_of_Z.
  pose proof (byte_val_range a) as Ha. pose proof (byte_val_range m) as Hm.
  change (byte_val xff) with (Z.ones 8).
  change 256%Z with (2 ^ 8)%Z.
  apply Z.bits_inj'. intros n Hn.
  destruct (Z.ltb_spec n 8) as [Hlt|Hge].
  - rewrite Z.mod_pow2_bits_low by lia.
    rewrite Z.ones_spec_low by lia.
    rewrite Z.lor_spec, Z.mod_pow2_bits_low by lia.
    rewrite Z.lor_spec, Z.mod_pow2_bits_low by lia.
    rewrite Z.lnot_spec by lia.
    destruct (Z.testbit (byte_val a) n), (Z.testbit (byte_val m) n); reflexivity.
  - rewrite Z.mod_pow2_bits_high by lia.
    rewrite Z.ones_spec_high by lia. reflexivity.
Qed.

Lemma index_in_range (data : list byte) (i : nat) :
  (i < length data)%nat -> index data i = Ret (nth i data x00).
Proof.
  intros H. unfold index. now rewrite (nth_error_nth' data x00 H).
Qed.

Lemma slice_in_range (data : list byte) (lo n : nat) :
  (lo + n <= length data)%nat ->
  slice data lo (lo + n) = Ret (firstn n (skipn lo data)).
Proof.
  intros H. unfold slice.
  replace (lo <=? lo + n)%nat with true by (symmetry; apply Nat.leb_le; lia).
  replace (lo + n <=? length data)%nat with true by (symmetry; now apply Nat.leb_le).
  simpl. now replace (lo + n - lo)%nat with n by lia.
Qed.

Lemma land_pow2 (x n : Z) :
  (0 <= n)%Z -> (Z.land x (2 ^ n) =? 0)%Z = negb (Z.testbit x n).
Proof.
  intros Hn. destruct (Z.testbit x n) eqn:E; cbn [negb].
  - apply Z.eqb_neq. intros H.
    assert (H0 : Z.testbit (Z.land x (2 ^ n)) n = false) by (rewrite H; apply Z.bits_0).
    rewrite Z.land_spec, E, Z.pow2_bits_true in H0 by lia. discriminate.
  - apply Z.eqb_eq. apply Z.bits_inj'. intros m Hm.
    rewrite Z.land_spec, Z.bits_0, Z.pow2_bits_eqb by lia.
    destruct (Z.eqb_spec n m) as [<-|]; [now rewrite E | apply andb_false_r].
Qed.

Lemma land_bit15 (x : Z) :
  (Z.land x 0x8000 =? 0)%Z = negb (Z.testbit x 15).
Proof. exact (land_pow2 x 15 ltac:(lia)). Qed.

Lemma flags_value (hi lo : byte) :
  Z.lor (Z.shiftl (byte_val hi) 8 mod 65536) (byte_val lo)
  = (byte_val hi * 256 + byte_val lo)%Z.
Proof.
  pose proof (byte_val_range hi) as Hh. pose proof (byte_val_range lo) as Hl.
  rewrite Z.shiftl_mul_pow2 by lia. change (2 ^ 8)%Z with 256%Z.
  rewrite Z.mod_small by lia.
  assert (H : Z.land (byte_val hi * 256) (byte_val lo) = 0%Z).
  { apply Z.bits_inj'. intros n Hn. rewrite Z.land_spec, Z.bits_0.
    destruct (Z.ltb_spec n 8) as [Hlt|Hge].
    - change 256%Z with (2 ^ 8)%Z. now rewrite Z.mul_pow2_bits_low by lia.
    - destruct (Z.eq_dec (byte_val lo) 0) as [->|Hnz].
      + now rewrite Z.bits_0, andb_false_r.
      + rewrite (Z.bits_above_log2 (byte_val lo) n), andb_false_r; [reflexivity|lia|].
        assert (Z.log2 (byte_val lo) < 8)%Z by (apply Z.log2_lt_pow2; lia). lia. }
  rewrite <- (Z.lxor_lor _ _ H). symmetry. now apply Z.add_nocarry_lxor.
Qed.

End Go.

Notation "x <- m ;; k" := (Go.bind m (fun x => k))
(at level 61, m at next level, right associativity).

(* ================================================================== *)
(** * Package net of the Go library, as far as the code calls it *)
(* ================================================================== *)

Module GoNet.
Import Go.

(** ** net.ParseMAC *)

Definition hexval (c : ascii) : option Z :=
  let n := Z.of_N (N_of_ascii c) in
  if (48 <=? n)%Z && (n <=? 57)%Z then Some (n - 48)%Z
  else if (97 <=? n)%Z && (n <=? 102)%Z then Some (n - 97 + 10)%Z
  else if (65 <=? n)%Z && (n <=? 70)%Z then Some (n - 65 + 10)%Z
  else None.

(** [xtoi2(s, e)]: the two leading hex digits of [s] as a byte; when [s]
    is longer than two bytes its third byte must be [e]. *)
Definition xtoi2 (s : string) (e : ascii) : option byte :=
  match s with
  | String c0 (String c1 rest) =>
      let sep_ok := match rest with
                    | EmptyString => true
                    | String c2 _ => Ascii.eqb c2 e
                    end in
      if sep_ok then
        match hexval c0, hexval c1 with
        | Some h, Some l => Some (byte_of_Z (h * 16 + l))
        | _, _ => None
        end
      else None
  | _ => None
  end.

Definition drop (n : nat) (s : string) : string :=
  substring n (String.length s - n) s.

(** The loop of the colon or dash form: [n] groups [hh] three bytes apart. *)
Fixpoint parse_groups3 (n : nat) (s : string) (sep : ascii) : option (list byte) :=
  match n with
  | O => Some []
  | S n' =>
      match xtoi2 s sep with
      | None => None
      | Some b =>
          match parse_groups3 n' (drop 3 s) sep with
          | None => None
          | Some bs => Some (b :: bs)
          end
      end
  end.

(** The loop of the dotted form: [n] groups [hhhh] five bytes apart. *)
Fixpoint parse_groups5 (n : nat) (s : string) (sep : ascii) : option (list byte) :=
  match n with
  | O => Some []
  | S n' =>
      match xtoi2 (substring 0 2 s) zero, xtoi2 (drop 2 s) sep with
      | Some b0, Some b1 =>
          match parse_groups5 n' (drop 5 s) sep with
          | None => None
          | Some bs => Some (b0 :: b1 :: bs)
          end
      | _, _ => None
      end
  end.

Definition mac_size_ok (n : nat) : bool :=
  (n =? 6)%nat || (n =? 8)%nat || (n =? 20)%nat.

Definition ParseMAC (s : string) : option (list byte) :=
  let len := String.length s in
  if (len <? 14)%nat then None
  else
    match String.get 2 s, String.get 4 s with
    | Some c2, Some c4 =>
        if Ascii.eqb c2 ":" || Ascii.eqb c2 "-" then
          if negb ((len + 1) mod 3 =? 0)%nat then None
          else
            let n := ((len + 1) / 3)%nat in
            if mac_size_ok n then parse_groups3 n s c2 else None
        else if Ascii.eqb c4 "." then
          if negb ((len + 1) mod 5 =? 0)%nat then None
          else
            let n := (2 * (len + 1) / 5)%nat in
            if mac_size_ok n then parse_groups5 (n / 2) s c4 else None
        else None
    | _, _ => None
    end.

(** ** net.IP.To4 *)

Definition all_zero (l : list byte) : bool :=
  forallb (fun b => Byte.eqb b x00) l.

Definition To4 (ip : list byte) : option (list byte) :=
  if (length ip =? 4)%nat then Some ip
  else if (length ip =? 16)%nat
          && all_zero (firstn 10 ip)
          && Byte.eqb (nth 10 ip x00) xff
          && Byte.eqb (nth 11 ip x00) xff
  then Some (firstn 4 (skipn 12 ip))
  else None.

(** ** net.IPMask.Size *)

(** Leading one bits of a byte that is not [0xff], and whether the bits
    after them are all zero. *)
Fixpoint leading_ones (fuel : nat) (v : Z) : nat * Z :=
  match fuel with
  | O => (O, v)
  | S f =>
      if negb (Z.land v 128 =? 0)%Z
      then let '(n, r) := leading_ones f ((v * 2) mod 256)%Z in (S n, r)
      else (O, v)
  end.

(** [simpleMaskLength]: the number of leading ones of a mask made of
    ones followed by zeros, [None] for any other mask (Go's -1). *)
Fixpoint simpleMaskLength (mask : list byte) : option nat :=
  match mask with
  | [] => Some O
  | v :: rest =>
      if Byte.eqb v xff then
        match simpleMaskLength rest with
        | Some n => Some (8 + n)%nat
        | None => None
        end
      else
        let '(n, r) := leading_ones 8 (byte_val v) in
        if negb (r =? 0)%Z then None
        else if all_zero rest then Some n else None
  end.

(** [ones, bits := mask.Size()]. *)
Definition Size (mask : list byte) : nat * nat :=
  match simpleMaskLength mask with
  | Some ones => (ones, (length mask * 8)%nat)
  | None => (O, O)
  end.

Record IPNet : Type := mkIPNet { IP : list byte; Mask : list byte }.

(** ** net.Interface *)

Definition FlagUp : Z := 1.
Definition FlagBroadcast : Z := 2.
Definition FlagLoopback : Z := 4.
Definition FlagPointToPoint : Z := 8.
Definition FlagMulticast : Z := 16.

(** A [net.Addr]: a [*net.IPNet], or a value of another type. *)
Inductive Addr : Type :=
| AddrIPNet (ipnet : IPNet)
| AddrOther (ip : list byte).

(** A [net.Interface] together with the answer of its [Addrs()] method
    ([None] when the call returns an error). *)
Record Interface : Type := mkInterface {
  Name : string;
  Flags : Z;
  HardwareAddr : list byte;
  Addrs : option (list Addr)
}.

End GoNet.

(* ================================================================== *)
(** * probe: Wake-on-LAN and broadcast address *)
(* ================================================================== *)

Module Wol.
Import Go GoNet.

(** What the sender does to the network, in order. *)
Inductive NetEvent : Type :=
| EvDial (network address : string)
| EvWrite (payload : list byte)
| EvClose.

(** The answers of the network: whether [net.Dial] succeeds and whether
    [conn.Write] does. *)
Record UDPNet : Type := mkUDPNet {
  dial_ok : string -> string -> bool;
  write_ok : list byte -> bool
}.

(** The four [fmt.Errorf] results of [SendWoL]. *)
Inductive WoLError : Type :=
| InvalidMAC
| WrongLength (n : nat)
| DialFailed
| SendFailed.

(** The magic packet: [var packet [102]byte] filled by the two loops. *)
Definition magic_packet (mac : list byte) : list byte :=
  let packet := repeat x00 102 in
  let packet := fold_left (fun p i => set_at p i xff) (seq 0 6) packet in
  fold_left (fun p i => copy_at p (6 + i * 6) mac) (seq 0 16) packet.

(** [SendWoL(macStr, broadcastAddr)]: the returned error ([None] is
    [nil]) and the network events it caused. *)
Definition SendWoL (net : UDPNet) (macStr broadcastAddr : string)
  : option WoLError * list NetEvent :=
  match ParseMAC macStr with
  | None => (Some InvalidMAC, [])
  | Some mac =>
      if negb (length mac =? 6)%nat then (Some (WrongLength (length mac)), [])
      else
        let packet := magic_packet mac in
        let addr := (broadcastAddr ++ ":9")%string in
        if negb (dial_ok net "udp" addr)
        then (Some DialFailed, [EvDial "udp" addr])
        else
          if negb (write_ok net packet)
          then (Some SendFailed, [EvDial "udp" addr; EvWrite packet; EvClose])
          else (None, [EvDial "udp" addr; EvWrite packet; EvClose])
  end.

(** [BroadcastAddr(ipNet)]: [Ret None] is the [nil] result. *)
Fixpoint broadcast_loop (ip mask : list byte) (i : nat) : run (list byte) :=
  match ip with
  | [] => Ret []
  | b :: ip' =>
      m <- index mask i ;;
      rest <- broadcast_loop ip' mask (S i) ;;
      Ret (byte_or b (byte_not m) :: rest)
  end.

Definition BroadcastAddr (ipNet : IPNet) : run (option (list byte)) :=
  match To4 (IP ipNet) with
  | None => Ret None
  | Some ip =>
      bc <- broadcast_loop ip (Mask ipNet) 0 ;;
      Ret (Some bc)
  end.

(** *** Facts *)

Lemma To4_length (ip ip4 : list byte) : To4 ip = Some ip4 -> length ip4 = 4%nat.
Proof.
  unfold To4. destruct (Nat.eqb_spec (length ip) 4) as [H4|_].
  - now intros [= <-].
  - destruct (Nat.eqb_spec (length ip) 16) as [H16|_]; [|discriminate].
    destruct (true && all_zero (firstn 10 ip) && Byte.eqb (nth 10 ip x00) xff
              && Byte.eqb (nth 11 ip x00) xff); lazy iota; [|discriminate].
    intros H. assert (E : ip4 = firstn 4 (skipn 12 ip)) by congruence.
    rewrite E, length_firstn, length_skipn. lia.
Qed.

Lemma broadcast_loop_ok (mask : list byte) :
  forall ip i,
    (i + length ip <= length mask)%nat ->
    broadcast_loop ip mask i =
    Ret (map (fun p => byte_or (fst p) (byte_not (snd p)))
             (combine ip (firstn (length ip) (skipn i mask)))).
Proof.
  induction ip as [|b ip IH]; intros i Hlen; simpl in *.
  - reflexivity.
  - unfold index. destruct (nth_error mask i) as [m|] eqn:E.
    + simpl. rewrite IH by lia. simpl.
      assert (Hs : skipn i mask = m :: skipn (S i) mask).
      { clear -E. revert i E. induction mask as [|x mask IHm]; intros [|i] E;
          simpl in *; try discriminate.
        - injection E as ->. reflexivity.
        - apply IHm. exact E. }
      rewrite Hs. reflexivity.
    + apply nth_error_None in E. lia.
Qed.

Lemma magic_packet_layout (mac : list byte) :
  length mac = 6%nat ->
  magic_packet mac = repeat xff 6 ++ concat (repeat mac 16).
Proof.
  intros H.
  destruct mac as [|a [|b [|c [|d [|e [|f [|g mac]]]]]]]; try discriminate.
  reflexivity.
Qed.

End Wol.

(* ================================================================== *)
(** * Packages strings and unicode/utf8 of the Go library *)
(* ================================================================== *)

Module GoStrings.

Definition code (c : ascii) : Z := Z.of_N (N_of_ascii c).
Definition chr (z : Z) : ascii := ascii_of_N (Z.to_N z).

Definition CR : ascii := chr 13.
Definition LF : ascii := chr 10.
Definition NUL : ascii := chr 0.

Fixpoint mem (c : ascii) (chars : string) : bool :=
  match chars with
  | EmptyString => false
  | String d rest => Ascii.eqb c d || mem c rest
  end.

Fixpoint str_forall (p : ascii -> bool) (s : string) : bool :=
  match s with
  | EmptyString => true
  | String c rest => p c && str_forall p rest
  end.

(** [strings.IndexAny(s, chars)] for a set [chars] of ASCII characters:
    the index of the first byte of [s] that is in [chars], or -1. *)
Fixpoint IndexAny (s chars : string) : Z :=
  match s with
  | EmptyString => (-1)%Z
  | String c rest =>
      if mem c chars then 0%Z
      else let r := IndexAny rest chars in
           if (r <? 0)%Z then (-1)%Z else (r + 1)%Z
  end.

(** [strings.Contains(s, substr)]. *)
Fixpoint Contains (s substr : string) : bool :=
  String.prefix substr s ||
  match s with
  | EmptyString => false
  | String _ rest => Contains rest substr
  end.

(** [strings.HasSuffix(s, suffix)]. *)
Definition HasSuffix (s suffix : string) : bool :=
  (String.length suffix <=? String.length s)%nat &&
  String.eqb (substring (String.length s - String.length suffix)
                        (String.length suffix) s) suffix.

(** [strings.Join(parts, sep)]. *)
Fixpoint Join (parts : list string) (sep : string) : string :=
  match parts with
  | [] => ""
  | [p] => p
  | p :: rest => (p ++ sep ++ Join rest sep)%string
  end.

(** The table [asciiSpace] of package strings. *)
Definition asciiSpace (c : ascii) : bool :=
  let n := code c in
  (n =? 9)%Z || (n =? 10)%Z || (n =? 11)%Z || (n =? 12)%Z || (n =? 13)%Z
  || (n =? 32)%Z.

Fixpoint trimLeftBy (p : ascii -> bool) (s : string) : string :=
  match s with
  | EmptyString => ""
  | String c rest => if p c then trimLeftBy p rest else s
  end.

Fixpoint trimRightBy (p : ascii -> bool) (s : string) : string :=
  match s with
  | EmptyString => ""
  | String c rest =>
      match trimRightBy p rest with
      | EmptyString => if p c then "" else String c ""
      | kept => String c kept
      end
  end.

(** [strings.TrimSpace(s)] on a string of ASCII bytes (on a byte above
    0x7f Go switches to the Unicode definition of white space; the one
    caller in this code passes ASCII only). *)
Definition TrimSpace (s : string) : string :=
  trimRightBy asciiSpace (trimLeftBy asciiSpace s).

(** [strings.TrimRight(s, cutset)] for a cutset of ASCII characters. *)
Definition TrimRight (s cutset : string) : string :=
  trimRightBy (fun c => mem c cutset) s.

(** ** Decoding UTF-8, as [for _, r := range s] does *)

Definition RuneError : Z := 65533.

(** The entry of the table [first] for a lead byte above 0x7f: the
    length of the sequence and the range accepted for its second byte. *)
Definition lead_info (s0 : Z) : option (nat * Z * Z) :=
  if (s0 <? 0xC2)%Z then None
  else if (s0 <=? 0xDF)%Z then Some (2%nat, 0x80, 0xBF)%Z
  else if (s0 =? 0xE0)%Z then Some (3%nat, 0xA0, 0xBF)%Z
  else if (s0 <=? 0xEC)%Z then Some (3%nat, 0x80, 0xBF)%Z
  else if (s0 =? 0xED)%Z then Some (3%nat, 0x80, 0x9F)%Z
  else if (s0 <=? 0xEF)%Z then Some (3%nat, 0x80, 0xBF)%Z
  else if (s0 =? 0xF0)%Z then Some (4%nat, 0x90, 0xBF)%Z
  else if (s0 <=? 0xF3)%Z then Some (4%nat, 0x80, 0xBF)%Z
  else if (s0 =? 0xF4)%Z then Some (4%nat, 0x80, 0x8F)%Z
  else None.

Definition cont (b : Z) : bool := (0x80 <=? b)%Z && (b <=? 0xBF)%Z.

(** The rune at the head of a non-empty string and its width in bytes. *)
Definition decodeRune (s : string) : Z * nat :=
  match s with
  | EmptyString => (RuneError, 0%nat)
  | String c0 t0 =>
      let s0 := code c0 in
      if (s0 <? 0x80)%Z then (s0, 1%nat)
      else
        match lead_info s0 with
        | None => (RuneError, 1%nat)
        | Some (sz, lo, hi) =>
            if (String.length s <? sz)%nat then (RuneError, 1%nat)
            else
              match t0 with
              | EmptyString => (RuneError, 1%nat)
              | String c1 t1 =>
                  let s1 := code c1 in
                  if (s1 <? lo)%Z || (hi <? s1)%Z then (RuneError, 1%nat)
                  else if (sz <=? 2)%nat then
                    (Z.lor (Z.shiftl (Z.land s0 0x1F) 6) (Z.land s1 0x3F), 2%nat)
                  else
                    match t1 with
                    | EmptyString => (RuneError, 1%nat)
                    | String c2 t2 =>
                        let s2 := code c2 in
                        if negb (cont s2) then (RuneError, 1%nat)
                        else if (sz <=? 3)%nat then
                          (Z.lor (Z.lor (Z.shiftl (Z.land s0 0x0F) 12)
                                        (Z.shiftl (Z.land s1 0x3F) 6))
                                 (Z.land s2 0x3F), 3%nat)
                        else
                          match t2 with
                          | EmptyString => (RuneError, 1%nat)
                          | String c3 _ =>
                              let s3 := code c3 in
                              if negb (cont s3) then (RuneError, 1%nat)
                              else
                                (Z.lor (Z.lor (Z.lor
                                   (Z.shiftl (Z.land s0 0x07) 18)
                                   (Z.shiftl (Z.land s1 0x3F) 12))
                                   (Z.shiftl (Z.land s2 0x3F) 6))
                                   (Z.land s3 0x3F), 4%nat)
                          end
                    end
              end
        end
  end.

(** The runes a [range] loop over [s] yields, in order. Every step
    consumes at least one byte, so [String.length s] steps suffice. *)
Fixpoint runes_fuel (fuel : nat) (s : string) : list Z :=
  match fuel with
  | O => []
  | S f =>
      match s with
      | EmptyString => []
      | String _ _ =>
          let '(r, w) := decodeRune s in
          r :: runes_fuel f (substring w (String.length s - w) s)
      end
  end.

Definition runes (s : string) : list Z := runes_fuel (String.length s) s.

(** ** strings.ToLower *)

Definition isASCII (s : string) : bool :=
  str_forall (fun c => (code c <? 0x80)%Z) s.

Definition lowerByte (c : ascii) : ascii :=
  let n := code c in
  if (65 <=? n)%Z && (n <=? 90)%Z then chr (n + 32) else c.

Fixpoint mapBytes (f : ascii -> ascii) (s : string) : string :=
  match s with
  | EmptyString => ""
  | String c rest => String (f c) (mapBytes f rest)
  end.

Section ToLower.
(** [strings.Map(unicode.ToLower, s)], which Go applies to a string
    holding a byte above 0x7f; the Unicode case tables are not part
    of this development. *)
Variable mapUnicodeLower : string -> string.

Definition ToLower (s : string) : string :=
  if isASCII s then mapBytes lowerByte s else mapUnicodeLower s.
End ToLower.

Definition spaceless (kw : string) : bool :=
  str_forall (fun c => negb (Ascii.eqb c " ")) kw.

(** A keyword made of non-space characters, at least one. *)
Definition plain_keyword (kw : string) : bool :=
  spaceless kw && negb (String.eqb kw "").

Fixpoint str_filter (p : ascii -> bool) (s : string) : string :=
  match s with
  | EmptyString => ""
  | String c rest => if p c then String c (str_filter p rest) else str_filter p rest
  end.

Definition high_byte (c : ascii) : bool := (0x80 <=? code c)%Z.

(** The first, respectively the last, character satisfies [p]. *)
Definition firstSatisfies (p : ascii -> bool) (s : string) : bool :=
  match s with
  | EmptyString => false
  | String c _ => p c
  end.

Fixpoint lastSatisfies (p : ascii -> bool) (s : string) : bool :=
  match s with
  | EmptyString => false
  | String c EmptyString => p c
  | String _ rest => lastSatisfies p rest
  end.

(** Case mapping works rune by rune and a space is a rune of its own:
    lowering a text with a space in it lowers both sides. *)
Definition lower_splits_at_space (mapUnicodeLower : string -> string) : Prop :=
  forall a b,
    ToLower mapUnicodeLower (a ++ String " " b)
    = (ToLower mapUnicodeLower a ++ String " " (ToLower mapUnicodeLower b))%string.

(** ** Facts about the string functions *)

Lemma length_append (a b : string) :
  String.length (a ++ b)%string = (String.length a + String.length b)%nat.
Proof. induction a as [|c a IH]; simpl; [reflexivity | now rewrite IH]. Qed.

Lemma length_substring0 (n : nat) (s : string) :
  String.length (substring 0 n s) = Nat.min n (String.length s).
Proof.
  revert n. induction s as [|c s IH]; intros [|n]; simpl; try reflexivity.
  now rewrite IH.
Qed.

Lemma str_forall_append p (a b : string) :
  str_forall p (a ++ b)%string = str_forall p a && str_forall p b.
Proof.
  induction a as [|c a IH]; simpl; [reflexivity|].
  now rewrite IH, andb_assoc.
Qed.

Lemma str_forall_substring0 p (n : nat) (s : string) :
  str_forall p s = true -> str_forall p (substring 0 n s) = true.
Proof.
  revert n. induction s as [|c s IH]; intros [|n] H; simpl in *; try reflexivity.
  apply andb_true_iff in H as [H1 H2]. rewrite H1. now apply IH.
Qed.

Lemma str_forall_trimLeftBy p q (s : string) :
  str_forall p s = true -> str_forall p (trimLeftBy q s) = true.
Proof.
  induction s as [|c s IH]; intros H; simpl in *; [reflexivity|].
  destruct (q c); [|exact H].
  apply andb_true_iff in H as [_ H2]. now apply IH.
Qed.

Lemma str_forall_trimRightBy p q (s : string) :
  str_forall p s = true -> str_forall p (trimRightBy q s) = true.
Proof.
  induction s as [|c s IH]; intros H; simpl in *; [reflexivity|].
  apply andb_true_iff in H as [H1 H2]. specialize (IH H2).
  destruct (trimRightBy q s) as [|d k].
  - destruct (q c); simpl; [reflexivity | now rewrite H1].
  - simpl in *. now rewrite H1, IH.
Qed.

Lemma code_chr (r : Z) : (0 <= r < 256)%Z -> code (chr r) = r.
Proof.
  intros H. unfold code, chr. rewrite N_ascii_embedding by lia. lia.
Qed.

Lemma substring_append_suffix (x suf : string) :
  substring (String.length x) (String.length suf) (x ++ suf)%string = suf.
Proof.
  induction x as [|c x IH]; simpl; [|exact IH].
  induction suf as [|d suf IHs]; simpl; [reflexivity|]. now rewrite IHs.
Qed.

Lemma HasSuffix_append (x suf : string) : HasSuffix (x ++ suf) suf = true.
Proof.
  unfold HasSuffix. rewrite length_append.
  replace (String.length x + String.length suf - String.length suf)%nat
    with (String.length x) by lia.
  rewrite substring_append_suffix, String.eqb_refl, andb_true_r.
  apply Nat.leb_le. lia.
Qed.

Lemma IndexAny_split (chars raw : string) :
  let idx := IndexAny raw chars in
  let line := if (0 <=? idx)%Z then substring 0 (Z.to_nat idx) raw else raw in
  str_forall (fun c => negb (mem c chars)) line = true /\
  exists rest, raw = (line ++ rest)%string /\
    match rest with
    | EmptyString => True
    | String c _ => mem c chars = true
    end.
Proof.
  induction raw as [|c raw IH]; cbn zeta in *.
  - simpl. split; [reflexivity|]. exists "". split; reflexivity.
  - cbn [IndexAny]. destruct (mem c chars) eqn:E.
    + simpl. split; [reflexivity|]. exists (String c raw). split; [reflexivity | exact E].
    + destruct IH as [IH1 [rest [IH2 IH3]]].
      destruct (IndexAny raw chars <? 0)%Z eqn:Eneg.
      * replace (0 <=? IndexAny raw chars)%Z with false in * by
          (symmetry; apply Z.leb_gt; apply Z.ltb_lt in Eneg; lia).
        change (0 <=? -1)%Z with false. cbn iota. cbn [str_forall].
        rewrite E, IH1. split; [reflexivity|].
        exists rest. split; [cbn [String.append]; now rewrite <- IH2 | exact IH3].
      * apply Z.ltb_ge in Eneg.
        replace (0 <=? IndexAny raw chars)%Z with true in * by
          (symmetry; apply Z.leb_le; lia).
        replace (0 <=? IndexAny raw chars + 1)%Z with true by
          (symmetry; apply Z.leb_le; lia).
        replace (Z.to_nat (IndexAny raw chars + 1))
          with (S (Z.to_nat (IndexAny raw chars))) by lia.
        cbn [substring str_forall String.append].
        rewrite E, IH1. split; [reflexivity|].
        exists rest. split; [now rewrite <- IH2 | exact IH3].
Qed.

Lemma trimLeftBy_first p (s : string) : firstSatisfies p (trimLeftBy p s) = false.
Proof.
  induction s as [|c s IH]; cbn; [reflexivity|].
  destruct (p c) eqn:E; [exact IH | cbn; exact E].
Qed.

Lemma trimRightBy_first p (s : string) :
  firstSatisfies p s = false -> firstSatisfies p (trimRightBy p s) = false.
Proof.
  destruct s as [|c s]; cbn; [reflexivity|]. intros E.
  destruct (trimRightBy p s); [rewrite E|]; cbn; exact E.
Qed.

Lemma trimRightBy_last p (s : string) : lastSatisfies p (trimRightBy p s) = false.
Proof.
  induction s as [|c s IH]; cbn; [reflexivity|].
  destruct (trimRightBy p s) as [|d k].
  - destruct (p c) eqn:E; cbn; [reflexivity | exact E].
  - exact IH.
Qed.

Lemma lastSatisfies_append_char p (x : string) (c : ascii) :
  lastSatisfies p (x ++ String c "") = p c.
Proof.
  induction x as [|d x IH]; cbn; [reflexivity|].
  destruct (x ++ String c "")%string eqn:E; [destruct x; discriminate | exact IH].
Qed.

Lemma string_append_assoc (a b c : string) :
  ((a ++ b) ++ c = a ++ (b ++ c))%string.
Proof. induction a as [|x a IH]; cbn; [reflexivity | now rewrite IH]. Qed.

Lemma firstSatisfies_substring0 p (n : nat) (s x : string) :
  (0 < String.length s)%nat ->
  firstSatisfies p (substring 0 (S n) s ++ x) = firstSatisfies p s.
Proof.
  destruct s as [|c s]; cbn; [lia | reflexivity].
Qed.

Lemma TrimSpace_trimmed (s : string) :
  firstSatisfies asciiSpace (TrimSpace s) = false
  /\ lastSatisfies asciiSpace (TrimSpace s) = false.
Proof.
  unfold TrimSpace. split.
  - apply trimRightBy_first, trimLeftBy_first.
  - apply trimRightBy_last.
Qed.

(** ** Decoding a byte above 0x7f *)

Lemma code_range (c : ascii) : (0 <= code c < 256)%Z.
Proof. unfold code. pose proof (N_ascii_bounded c). lia. Qed.

Lemma chr_code (c : ascii) : chr (code c) = c.
Proof. unfold chr, code. rewrite N2Z.id. apply ascii_N_embedding. Qed.

Lemma lor_lower_bound (a b : Z) : (0 <= a)%Z -> (0 <= b)%Z -> (a <= Z.lor a b)%Z.
Proof.
  intros Ha Hb.
  assert (Hd : Z.land a (Z.ldiff b a) = 0%Z).
  { apply Z.bits_inj'. intros n Hn.
    rewrite Z.land_spec, Z.ldiff_spec, Z.bits_0.
    destruct (Z.testbit a n), (Z.testbit b n); reflexivity. }
  assert (He : Z.lor a b = Z.lor a (Z.ldiff b a)).
  { apply Z.bits_inj'. intros n Hn.
    rewrite !Z.lor_spec, Z.ldiff_spec.
    destruct (Z.testbit a n), (Z.testbit b n); reflexivity. }
  rewrite He, <- (Z.lxor_lor _ _ Hd), <- (Z.add_nocarry_lxor _ _ Hd).
  assert (0 <= Z.ldiff b a)%Z by (apply Z.ldiff_nonneg; now left). lia.
Qed.

Lemma lead_info_facts (s0 : Z) (sz : nat) (lo hi : Z) :
  lead_info s0 = Some (sz, lo, hi) ->
  (0x80 <= lo)%Z
  /\ ((sz = 2%nat /\ 0xC2 <= s0 <= 0xDF)%Z
      \/ (sz = 3%nat /\ (0xE0 <= s0 <= 0xEF)%Z /\ (s0 = 0xE0%Z -> lo = 0xA0%Z))
      \/ (sz = 4%nat /\ (0xF0 <= s0 <= 0xF4)%Z /\ (s0 = 0xF0%Z -> lo = 0x90%Z))).
Proof.
  unfold lead_info.
  repeat match goal with
         | |- context [(?a <? ?b)%Z] => destruct (Z.ltb_spec a b)
         | |- context [(?a <=? ?b)%Z] => destruct (Z.leb_spec a b)
         | |- context [(?a =? ?b)%Z] => destruct (Z.eqb_spec a b)
         end;
    intros [= <- <- <-]; split; try lia;
    first [ left; split; [reflexivity | lia]
          | right; left; split; [reflexivity | split; [lia | intros; lia]]
          | right; right; split; [reflexivity | split; [lia | intros; lia]] ].
Qed.


Ltac pow2_consts :=
  change (2 ^ 3)%Z with 8%Z in *; change (2 ^ 4)%Z with 16%Z in *;
  change (2 ^ 5)%Z with 32%Z in *; change (2 ^ 6)%Z with 64%Z in *;
  change (2 ^ 12)%Z with 4096%Z in *; change (2 ^ 18)%Z with 262144%Z in *.

Lemma rune_bound2 (s0 s1 : Z) :
  (0xC2 <= s0 <= 0xDF)%Z -> (0 <= s1)%Z ->
  (128 <= Z.lor (Z.shiftl (Z.land s0 0x1F) 6) (Z.land s1 0x3F))%Z.
Proof.
  intros H0 H1.
  change 0x1F%Z with (Z.ones 5). change 0x3F%Z with (Z.ones 6).
  rewrite !Z.land_ones, Z.shiftl_mul_pow2 by lia. pow2_consts.
  set (A := (s0 mod 32 * 64)%Z). set (B := (s1 mod 64)%Z).
  assert (HA : (0 <= A)%Z) by (subst A; Z.to_euclidean_division_equations; lia).
  assert (HB : (0 <= B)%Z) by (subst B; Z.to_euclidean_division_equations; lia).
  pose proof (lor_lower_bound A B HA HB) as L1. subst A. (Z.to_euclidean_division_equations; lia).
Qed.

Lemma rune_bound3 (s0 s1 s2 lo : Z) :
  (0xE0 <= s0 <= 0xEF)%Z -> (s0 = 0xE0%Z -> lo = 0xA0%Z) ->
  (lo <= s1 <= 0xBF)%Z -> (0x80 <= lo)%Z -> (0 <= s2)%Z ->
  (128 <= Z.lor (Z.lor (Z.shiftl (Z.land s0 0x0F) 12) (Z.shiftl (Z.land s1 0x3F) 6))
                (Z.land s2 0x3F))%Z.
Proof.
  intros H0 Hlo H1 Hl H2.
  change 0x0F%Z with (Z.ones 4). change 0x3F%Z with (Z.ones 6).
  rewrite !Z.land_ones, !Z.shiftl_mul_pow2 by lia. pow2_consts.
  set (A := (s0 mod 16 * 4096)%Z). set (B := (s1 mod 64 * 64)%Z).
  assert (HA : (0 <= A)%Z) by (subst A; Z.to_euclidean_division_equations; lia).
  assert (HB : (0 <= B)%Z) by (subst B; Z.to_euclidean_division_equations; lia).
  assert (HC : (0 <= s2 mod 64)%Z) by (Z.to_euclidean_division_equations; lia).
  pose proof (lor_lower_bound A B HA HB) as L1.
  pose proof (lor_lower_bound B A HB HA) as L2. rewrite Z.lor_comm in L2.
  assert (HAB : (0 <= Z.lor A B)%Z) by (apply Z.lor_nonneg; now split).
  pose proof (lor_lower_bound (Z.lor A B) _ HAB HC) as L3.
  destruct (Z.eq_dec s0 0xE0) as [E|E].
  - specialize (Hlo E). subst A B. (Z.to_euclidean_division_equations; lia).
  - subst A B. (Z.to_euclidean_division_equations; lia).
Qed.

Lemma rune_bound4 (s0 s1 s2 s3 lo : Z) :
  (0xF0 <= s0 <= 0xF4)%Z -> (s0 = 0xF0%Z -> lo = 0x90%Z) ->
  (lo <= s1 <= 0xBF)%Z -> (0x80 <= lo)%Z -> (0 <= s2)%Z -> (0 <= s3)%Z ->
  (128 <= Z.lor (Z.lor (Z.lor (Z.shiftl (Z.land s0 0x07) 18)
                              (Z.shiftl (Z.land s1 0x3F) 12))
                       (Z.shiftl (Z.land s2 0x3F) 6))
                (Z.land s3 0x3F))%Z.
Proof.
  intros H0 Hlo H1 Hl H2 H3.
  change 0x07%Z with (Z.ones 3). change 0x3F%Z with (Z.ones 6).
  rewrite !Z.land_ones, !Z.shiftl_mul_pow2 by lia. pow2_consts.
  set (A := (s0 mod 8 * 262144)%Z). set (B := (s1 mod 64 * 4096)%Z).
  set (C := (s2 mod 64 * 64)%Z).
  assert (HA : (0 <= A)%Z) by (subst A; Z.to_euclidean_division_equations; lia).
  assert (HB : (0 <= B)%Z) by (subst B; Z.to_euclidean_division_equations; lia).
  assert (HC : (0 <= C)%Z) by (subst C; Z.to_euclidean_division_equations; lia).
  assert (HD : (0 <= s3 mod 64)%Z) by (Z.to_euclidean_division_equations; lia).
  pose proof (lor_lower_bound A B HA HB) as L1.
  pose proof (lor_lower_bound B A HB HA) as L2. rewrite Z.lor_comm in L2.
  assert (HAB : (0 <= Z.lor A B)%Z) by (apply Z.lor_nonneg; now split).
  pose proof (lor_lower_bound (Z.lor A B) C HAB HC) as L3.
  assert (HABC : (0 <= Z.lor (Z.lor A B) C)%Z) by (apply Z.lor_nonneg; now split).
  pose proof (lor_lower_bound (Z.lor (Z.lor A B) C) _ HABC HD) as L4.
  destruct (Z.eq_dec s0 0xF0) as [E|E].
  - specialize (Hlo E). subst A B. (Z.to_euclidean_division_equations; lia).
  - subst A B. (Z.to_euclidean_division_equations; lia).
Qed.

Lemma decodeRune_high (c0 : ascii) (t0 : string) :
  high_byte c0 = true ->
  let '(r, w) := decodeRune (String c0 t0) in
  (128 <= r)%Z
  /\ (1 <= w <= S (String.length t0))%nat
  /\ str_forall high_byte (substring 0 w (String c0 t0)) = true.
Proof.
  intros Hh. pose proof Hh as Hh0. unfold high_byte in Hh0. apply Z.leb_le in Hh0.
  assert (Herr : (128 <= RuneError)%Z
                 /\ (1 <= 1 <= S (String.length t0))%nat
                 /\ str_forall high_byte (substring 0 1 (String c0 t0)) = true).
  { split; [unfold RuneError; lia|]. split; [lia|]. cbn [substring str_forall].
    destruct t0; cbn [substring str_forall]; now rewrite Hh. }
  unfold decodeRune.
  replace (code c0 <? 0x80)%Z with false by (symmetry; apply Z.ltb_ge; lia).
  destruct (lead_info (code c0)) as [[[sz lo] hi]|] eqn:El; [|exact Herr].
  destruct (lead_info_facts _ _ _ _ El) as [Hlo Hsz].
  destruct (String.length (String c0 t0) <? sz)%nat eqn:Elen; [exact Herr|].
  apply Nat.ltb_ge in Elen. cbn [String.length] in Elen.
  destruct t0 as [|c1 t1]; [exact Herr|].
  destruct ((code c1 <? lo)%Z || (hi <? code c1)%Z) eqn:E1; [exact Herr|].
  apply orb_false_iff in E1 as [E1a E1b].
  apply Z.ltb_ge in E1a. apply Z.ltb_ge in E1b.
  assert (H1 : high_byte c1 = true) by (apply Z.leb_le; lia).
  pose proof (code_range c1) as R1.
  destruct (sz <=? 2)%nat eqn:E2.
  { apply Nat.leb_le in E2.
    destruct Hsz as [[_ Hs0]|[[-> _]|[-> _]]]; try lia.
    split; [pose proof (rune_bound2 _ (code c1) Hs0); lia|].
    split; [cbn [String.length]; lia|].
    cbn [substring str_forall]. destruct t1; cbn [substring str_forall];
      now rewrite Hh, H1. }
  apply Nat.leb_gt in E2.
  destruct t1 as [|c2 t2]; [exact Herr|].
  destruct (cont (code c2)) eqn:E3; cbn [negb]; [|exact Herr].
  assert (H2 : high_byte c2 = true).
  { unfold cont in E3. apply andb_true_iff in E3 as [E3 _]. exact E3. }
  pose proof (code_range c2) as R2.
  assert (Hhi : (code c1 <= 0xBF)%Z).
  { unfold lead_info in El.
    repeat match type of El with
           | context [(?a <? ?b)%Z] => destruct (Z.ltb_spec a b)
           | context [(?a <=? ?b)%Z] => destruct (Z.leb_spec a b)
           | context [(?a =? ?b)%Z] => destruct (Z.eqb_spec a b)
           end; try discriminate; injection El as <- <- <-; lia. }
  destruct (sz <=? 3)%nat eqn:E4.
  { apply Nat.leb_le in E4.
    destruct Hsz as [[-> _]|[[_ [Hs0 Hl0]]|[-> _]]]; try lia.
    split.
    { pose proof (rune_bound3 _ (code c1) (code c2) lo Hs0 Hl0). lia. }
    split; [cbn [String.length]; lia|].
    cbn [substring str_forall]. destruct t2; cbn [substring str_forall];
      now rewrite Hh, H1, H2. }
  apply Nat.leb_gt in E4.
  destruct t2 as [|c3 t3]; [exact Herr|].
  destruct (cont (code c3)) eqn:E5; cbn [negb]; [|exact Herr].
  assert (H3 : high_byte c3 = true).
  { unfold cont in E5. apply andb_true_iff in E5 as [E5 _]. exact E5. }
  pose proof (code_range c3) as R3.
  destruct Hsz as [[-> _]|[[-> _]|[_ [Hs0 Hl0]]]]; try lia.
  split.
  { pose proof (rune_bound4 _ (code c1) (code c2) (code c3) lo Hs0 Hl0). lia. }
  split; [cbn [String.length]; lia|].
  cbn [substring str_forall]. destruct t3; cbn [substring str_forall];
    now rewrite Hh, H1, H2, H3.
Qed.


Lemma str_filter_append p (a b : string) :
  str_filter p (a ++ b) = (str_filter p a ++ str_filter p b)%string.
Proof.
  induction a as [|c a IH]; cbn; [reflexivity|].
  destruct (p c); cbn; now rewrite IH.
Qed.

Lemma substring_all (s : string) : substring 0 (String.length s) s = s.
Proof. induction s as [|c s IH]; cbn; [reflexivity | now rewrite IH]. Qed.

Lemma substring_split (w : nat) (s : string) :
  (w <= String.length s)%nat ->
  s = (substring 0 w s ++ substring w (String.length s - w) s)%string.
Proof.
  revert w. induction s as [|c s IH]; intros [|w] Hw; cbn in *; try lia.
  - reflexivity.
  - now rewrite substring_all.
  - rewrite <- IH by lia. reflexivity.
Qed.

Lemma length_substring (w n : nat) (s : string) :
  (String.length (substring w n s) <= n)%nat.
Proof.
  revert w n. induction s as [|c s IH]; intros [|w] [|n]; cbn; try lia.
  - specialize (IH 0%nat n). lia.
  - apply IH.
  - apply IH.
Qed.

(** ** Keywords, joins and permutations *)

Lemma prefix_before_space (kw : string) :
  spaceless kw = true ->
  forall a b, String.prefix kw (a ++ String " " b) = String.prefix kw a.
Proof.
  induction kw as [|c kw IH]; intros Hs a b.
  - destruct a; reflexivity.
  - cbn in Hs. apply andb_true_iff in Hs as [Hc Hs].
    destruct a as [|d a]; cbn.
    + destruct (ascii_dec c " ") as [->|]; [discriminate Hc | reflexivity].
    + destruct (ascii_dec c d); [now apply IH | reflexivity].
Qed.

Lemma Contains_across_space (kw : string) :
  spaceless kw = true ->
  forall a b, Contains (a ++ String " " b) kw = Contains a kw || Contains b kw.
Proof.
  intros Hs a b. induction a as [|d a IH].
  - pose proof (prefix_before_space kw Hs "" b) as H.
    cbn [String.append Contains] in *. rewrite H.
    now rewrite orb_false_r.
  - cbn [String.append Contains].
    change (String d (a ++ String " " b)) with ((String d a) ++ String " " b)%string.
    rewrite (prefix_before_space kw Hs), IH.
    now rewrite !orb_assoc.
Qed.

Lemma Contains_empty (kw : string) :
  negb (String.eqb kw "") = true -> Contains "" kw = false.
Proof. destruct kw; [discriminate | reflexivity]. Qed.

Lemma Join_cons2 (p q : string) (rest : list string) :
  Join (p :: q :: rest) " " = (p ++ String " " (Join (q :: rest) " "))%string.
Proof. reflexivity. Qed.

Lemma Contains_Join (kw : string) (parts : list string) :
  plain_keyword kw = true ->
  Contains (Join parts " ") kw = existsb (fun p => Contains p kw) parts.
Proof.
  intros Hk. apply andb_true_iff in Hk as [Hs Hne].
  induction parts as [|p [|q rest] IH].
  - now apply Contains_empty.
  - cbn. now rewrite orb_false_r.
  - rewrite Join_cons2, Contains_across_space by exact Hs.
    rewrite IH. reflexivity.
Qed.

Lemma existsb_Permutation {A} (f : A -> bool) (l l' : list A) :
  Permutation l l' -> existsb f l = existsb f l'.
Proof.
  induction 1 as [|x l l' _ IH|x y l|l l' l'' _ IH1 _ IH2]; cbn.
  - reflexivity.
  - now rewrite IH.
  - now rewrite !orb_assoc, (orb_comm (f y)).
  - now rewrite IH1.
Qed.

Section CaseMapping.
Variable mapUnicodeLower : string -> string.

Hypothesis Hsplit : lower_splits_at_space mapUnicodeLower.

Lemma ToLower_Join (parts : list string) :
  ToLower mapUnicodeLower (Join parts " ")
  = Join (map (ToLower mapUnicodeLower) parts) " ".
Proof.
  induction parts as [|p [|q rest] IH]; try reflexivity.
  rewrite Join_cons2, Hsplit, IH. reflexivity.
Qed.

Lemma Contains_lower_Join (kw : string) (parts : list string) :
  plain_keyword kw = true ->
  Contains (ToLower mapUnicodeLower (Join parts " ")) kw
  = existsb (fun p => Contains (ToLower mapUnicodeLower p) kw) parts.
Proof.
  intros Hk. rewrite ToLower_Join, Contains_Join by exact Hk.
  induction parts as [|p parts IH]; cbn; [reflexivity | now rewrite IH].
Qed.

Lemma Contains_lower_Join_perm (kw : string) (parts parts' : list string) :
  plain_keyword kw = true ->
  Permutation parts parts' ->
  Contains (ToLower mapUnicodeLower (Join parts " ")) kw
  = Contains (ToLower mapUnicodeLower (Join parts' " ")) kw.
Proof.
  intros Hk Hp. rewrite !Contains_lower_Join by exact Hk.
  now apply existsb_Permutation.
Qed.

End CaseMapping.

(** Lowering byte by byte (what Go does to ASCII text) splits at spaces. *)
Lemma mapBytes_append f (a b : string) :
  mapBytes f (a ++ b) = (mapBytes f a ++ mapBytes f b)%string.
Proof. induction a as [|c a IH]; cbn; [reflexivity | now rewrite IH]. Qed.

Lemma isASCII_append (a b : string) :
  isASCII (a ++ b) = isASCII a && isASCII b.
Proof. apply str_forall_append. Qed.

Lemma ascii_lower_splits : lower_splits_at_space (mapBytes lowerByte).
Proof.
  intros a b. unfold ToLower.
  rewrite mapBytes_append.
  change (mapBytes lowerByte (String " " b)) with (String " " (mapBytes lowerByte b)).
  destruct (isASCII (a ++ String " " b)), (isASCII a), (isASCII b); reflexivity.
Qed.

End GoStrings.

(* ================================================================== *)
(** * probe: banner sanitizer *)
(* ================================================================== *)

Module Banner.
Import GoStrings.

Definition printable (r : Z) : bool := (32 <=? r)%Z && (r <? 127)%Z.

(** The loop over the runes of the first line: [clean.WriteRune(r)] for
    every rune in 32..126 (one byte each). *)
Fixpoint writePrintable (rs : list Z) : string :=
  match rs with
  | [] => ""
  | r :: rest =>
      if printable r then String (chr r) (writePrintable rest)
      else writePrintable rest
  end.

Definition firstLine (raw : string) : string :=
  let idx := IndexAny raw (String CR (String LF "")) in
  if (0 <=? idx)%Z then substring 0 (Z.to_nat idx) raw else raw.

(** The value of [result] before the length check. *)
Definition trimmed (raw : string) : string :=
  TrimSpace (writePrintable (runes (firstLine raw))).

Definition truncated (raw : string) : bool :=
  (120 <? String.length (trimmed raw))%nat.

Definition sanitizeBanner (raw : string) : string :=
  let result := trimmed raw in
  if (120 <? String.length result)%nat
  then (substring 0 117 result ++ "...")%string
  else result.

Definition printable_char (c : ascii) : bool := printable (code c).

Definition is_crlf (c : ascii) : bool := mem c (String CR (String LF "")).

(** *** Facts *)

Lemma writePrintable_printable (rs : list Z) :
  str_forall printable_char (writePrintable rs) = true.
Proof.
  induction rs as [|r rs IH]; simpl; [reflexivity|].
  destruct (printable r) eqn:E; [|exact IH].
  simpl. rewrite IH, andb_true_r. unfold printable_char.
  unfold printable in E. rewrite code_chr by lia. exact E.
Qed.

(** [firstLine] cuts at the first carriage return or line feed. *)
Lemma firstLine_split (raw : string) :
  str_forall (fun c => negb (is_crlf c)) (firstLine raw) = true /\
  exists rest, raw = (firstLine raw ++ rest)%string /\
    match rest with
    | EmptyString => True
    | String c _ => is_crlf c = true
    end.
Proof. exact (IndexAny_split (String CR (String LF "")) raw). Qed.

Lemma trimmed_printable (raw : string) :
  str_forall printable_char (trimmed raw) = true.
Proof.
  unfold trimmed, TrimSpace.
  apply str_forall_trimRightBy, str_forall_trimLeftBy, writePrintable_printable.
Qed.

Lemma printable_high (r : Z) : (127 <= r)%Z -> printable r = false.
Proof. intros H. unfold printable. apply andb_false_iff. right. now apply Z.ltb_ge. Qed.


Lemma str_filter_high (a : string) :
  str_forall high_byte a = true -> str_filter printable_char a = "".
Proof.
  induction a as [|c a IH]; cbn; [reflexivity|].
  intros H. apply andb_true_iff in H as [Hc Ha].
  unfold printable_char. rewrite printable_high; [now apply IH|].
  unfold high_byte in Hc. apply Z.leb_le in Hc. lia.
Qed.

(** Decoding and keeping the printable runes is keeping the printable
    bytes: no byte above 0x7f ever yields a rune below 0x80. *)
Lemma writePrintable_runes_fuel (fuel : nat) :
  forall s, (String.length s <= fuel)%nat ->
  writePrintable (runes_fuel fuel s) = str_filter printable_char s.
Proof.
  induction fuel as [|f IH]; intros s Hlen.
  - destruct s; [reflexivity | cbn in Hlen; lia].
  - destruct s as [|c t]; [reflexivity|].
    cbn [runes_fuel].
    destruct (Z.ltb_spec (code c) 0x80) as [Hlow|Hhigh].
    + assert (Hd : decodeRune (String c t) = (code c, 1%nat)).
      { unfold decodeRune.
        now replace (code c <? 0x80)%Z with true by (symmetry; now apply Z.ltb_lt). }
      rewrite Hd. cbn [String.length Nat.sub substring].
      rewrite Nat.sub_0_r, substring_all.
      cbn [writePrintable str_filter]. unfold printable_char at 1.
      rewrite IH by (cbn in Hlen; lia). rewrite chr_code. reflexivity.
    + assert (Hh : high_byte c = true) by (apply Z.leb_le; lia).
      pose proof (decodeRune_high c t Hh) as Hd.
      destruct (decodeRune (String c t)) as [r w].
      destruct Hd as (Hr & Hw & Hbytes).
      cbn [writePrintable]. rewrite (printable_high r) by lia.
      rewrite IH.
      * assert (Hs := substring_split w (String c t)
                        ltac:(cbn [String.length]; lia)).
        set (hd := substring 0 w (String c t)) in *.
        set (tl := substring w _ (String c t)) in *.
        rewrite Hs, str_filter_append, (str_filter_high _ Hbytes). reflexivity.
      * pose proof (length_substring w (String.length (String c t) - w) (String c t)).
        cbn [String.length] in *. lia.
Qed.

Lemma writePrintable_runes (s : string) :
  writePrintable (runes s) = str_filter printable_char s.
Proof. apply writePrintable_runes_fuel. lia. Qed.

Lemma printable_not_crlf (s : string) :
  str_forall printable_char s = true ->
  str_forall (fun c => negb (is_crlf c)) s = true.
Proof.
  induction s as [|c s IH]; cbn [str_forall]; [reflexivity|].
  intros H. apply andb_true_iff in H as [Hc Hs]. rewrite (IH Hs), andb_true_r.
  unfold printable_char, printable in Hc.
  apply andb_true_iff in Hc as [Hlo _]. apply Z.leb_le in Hlo.
  unfold is_crlf. cbn [mem].
  destruct (Ascii.eqb_spec c CR) as [->|_]; [cbv in Hlo; contradiction|].
  destruct (Ascii.eqb_spec c LF) as [->|_]; [cbv in Hlo; contradiction|].
  reflexivity.
Qed.

(** What [sanitizeBanner] returns. *)
Lemma sanitizeBanner_cases (raw : string) :
  (truncated raw = false /\ sanitizeBanner raw = trimmed raw
   /\ (String.length (trimmed raw) <= 120)%nat)
  \/ (truncated raw = true
      /\ sanitizeBanner raw = (substring 0 117 (trimmed raw) ++ "...")%string
      /\ String.length (sanitizeBanner raw) = 120%nat).
Proof.
  unfold sanitizeBanner, truncated.
  destruct (Nat.ltb_spec 120 (String.length (trimmed raw))) as [Hlt|Hge].
  - right. repeat split. rewrite length_append, length_substring0.
    rewrite Nat.min_l by lia. reflexivity.
  - left. repeat split. exact Hge.
Qed.

Lemma sanitizeBanner_printable (raw : string) :
  str_forall printable_char (sanitizeBanner raw) = true.
Proof.
  destruct (sanitizeBanner_cases raw) as [(_ & -> & _)|(_ & -> & _)].
  - apply trimmed_printable.
  - rewrite str_forall_append, str_forall_substring0 by apply trimmed_printable.
    reflexivity.
Qed.

Lemma sanitizeBanner_no_outer_space (raw : string) :
  firstSatisfies asciiSpace (sanitizeBanner raw) = false
  /\ lastSatisfies asciiSpace (sanitizeBanner raw) = false.
Proof.
  destruct (TrimSpace_trimmed (writePrintable (runes (firstLine raw)))) as [Hf Hl].
  fold (trimmed raw) in Hf, Hl.
  destruct (sanitizeBanner_cases raw) as [(_ & -> & _)|(Ht & -> & _)].
  - now split.
  - split.
    { rewrite firstSatisfies_substring0; [exact Hf|].
      unfold truncated in Ht. apply Nat.ltb_lt in Ht. lia. }
    change "..." with (".." ++ String "." "")%string.
    rewrite <- string_append_assoc. apply lastSatisfies_append_char.
Qed.

End Banner.

(* ================================================================== *)
(** * probe: NBSTAT response parser *)
(* ================================================================== *)

Module Nbstat.
Import Go GoStrings.

(** [int(data[pos])]. *)
Definition byte_at (data : list byte) (pos : nat) : run nat :=
  b <- index data pos ;; Ret (Byte.to_nat b).

(** The label walk
    [for pos < len(data) && data[pos] != 0x00 { pos += int(data[pos]) + 1 }],
    returning the final [pos]. *)
Fixpoint skipLabels (fuel : nat) (data : list byte) (pos : nat) : run nat :=
  match fuel with
  | O => OutOfFuel
  | S f =>
      if (pos <? length data)%nat then
        labelLen <- byte_at data pos ;;
        if (labelLen =? 0)%nat then Ret pos
        else skipLabels f data (pos + (labelLen + 1))
      else Ret pos
  end.

(** The cutset [" \x00"] of the name trimming. *)
Definition name_cutset : string := String " " (String NUL "").

(** The loop over the name entries, [n] being the iterations left
    ([numNames - i]). *)
Fixpoint scanNames (n : nat) (data : list byte) (pos : nat) : run string :=
  match n with
  | O => Ret ""
  | S n' =>
      if (pos + 18 <=? length data)%nat then
        raw <- slice data pos (pos + 15) ;;
        let name := TrimRight (string_of_list_byte raw) name_cutset in
        suffix <- index data (pos + 15) ;;
        hi <- index data (pos + 16) ;;
        lo <- index data (pos + 17) ;;
        let flags := Z.lor (Z.shiftl (byte_val hi) 8 mod 65536) (byte_val lo) in
        let isGroup := negb (Z.land flags 0x8000 =? 0)%Z in
        let pos := (pos + 18)%nat in
        if Byte.eqb suffix x00 && negb isGroup && negb (String.eqb name "")
        then Ret name
        else scanNames n' data pos
      else Ret ""
  end.

Definition parseNBSTATResponse (data : list byte) : run string :=
  if (length data <? 57)%nat then Ret ""
  else
    let fuel := S (length data) in
    pos <- skipLabels fuel data 12 ;;
    let pos := (pos + 1)%nat in
    let pos := (pos + 4)%nat in
    if (length data <=? pos)%nat then Ret ""
    else
      b <- index data pos ;;
      pos <- (if (Z.land (byte_val b) 0xC0 =? 0xC0)%Z
              then Ret (pos + 2)%nat
              else p <- skipLabels fuel data pos ;; Ret (p + 1)%nat) ;;
      let pos := (pos + 10)%nat in
      if (length data <=? pos)%nat then Ret ""
      else
        numNames <- byte_at data pos ;;
        let pos := (pos + 1)%nat in
        if (numNames =? 0)%nat || (length data <? pos + 18)%nat then Ret ""
        else scanNames numNames data pos.

(** ** The response format in the words of the protocol description *)

(** One 18-byte entry of the name table. *)
Record NameEntry : Type := mkNameEntry {
  ne_name : list byte;   (* 15 bytes *)
  ne_suffix : byte;
  ne_flags : Z           (* 16 bits, big endian *)
}.

Definition entry_at (data : list byte) (off : nat) : option NameEntry :=
  if (off + 18 <=? length data)%nat then
    Some (mkNameEntry (firstn 15 (skipn off data))
                      (nth (off + 15) data x00)
                      (byte_val (nth (off + 16) data x00) * 256
                       + byte_val (nth (off + 17) data x00)))
  else None.

(** The entries [0 .. n-1] of the table at [off], as far as the buffer
    holds them whole. *)
Fixpoint entries (n : nat) (data : list byte) (off : nat) : list NameEntry :=
  match n with
  | O => []
  | S n' =>
      match entry_at data off with
      | Some e => e :: entries n' data (off + 18)
      | None => []
      end
  end.

Definition trimmed_name (e : NameEntry) : string :=
  TrimRight (string_of_list_byte (ne_name e)) name_cutset.

(** Suffix 0x00, group flag (bit 15) clear, trimmed name not empty. *)
Definition unique_workstation (e : NameEntry) : bool :=
  Byte.eqb (ne_suffix e) x00
  && negb (Z.testbit (ne_flags e) 15)
  && negb (String.eqb (trimmed_name e) "").

Definition first_unique_name (es : list NameEntry) : string :=
  match find unique_workstation es with
  | Some e => trimmed_name e
  | None => ""
  end.

(** Where the name table starts: the header walk of the description, as
    [(num_names, offset of the first entry)]; [None] when the buffer ends
    before the count is read. *)
Definition name_table (data : list byte) : run (option (nat * nat)) :=
  let fuel := S (length data) in
  q <- skipLabels fuel data 12 ;;                 (* question name *)
  let pos := (q + 1 + 4)%nat in                   (* terminator, type, class *)
  if (length data <=? pos)%nat then Ret None
  else
    b <- index data pos ;;
    a <- (if (Z.land (byte_val b) 0xC0 =? 0xC0)%Z   (* answer name *)
          then Ret (pos + 2)%nat
          else p <- skipLabels fuel data pos ;; Ret (p + 1)%nat) ;;
    let pos := (a + 10)%nat in                    (* type, class, TTL, rdlen *)
    if (length data <=? pos)%nat then Ret None
    else
      n <- byte_at data pos ;;
      Ret (Some (n, pos + 1)%nat).

(** A canned reply: header, echoed question name, compressed answer
    name, two name entries. *)
Definition encoded_wildcard : list byte :=
  [x20; x43; x4b] ++ concat (repeat [x43; x41] 15) ++ [x00].

Definition canned_response : list byte :=
  [x00; x01; x84; x00; x00; x00; x00; x01; x00; x00; x00; x00]
  ++ encoded_wildcard ++ [x00; x21; x00; x01]
  ++ [xc0; x0c] ++ [x00; x21; x00; x01; x00; x00; x00; x00; x00; x41]
  ++ [x02]
  ++ list_byte_of_string "WORKGROUP      " ++ [x1e; x84; x00]
  ++ list_byte_of_string "WORKSTATION    " ++ [x00; x04; x00].

(** ** Facts *)

Lemma byte_at_in_range (data : list byte) (i : nat) :
  (i < length data)%nat -> byte_at data i = Ret (Byte.to_nat (nth i data x00)).
Proof.
  intros H. unfold byte_at. now rewrite index_in_range.
Qed.

(** The label walk neither faults nor runs out of fuel, and never moves
    backwards. *)
Lemma skipLabels_total (data : list byte) :
  forall fuel pos,
    (length data - pos < fuel)%nat ->
    exists p, skipLabels fuel data pos = Ret p /\ (pos <= p)%nat.
Proof.
  induction fuel as [|f IH]; intros pos Hf; [lia|].
  simpl. destruct (Nat.ltb_spec pos (length data)) as [Hlt|Hge].
  - rewrite byte_at_in_range by exact Hlt. simpl.
    destruct (Nat.eqb_spec (Byte.to_nat (nth pos data x00)) 0) as [Hz|Hnz].
    + exists pos. split; [reflexivity | lia].
    + destruct (IH (pos + (Byte.to_nat (nth pos data x00) + 1))%nat) as [p [Hp Hle]];
        [lia|].
      exists p. split; [exact Hp | lia].
  - exists pos. split; [reflexivity | lia].
Qed.

Lemma scanNames_entries (data : list byte) :
  forall n pos,
    scanNames n data pos = Ret (first_unique_name (entries n data pos)).
Proof.
  induction n as [|n IH]; intros pos; [reflexivity|].
  cbn [scanNames entries]. unfold entry_at.
  destruct (Nat.leb_spec (pos + 18) (length data)) as [Hin|Hout]; [|reflexivity].
  rewrite slice_in_range by lia.
  rewrite !index_in_range by lia. cbn [bind].
  rewrite flags_value, land_bit15, negb_involutive, IH.
  unfold first_unique_name. cbn [find].
  unfold unique_workstation, trimmed_name. cbn [ne_name ne_suffix ne_flags].
  destruct (_ && _ && _); reflexivity.
Qed.

Lemma name_table_total (data : list byte) :
  (57 <= length data)%nat -> exists t, name_table data = Ret t.
Proof.
  intros Hlen. unfold name_table.
  destruct (skipLabels_total data (S (length data)) 12 ltac:(lia)) as [q [-> Hq]].
  cbn [bind].
  destruct (Nat.leb_spec (length data) (q + 1 + 4)) as [|Hin]; [eauto|].
  rewrite index_in_range by lia. cbn [bind].
  destruct (Z.land _ _ =? _)%Z; cbn [bind].
  - destruct (Nat.leb_spec (length data) (q + 1 + 4 + 2 + 10)) as [|Hin2]; [eauto|].
    rewrite byte_at_in_range by lia. cbn [bind]. eauto.
  - destruct (skipLabels_total data (S (length data)) (q + 1 + 4)%nat ltac:(lia))
      as [p [-> Hp]].
    cbn [bind].
    destruct (Nat.leb_spec (length data) (p + 1 + 10)) as [|Hin2]; [eauto|].
    rewrite byte_at_in_range by lia. cbn [bind]. eauto.
Qed.

(** The parser is the header walk followed by the search of the table. *)
Lemma parse_by_table (data : list byte) :
  (57 <= length data)%nat ->
  parseNBSTATResponse data =
  (t <- name_table data ;;
   match t with
   | None => Ret ""
   | Some (n, off) => Ret (first_unique_name (entries n data off))
   end).
Proof.
  intros Hlen. unfold parseNBSTATResponse, name_table.
  replace (length data <? 57)%nat with false by (symmetry; apply Nat.ltb_ge; lia).
  destruct (skipLabels_total data (S (length data)) 12 ltac:(lia)) as [q [-> Hq]].
  cbn [bind].
  destruct (Nat.leb_spec (length data) (q + 1 + 4)) as [|Hin]; [reflexivity|].
  rewrite index_in_range by lia. cbn [bind].
  assert (Htail : forall a,
    (if (length data <=? a + 10)%nat then Ret ""
     else numNames <- byte_at data (a + 10) ;;
          if (numNames =? 0)%nat || (length data <? a + 10 + 1 + 18)%nat then Ret ""
          else scanNames numNames data (a + 10 + 1))
    = (t <- (if (length data <=? a + 10)%nat then Ret None
             else n <- byte_at data (a + 10) ;; Ret (Some (n, (a + 10 + 1)%nat))) ;;
       match t with
       | None => Ret ""
       | Some (n, off) => Ret (first_unique_name (entries n data off))
       end)).
  { intros a. destruct (Nat.leb_spec (length data) (a + 10)) as [|Hin2]; [reflexivity|].
    rewrite byte_at_in_range by lia. cbn [bind].
    destruct (Nat.eqb_spec (Byte.to_nat (nth (a + 10) data x00)) 0) as [->|Hn];
      [reflexivity|].
    cbn [orb]. rewrite scanNames_entries.
    destruct (Nat.ltb_spec (length data) (a + 10 + 1 + 18)) as [Hout|]; [|reflexivity].
    destruct (Byte.to_nat (nth (a + 10) data x00)) as [|k]; [reflexivity|].
    cbn [entries]. unfold entry_at.
    replace (a + 10 + 1 + 18 <=? length data)%nat with false
      by (symmetry; apply Nat.leb_gt; lia).
    reflexivity. }
  destruct (Z.land _ _ =? _)%Z; cbn [bind].
  - apply Htail.
  - destruct (skipLabels_total data (S (length data)) (q + 1 + 4)%nat ltac:(lia))
      as [p [-> Hp]].
    cbn [bind]. apply Htail.
Qed.

End Nbstat.

(* ================================================================== *)
(** * probe: device-type fingerprint (fingerprint.go) *)
(* ================================================================== *)

Module Fingerprinting.
Import GoStrings.

Definition TypeRouter : string := "Router/Gateway".
Definition TypeSwitch : string := "Network Switch".
Definition TypeAP : string := "Access Point".
Definition TypePrinter : string := "Printer".
Definition TypeNAS : string := "NAS/Storage".
Definition TypeCamera : string := "IP Camera".
Definition TypeSmartTV : string := "Smart TV".
Definition TypePhone : string := "Phone/Tablet".
Definition TypeDesktop : string := "Desktop/Laptop".
Definition TypeServer : string := "Server".
Definition TypeIoT : string := "IoT Device".
Definition TypeSmartHome : string := "Smart Home".
Definition TypeGameConsole : string := "Game Console".
Definition TypeUnknown : string := "Unknown".

(** [flattenMap]: the entries [k+" "+v] in the order of the [range],
    joined by a space. *)
Definition flattenMap (m : list (string * string)) : string :=
  if (length m =? 0)%nat then ""
  else Join (map (fun kv => (fst kv ++ " " ++ snd kv)%string) m) " ".

Definition flattenBanners (m : list (Z * string)) : string :=
  if (length m =? 0)%nat then ""
  else Join (map snd m) " ".

(** One row of a rule table. *)
Record rule : Type := mkRule { keywords : list string; dtype : string }.

(** The two nested loops over a rule table: the type of the first rule
    one of whose keywords occurs in [text]. *)
Fixpoint matchRules (rules : list rule) (text : string) : string :=
  match rules with
  | [] => ""
  | r :: rest =>
      if existsb (Contains text) (keywords r) then dtype r
      else matchRules rest text
  end.

Definition manufacturerRules : list rule :=
  [ mkRule ["apple"; "samsung"; "huawei"; "xiaomi"; "oppo"; "vivo"; "oneplus";
            "motorola"; "nokia"; "sony mobile"; "google"; "pixel"] TypePhone;
    mkRule ["canon"; "epson"; "brother"; "lexmark"; "xerox"; "ricoh";
            "kyocera"; "konica"] TypePrinter;
    mkRule ["cisco"; "juniper"; "arista"; "ubiquiti"; "mikrotik"; "netgear";
            "tp-link"; "d-link"; "linksys"; "zyxel"; "zte"] TypeRouter;
    mkRule ["synology"; "qnap"; "western digital"; "buffalo"; "seagate"] TypeNAS;
    mkRule ["lg electronics"; "tcl"; "hisense"; "vizio"; "roku"] TypeSmartTV;
    mkRule ["nintendo"; "valve"] TypeGameConsole;
    mkRule ["espressif"; "tuya"; "shelly"; "sonoff"; "wemo"; "ring";
            "nest"; "amazon"; "echo"] TypeSmartHome;
    mkRule ["dell"; "lenovo"; "hewlett"; "hp inc"; "acer"; "intel";
            "realtek"; "gigabyte"; "msi"; "asustek"] TypeDesktop;
    mkRule ["hikvision"; "dahua"; "axis"; "reolink"; "amcrest"; "wyze"] TypeCamera ].

Definition fingerprintByManufacturer (mfr : string) : string :=
  if String.eqb mfr "" then "" else matchRules manufacturerRules mfr.

Definition serviceRules : list rule :=
  [ mkRule ["printer"; "_ipp."; "_pdl-"] TypePrinter;
    mkRule ["chromecast"; "googlecast"; "smarttv"; "roku"; "airplay"; "_raop."]
           TypeSmartTV;
    mkRule ["camera"; "ipcam"] TypeCamera;
    mkRule ["_smb."; "_afp."; "timemachine"] TypeNAS;
    mkRule ["homekit"; "_hap."] TypeSmartHome;
    mkRule ["playstation"; "xbox"; "nintendo"] TypeGameConsole ].

Definition fingerprintByServices (extra : string) : string :=
  if String.eqb extra "" then "" else matchRules serviceRules extra.

(** [portSet := make(map[int]bool)] after the loop [portSet[p] = true];
    reading a missing key yields [false]. *)
Definition portSet (ports : list Z) : Z -> bool :=
  fold_left (fun (m : Z -> bool) (p : Z) => fun k => if (k =? p)%Z then true else m k)
            ports (fun _ => false).

Section WithCaseTables.
Variable mapUnicodeLower : string -> string.

Definition fingerprintByPorts (ports : list Z) (banners : list (Z * string))
           (httpServer : string) : string :=
  let portSet := portSet ports in
  if portSet 9100%Z || portSet 631%Z then TypePrinter
  else if portSet 554%Z then TypeCamera
  else if portSet 53%Z || portSet 67%Z || portSet 68%Z then TypeRouter
  else if portSet 139%Z && portSet 445%Z && (portSet 80%Z || portSet 443%Z) then TypeNAS
  else if portSet 22%Z && (portSet 80%Z || portSet 443%Z)
          && (portSet 3306%Z || portSet 5432%Z || portSet 27017%Z
              || portSet 9200%Z || portSet 6379%Z)
  then TypeServer
  else if negb (String.eqb httpServer "")
          && (Contains httpServer "printer" || Contains httpServer "cups")
  then TypePrinter
  else
    let allBanners := ToLower mapUnicodeLower (flattenBanners banners) in
    if Contains allBanners "ssh" then TypeDesktop else "".

Definition Fingerprint (mac manufacturer : string) (openPorts : list Z)
           (banners : list (Z * string)) (netbiosName httpServer : string)
           (extraData : list (string * string)) : string :=
  let mfr := ToLower mapUnicodeLower manufacturer in
  let srv := ToLower mapUnicodeLower httpServer in
  let allExtra := ToLower mapUnicodeLower (flattenMap extraData) in
  let t := fingerprintByManufacturer mfr in
  if negb (String.eqb t "") then t
  else
    let t := fingerprintByServices allExtra in
    if negb (String.eqb t "") then t
    else
      let t := fingerprintByPorts openPorts banners srv in
      if negb (String.eqb t "") then t
      else TypeUnknown.

End WithCaseTables.

(** The first non-empty verdict of a list, [""] when there is none. *)
Fixpoint first_nonempty (verdicts : list string) : string :=
  match verdicts with
  | [] => ""
  | v :: rest => if String.eqb v "" then first_nonempty rest else v
  end.

Definition all_keywords (rules : list rule) : list string :=
  flat_map keywords rules.

(** ** Facts *)

Lemma portSet_fold (ports : list Z) :
  forall (m : Z -> bool) k,
    fold_left (fun (m : Z -> bool) (p : Z) => fun k => if (k =? p)%Z then true else m k)
              ports m k
    = existsb (Z.eqb k) ports || m k.
Proof.
  induction ports as [|p ports IH]; intros m k; cbn; [reflexivity|].
  rewrite IH. destruct (k =? p)%Z; cbn; [now rewrite orb_true_r | reflexivity].
Qed.

(** A port is in the set exactly when it is in the list. *)
Lemma portSet_spec (ports : list Z) (k : Z) :
  portSet ports k = existsb (Z.eqb k) ports.
Proof. unfold portSet. now rewrite portSet_fold, orb_false_r. Qed.

Lemma portSet_true_iff (ports : list Z) (k : Z) :
  portSet ports k = true <-> In k ports.
Proof.
  rewrite portSet_spec, existsb_exists. split.
  - intros [x [Hin Hx]]. apply Z.eqb_eq in Hx. now subst.
  - intros H. exists k. split; [exact H | apply Z.eqb_refl].
Qed.

(** A rule table sees a text only through the keywords it contains. *)
Lemma matchRules_ext (rules : list rule) (t t' : string) :
  (forall kw, In kw (all_keywords rules) -> Contains t kw = Contains t' kw) ->
  matchRules rules t = matchRules rules t'.
Proof.
  induction rules as [|r rules IH]; intros H; cbn; [reflexivity|].
  assert (He : existsb (Contains t) (keywords r) = existsb (Contains t') (keywords r)).
  { assert (Hk : forall kw, In kw (keywords r) -> Contains t kw = Contains t' kw).
    { intros kw Hin. apply H. unfold all_keywords. cbn. apply in_or_app. now left. }
    induction (keywords r) as [|kw kws IHk]; cbn; [reflexivity|].
    rewrite (Hk kw) by now left. rewrite IHk; [reflexivity|].
    intros kw' Hin. apply Hk. now right. }
  rewrite He, IH; [reflexivity|].
  intros kw Hin. apply H. unfold all_keywords. cbn. apply in_or_app. now right.
Qed.

Lemma fingerprintByServices_rules (extra : string) :
  fingerprintByServices extra = matchRules serviceRules extra.
Proof.
  unfold fingerprintByServices.
  destruct (String.eqb_spec extra "") as [->|]; reflexivity.
Qed.

Lemma serviceRules_plain :
  forallb plain_keyword (all_keywords serviceRules) = true.
Proof. reflexivity. Qed.

Section Order.
Variable mapUnicodeLower : string -> string.
Hypothesis Hsplit : lower_splits_at_space mapUnicodeLower.

Lemma flattenMap_Join (m : list (string * string)) :
  flattenMap m = Join (map (fun kv => (fst kv ++ " " ++ snd kv)%string) m) " ".
Proof. destruct m; reflexivity. Qed.

Lemma flattenBanners_Join (m : list (Z * string)) :
  flattenBanners m = Join (map snd m) " ".
Proof. destruct m; reflexivity. Qed.

Lemma services_order (extra extra' : list (string * string)) :
  Permutation extra extra' ->
  fingerprintByServices (ToLower mapUnicodeLower (flattenMap extra))
  = fingerprintByServices (ToLower mapUnicodeLower (flattenMap extra')).
Proof.
  intros Hp. rewrite !fingerprintByServices_rules, !flattenMap_Join.
  apply matchRules_ext. intros kw Hin.
  apply (Contains_lower_Join_perm mapUnicodeLower Hsplit).
  - pose proof serviceRules_plain as H. rewrite forallb_forall in H. now apply H.
  - now apply Permutation_map.
Qed.

Lemma ports_order (ports : list Z) (banners banners' : list (Z * string))
      (srv : string) :
  Permutation banners banners' ->
  fingerprintByPorts mapUnicodeLower ports banners srv
  = fingerprintByPorts mapUnicodeLower ports banners' srv.
Proof.
  intros Hp. unfold fingerprintByPorts.
  rewrite !flattenBanners_Join.
  rewrite (Contains_lower_Join_perm mapUnicodeLower Hsplit "ssh"
             (map snd banners) (map snd banners') eq_refl (Permutation_map snd Hp)).
  reflexivity.
Qed.

(** The device type does not depend on the order in which the two maps
    are enumerated. *)
Lemma Fingerprint_order (mac manufacturer : string) (ports : list Z)
      (banners banners' : list (Z * string)) (netbios srv : string)
      (extra extra' : list (string * string)) :
  Permutation banners banners' ->
  Permutation extra extra' ->
  Fingerprint mapUnicodeLower mac manufacturer ports banners netbios srv extra
  = Fingerprint mapUnicodeLower mac manufacturer ports banners' netbios srv extra'.
Proof.
  intros Hb He. unfold Fingerprint.
  now rewrite (services_order extra extra' He), (ports_order ports banners banners' _ Hb).
Qed.

End Order.

(** The three stages in their fixed precedence. *)
Lemma Fingerprint_stages (lower : string -> string) (mac manufacturer : string)
      (ports : list Z) (banners : list (Z * string)) (netbios srv : string)
      (extra : list (string * string)) :
  Fingerprint lower mac manufacturer ports banners netbios srv extra =
  let verdict := first_nonempty
    [ fingerprintByManufacturer (ToLower lower manufacturer);
      fingerprintByServices (ToLower lower (flattenMap extra));
      fingerprintByPorts lower ports banners (ToLower lower srv) ] in
  if String.eqb verdict "" then TypeUnknown else verdict.
Proof.
  unfold Fingerprint. cbn [first_nonempty].
  destruct (String.eqb_spec (fingerprintByManufacturer (ToLower lower manufacturer)) "")
    as [->|H1]; cbn [negb].
  - destruct (String.eqb_spec (fingerprintByServices (ToLower lower (flattenMap extra))) "")
      as [->|H2]; cbn [negb].
    + destruct (String.eqb_spec (fingerprintByPorts lower ports banners (ToLower lower srv)) "")
        as [->|H3]; cbn [negb]; [reflexivity|].
      apply String.eqb_neq in H3. now rewrite H3.
    + apply String.eqb_neq in H2. now rewrite H2.
  - apply String.eqb_neq in H1. now rewrite H1.
Qed.

Lemma first_nonempty_one (x : string) : first_nonempty [x] = x.
Proof. cbn. destruct (String.eqb_spec x "") as [E|E]; [now rewrite E | reflexivity]. Qed.

Lemma first_nonempty_cons2 (x y : string) (rest : list string) :
  first_nonempty (first_nonempty [x; y] :: rest) = first_nonempty (x :: y :: rest).
Proof.
  cbn. destruct (String.eqb x "") eqn:Ex.
  - destruct (String.eqb y "") eqn:Ey; cbn; [reflexivity | now rewrite Ey].
  - now rewrite Ex.
Qed.

End Fingerprinting.

(* ================================================================== *)
(** * probe: operating-system detection (os_detect.go) *)
(* ================================================================== *)

Module OsDetect.
Import GoStrings Fingerprinting.

Definition OSWindows : string := "Windows".
Definition OSLinux : string := "Linux".
Definition OSMacOS : string := "macOS".
Definition OSFreeBSD : string := "FreeBSD".
Definition OSAndroid : string := "Android".
Definition OSIOS : string := "iOS".
Definition OSUnknown : string := "".

(** [banners[port]]: the value and whether the key is present. *)
Fixpoint lookup (m : list (Z * string)) (port : Z) : option string :=
  match m with
  | [] => None
  | (k, v) :: rest => if (k =? port)%Z then Some v else lookup rest port
  end.

(** What the network and the context answer while the TTL is sampled;
    [k] counts the iterations of the sampling loop.
    - [ctx_done k]: the context is already cancelled at iteration [k];
    - [sock_ttl k ip port]: the IP_TTL read from a TCP connection to
      [ip:port], [None] when the dial or a socket call fails. *)
Record TTLEnv : Type := mkTTLEnv {
  ctx_done : nat -> bool;
  sock_ttl : nat -> string -> Z -> option Z
}.

Definition getTTL (env : TTLEnv) (k : nat) (ip : string) (port : Z) : Z :=
  match sock_ttl env k ip port with
  | Some ttl => ttl
  | None => (-1)%Z
  end.

Definition classifyTTL (ttl : Z) : string :=
  if (ttl <=? 0)%Z then ""
  else if (ttl <=? 64)%Z then OSLinux
  else if (ttl <=? 128)%Z then OSWindows
  else OSLinux.

(** The inner loop that appends a fallback port unless it is there. *)
Definition addFallback (ports : list Z) (p : Z) : list Z :=
  if existsb (fun kp => (kp =? p)%Z) ports then ports else ports ++ [p].

(** The sampling loop: the verdict and the ports that were dialled. *)
Fixpoint ttlLoop (env : TTLEnv) (ip : string) (ports : list Z) (k : nat)
  : string * list Z :=
  match ports with
  | [] => ("", [])
  | port :: rest =>
      if ctx_done env k then ("", [])
      else
        let ttl := getTTL env k ip port in
        if (ttl <=? 0)%Z then
          let '(os, dialled) := ttlLoop env ip rest (S k) in (os, port :: dialled)
        else (classifyTTL ttl, [port])
  end.

Definition osFromTTL (env : TTLEnv) (ip : string) (knownPorts : list Z)
  : string * list Z :=
  let ports := fold_left addFallback [80; 443; 22]%Z knownPorts in
  ttlLoop env ip ports 0.

Definition osFromPorts (ports : list Z) : string :=
  let portSet := Fingerprinting.portSet ports in
  if portSet 3389%Z || (portSet 445%Z && portSet 5985%Z) then OSWindows
  else if portSet 548%Z then OSMacOS
  else "".

Definition linuxHints : list string :=
  ["ubuntu"; "debian"; "fedora"; "centos"; "rhel";
   "arch"; "gentoo"; "opensuse"; "suse"; "alpine"; "kali"; "mint";
   "manjaro"; "raspbian"; "raspberry"; "armbian"].

Section WithCaseTables.
Variable mapUnicodeLower : string -> string.

Definition osFromSSHBanner (banners : list (Z * string)) : string :=
  match lookup banners 22 with
  | None => ""
  | Some banner =>
      if String.eqb banner "" then ""
      else
        let b := ToLower mapUnicodeLower banner in
        if existsb (Contains b) linuxHints then OSLinux
        else if Contains b "freebsd" then OSFreeBSD
        else if Contains b "microsoft" || Contains b "windows" then OSWindows
        else if Contains b "openssh" then OSLinux
        else ""
  end.

Definition osFromHTTPServer (server : string) : string :=
  if String.eqb server "" then ""
  else
    let s := ToLower mapUnicodeLower server in
    if Contains s "microsoft" || Contains s "iis" then OSWindows
    else if Contains s "ubuntu" || Contains s "debian" || Contains s "centos"
            || Contains s "fedora" || Contains s "red hat" then OSLinux
    else if Contains s "darwin" || Contains s "macos" then OSMacOS
    else if Contains s "freebsd" then OSFreeBSD
    else "".

(** The verdict of one banner inside the loop of [osFromBanners]; [""]
    lets the loop go on. *)
Definition bannerVerdict (banner : string) : string :=
  let b := ToLower mapUnicodeLower banner in
  if Contains b "windows" || Contains b "microsoft" || Contains b "win32"
     || Contains b "win64" then OSWindows
  else if Contains b "ubuntu" || Contains b "debian" || Contains b "centos"
          || Contains b "fedora" || Contains b "linux" then OSLinux
  else if Contains b "darwin" || Contains b "macos" || Contains b "mac os" then OSMacOS
  else if Contains b "freebsd" then OSFreeBSD
  else "".

Fixpoint osFromBanners (banners : list (Z * string)) : string :=
  match banners with
  | [] => ""
  | (port, banner) :: rest =>
      if (port =? 22)%Z then osFromBanners rest
      else
        let os := bannerVerdict banner in
        if negb (String.eqb os "") then os else osFromBanners rest
  end.

Definition osFromExtraData (extra : list (string * string)) : string :=
  if (length extra =? 0)%nat then ""
  else
    let combined := ToLower mapUnicodeLower (Fingerprinting.flattenMap extra) in
    if Contains combined "iphone" || Contains combined "ipad"
       || Contains combined "ipod" then OSIOS
    else if Contains combined "apple" || Contains combined "airplay"
            || Contains combined "_companion-link" || Contains combined "macos"
            || Contains combined "mac os" then OSMacOS
    else if Contains combined "android" then OSAndroid
    else if Contains combined "windows" || Contains combined "microsoft" then OSWindows
    else if Contains combined "linux" || Contains combined "ubuntu"
            || Contains combined "debian" || Contains combined "fedora" then OSLinux
    else "".

(** [DetectOS]: the verdict, and the ports dialled for the TTL. *)
Definition DetectOS (env : TTLEnv) (ip : string) (openPorts : list Z)
           (banners : list (Z * string)) (httpServer netbiosName : string)
           (extraData : list (string * string)) : string * list Z :=
  let os := osFromSSHBanner banners in
  if negb (String.eqb os "") then (os, [])
  else
    let os := osFromHTTPServer httpServer in
    if negb (String.eqb os "") then (os, [])
    else
      let os := osFromBanners banners in
      if negb (String.eqb os "") then (os, [])
      else
        let os := osFromExtraData extraData in
        if negb (String.eqb os "") then (os, [])
        else if negb (String.eqb netbiosName "") then (OSWindows, [])
        else
          let '(os, dialled) := osFromTTL env ip openPorts in
          if negb (String.eqb os "") then (os, dialled)
          else
            let os := osFromPorts openPorts in
            if negb (String.eqb os "") then (os, dialled)
            else (OSUnknown, dialled).

End WithCaseTables.

(** The fifth signal: a NetBIOS name is there. *)
Definition netbiosVerdict (netbiosName : string) : string :=
  if String.eqb netbiosName "" then "" else OSWindows.

(** The seven signals in the order of the source. *)
Definition signals (lower : string -> string) (env : TTLEnv) (ip : string)
           (openPorts : list Z) (banners : list (Z * string))
           (httpServer netbiosName : string)
           (extraData : list (string * string)) : list string :=
  [ osFromSSHBanner lower banners;
    osFromHTTPServer lower httpServer;
    osFromBanners lower banners;
    osFromExtraData lower extraData;
    netbiosVerdict netbiosName;
    fst (osFromTTL env ip openPorts);
    osFromPorts openPorts ].

(** ** Facts *)

Lemma lookup_In (m : list (Z * string)) (k : Z) (v : string) :
  NoDup (map fst m) -> (lookup m k = Some v <-> In (k, v) m).
Proof.
  induction m as [|[k0 v0] m IH]; intros Hnd; cbn.
  - split; [discriminate | tauto].
  - inversion Hnd as [|? ? Hnotin Hnd']; subst.
    destruct (Z.eqb_spec k0 k) as [->|Hne].
    + split.
      * intros [= ->]. now left.
      * intros [[= ->]|Hin]; [reflexivity|].
        exfalso. apply Hnotin. change k with (fst (k, v)). now apply in_map.
    + rewrite (IH Hnd'). split; [tauto|].
      intros [[= -> _]|Hin]; [contradiction | exact Hin].
Qed.

(** Reading a key does not depend on the order of enumeration. *)
Lemma lookup_order (m m' : list (Z * string)) (k : Z) :
  NoDup (map fst m) -> Permutation m m' -> lookup m k = lookup m' k.
Proof.
  intros Hnd Hp.
  assert (Hnd' : NoDup (map fst m')).
  { eapply Permutation_NoDup; [apply Permutation_map, Hp | exact Hnd]. }
  destruct (lookup m k) as [v|] eqn:E.
  - symmetry. apply lookup_In; [exact Hnd'|].
    eapply Permutation_in; [exact Hp|]. now apply lookup_In.
  - destruct (lookup m' k) as [v'|] eqn:E'; [|reflexivity].
    apply lookup_In in E'; [|exact Hnd'].
    apply (Permutation_in _ (Permutation_sym Hp)) in E'.
    apply lookup_In in E'; [congruence | exact Hnd].
Qed.

Section Order.
Variable lower : string -> string.

Lemma DetectOS_first_signal env ip ports banners srv nb extra :
  fst (DetectOS lower env ip ports banners srv nb extra)
  = first_nonempty (signals lower env ip ports banners srv nb extra).
Proof.
  unfold DetectOS, signals, netbiosVerdict. cbn [first_nonempty].
  destruct (String.eqb (osFromSSHBanner lower banners) ""); cbn [negb fst]; [|reflexivity].
  destruct (String.eqb (osFromHTTPServer lower srv) ""); cbn [negb fst]; [|reflexivity].
  destruct (String.eqb (osFromBanners lower banners) ""); cbn [negb fst]; [|reflexivity].
  destruct (String.eqb (osFromExtraData lower extra) ""); cbn [negb fst]; [|reflexivity].
  destruct (String.eqb nb ""); cbn [negb fst]; [|reflexivity].
  destruct (osFromTTL env ip ports) as [os dialled]. cbn [fst].
  destruct (String.eqb os ""); cbn [negb fst]; [|reflexivity].
  destruct (String.eqb (osFromPorts ports) ""); reflexivity.
Qed.

(** The TTL is sampled only when the five signals before it are empty. *)
Lemma DetectOS_lazy env ip ports banners srv nb extra :
  first_nonempty (firstn 5 (signals lower env ip ports banners srv nb extra)) <> "" ->
  snd (DetectOS lower env ip ports banners srv nb extra) = [].
Proof.
  unfold DetectOS, signals, netbiosVerdict. cbn [first_nonempty firstn].
  destruct (String.eqb (osFromSSHBanner lower banners) ""); cbn [negb snd]; [|reflexivity].
  destruct (String.eqb (osFromHTTPServer lower srv) ""); cbn [negb snd]; [|reflexivity].
  destruct (String.eqb (osFromBanners lower banners) ""); cbn [negb snd]; [|reflexivity].
  destruct (String.eqb (osFromExtraData lower extra) ""); cbn [negb snd]; [|reflexivity].
  destruct (String.eqb nb ""); cbn [negb snd]; [|reflexivity].
  intros H. now contradiction H.
Qed.

Lemma DetectOS_ssh env ip ports banners srv nb extra :
  osFromSSHBanner lower banners <> "" ->
  DetectOS lower env ip ports banners srv nb extra = (osFromSSHBanner lower banners, []).
Proof.
  intros H. unfold DetectOS. apply String.eqb_neq in H. now rewrite H.
Qed.

Lemma DetectOS_http env ip ports banners srv nb extra :
  osFromSSHBanner lower banners = "" ->
  osFromHTTPServer lower srv <> "" ->
  DetectOS lower env ip ports banners srv nb extra = (osFromHTTPServer lower srv, []).
Proof.
  intros H1 H2. unfold DetectOS. rewrite H1. cbn.
  apply String.eqb_neq in H2. now rewrite H2.
Qed.

Lemma osFromSSHBanner_order (banners banners' : list (Z * string)) :
  NoDup (map fst banners) -> Permutation banners banners' ->
  osFromSSHBanner lower banners = osFromSSHBanner lower banners'.
Proof.
  intros Hnd Hp. unfold osFromSSHBanner. now rewrite (lookup_order _ _ 22%Z Hnd Hp).
Qed.

End Order.

Lemma classifyTTL_ranges (ttl : Z) :
  ((ttl <= 0)%Z -> classifyTTL ttl = "") /\
  ((1 <= ttl <= 64)%Z -> classifyTTL ttl = OSLinux) /\
  ((65 <= ttl <= 128)%Z -> classifyTTL ttl = OSWindows) /\
  ((129 <= ttl)%Z -> classifyTTL ttl = OSLinux).
Proof.
  unfold classifyTTL.
  destruct (Z.leb_spec ttl 0), (Z.leb_spec ttl 64), (Z.leb_spec ttl 128);
    repeat split; intros; try reflexivity; lia.
Qed.

End OsDetect.

(* ================================================================== *)
(** * probe: the prober (RunAll) *)
(* ================================================================== *)

Module Prober.
Import GoStrings Fingerprinting.

Record Result : Type := mkResult {
  Latency : Z;
  ReverseDNS : string;
  Banners : list (Z * string);
  HTTPTitle : string;
  HTTPServer : string;
  DeviceType : string;
  NetBIOSName : string
}.

(** The sub-probes are the other functions of the package; each one
    talks to the network. [RunAll] sees their results only, so they are
    the operations of an environment over a state [W] of the world. *)
Record Probes (W : Type) : Type := mkProbes {
  probeReverseDNS : string -> W -> string * W;
  probeTCPPing : string -> list Z -> W -> Z * W;
  probeQueryNetBIOS : string -> W -> string * W;
  probeGrabBanner : string -> Z -> W -> string * W;
  probeFetchHTTPInfo : string -> Z -> W -> (string * string) * W
}.
Arguments probeReverseDNS {W}.
Arguments probeTCPPing {W}.
Arguments probeQueryNetBIOS {W}.
Arguments probeGrabBanner {W}.
Arguments probeFetchHTTPInfo {W}.

(** The calls made, with their results, oldest first. *)
Inductive ProbeEvent : Type :=
| EvReverseDNS (ip name : string)
| EvTCPPing (ip : string) (ports : list Z) (latency : Z)
| EvNetBIOS (ip name : string)
| EvGrabBanner (ip : string) (port : Z) (banner : string)
| EvFetchHTTP (ip : string) (port : Z) (title server : string).

(** State passing: the world and the trace so far. *)
Definition M (W A : Type) : Type := W * list ProbeEvent -> A * (W * list ProbeEvent).

Definition ret {W A} (a : A) : M W A := fun s => (a, s).

Definition mbind {W A B} (m : M W A) (k : A -> M W B) : M W B :=
  fun s => let '(a, s') := m s in k a s'.

Definition call {W A} (op : W -> A * W) (ev : A -> ProbeEvent) : M W A :=
  fun '(w, tr) => let '(a, w') := op w in (a, (w', tr ++ [ev a])).

Notation "x <~ m ;; k" := (mbind m (fun x => k))
  (at level 61, m at next level, right associativity).

Definition isHTTPPort (port : Z) : bool :=
  (port =? 80)%Z || (port =? 443)%Z || (port =? 8080)%Z || (port =? 8443)%Z
  || (port =? 9090)%Z.

(** [m[k] = v] on a map held as its list of entries. *)
Fixpoint mapSet (m : list (Z * string)) (k : Z) (v : string) : list (Z * string) :=
  match m with
  | [] => [(k, v)]
  | (k0, v0) :: rest =>
      if (k0 =? k)%Z then (k, v) :: rest else (k0, v0) :: mapSet rest k v
  end.

Definition setBanner (r : Result) (port : Z) (banner : string) : Result :=
  mkResult (Latency r) (ReverseDNS r) (mapSet (Banners r) port banner)
           (HTTPTitle r) (HTTPServer r) (DeviceType r) (NetBIOSName r).

Definition setHTTPTitle (r : Result) (title : string) : Result :=
  mkResult (Latency r) (ReverseDNS r) (Banners r) title (HTTPServer r)
           (DeviceType r) (NetBIOSName r).

Definition setHTTPServer (r : Result) (server : string) : Result :=
  mkResult (Latency r) (ReverseDNS r) (Banners r) (HTTPTitle r) server
           (DeviceType r) (NetBIOSName r).

Definition setDeviceType (r : Result) (t : string) : Result :=
  mkResult (Latency r) (ReverseDNS r) (Banners r) (HTTPTitle r) (HTTPServer r)
           t (NetBIOSName r).

(** The double quote that [fmt.Sprintf] puts on either side of the title. *)
Definition dquote : string := String (chr 34) "".

Section WithEnvironment.
Variable W : Type.
Variable env : Probes W.
Variable mapUnicodeLower : string -> string.

(** [select { case <-ctx.Done(): break; default: }]: the [break] leaves
    the [select], not the loop, so the statement does nothing. *)
Definition pollDone : M W unit := ret tt.

(** The first loop over the open ports. *)
Fixpoint bannerLoop (ip : string) (ports : list Z) (result : Result) : M W Result :=
  match ports with
  | [] => ret result
  | port :: rest =>
      _ <~ pollDone ;;
      if isHTTPPort port then bannerLoop ip rest result
      else
        banner <~ call (probeGrabBanner env ip port) (EvGrabBanner ip port) ;;
        let result :=
          if negb (String.eqb banner "") then setBanner result port banner
          else result in
        bannerLoop ip rest result
  end.

(** The composite banner of an HTTP port: the parts joined by [" | "]. *)
Definition compositeParts (title server : string) : list string :=
  let parts := [] in
  let parts := if negb (String.eqb server "") then parts ++ [server] else parts in
  if negb (String.eqb title "")
  then parts ++ [(dquote ++ title ++ dquote)%string]
  else parts.

(** What one iteration of the second loop does to [result] once the
    title and the server header of [port] are known. *)
Definition recordHTTP (result : Result) (port : Z) (title server : string) : Result :=
  let result :=
    if negb (String.eqb title "") && String.eqb (HTTPTitle result) ""
    then setHTTPTitle result title else result in
  let result :=
    if negb (String.eqb server "") && String.eqb (HTTPServer result) ""
    then setHTTPServer result server else result in
  let parts := compositeParts title server in
  if (0 <? length parts)%nat
  then setBanner result port (Join parts " | ") else result.

(** The second loop over the open ports. *)
Fixpoint httpLoop (ip : string) (ports : list Z) (result : Result) : M W Result :=
  match ports with
  | [] => ret result
  | port :: rest =>
      _ <~ pollDone ;;
      if negb (isHTTPPort port) then httpLoop ip rest result
      else
        ts <~ call (probeFetchHTTPInfo env ip port)
                   (fun ts => EvFetchHTTP ip port (fst ts) (snd ts)) ;;
        let '(title, server) := ts in
        httpLoop ip rest (recordHTTP result port title server)
  end.

(** [RunAll]. The banner map reaches [Fingerprint] as its entries in
    the order of insertion; by [Fingerprint_order] any other order of
    enumeration gives the same device type. *)
Definition RunAll (ip mac manufacturer : string) (openPorts : list Z)
           (extraData : list (string * string)) : M W Result :=
  rdns <~ call (probeReverseDNS env ip) (EvReverseDNS ip) ;;
  latency <~ call (probeTCPPing env ip openPorts) (EvTCPPing ip openPorts) ;;
  netbios <~ call (probeQueryNetBIOS env ip) (EvNetBIOS ip) ;;
  let result := mkResult latency rdns [] "" "" "" netbios in
  result <~ (if (0 <? length openPorts)%nat
             then result <~ bannerLoop ip openPorts result ;;
                  httpLoop ip openPorts result
             else ret result) ;;
  ret (setDeviceType result
         (Fingerprint mapUnicodeLower mac manufacturer openPorts (Banners result)
                      (NetBIOSName result) (HTTPServer result) extraData)).

End WithEnvironment.

(** ** Reading a trace *)

Definition grabbed (tr : list ProbeEvent) : list Z :=
  flat_map (fun ev => match ev with EvGrabBanner _ port _ => [port] | _ => [] end) tr.

(** The HTTP fetches of a trace: port, title, server. *)
Definition fetched (tr : list ProbeEvent) : list (Z * (string * string)) :=
  flat_map (fun ev => match ev with
                      | EvFetchHTTP _ port title server => [(port, (title, server))]
                      | _ => []
                      end) tr.

(** Ascending order of ports (insertion sort), for comparison. *)
Fixpoint insertPort (p : Z) (l : list Z) : list Z :=
  match l with
  | [] => [p]
  | q :: rest => if (p <=? q)%Z then p :: l else q :: insertPort p rest
  end.

Definition sortPorts (l : list Z) : list Z := fold_right insertPort [] l.

Definition titles (fs : list (Z * (string * string))) : list string :=
  map (fun f => fst (snd f)) fs.

Definition servers (fs : list (Z * (string * string))) : list string :=
  map (fun f => snd (snd f)) fs.

(** ** Facts *)

Lemma isHTTPPort_set (p : Z) :
  isHTTPPort p = true <-> In p [80; 443; 8080; 8443; 9090]%Z.
Proof.
  unfold isHTTPPort. rewrite !orb_true_iff, !Z.eqb_eq. cbn. intuition congruence.
Qed.

Lemma grabbed_app (a b : list ProbeEvent) : grabbed (a ++ b) = grabbed a ++ grabbed b.
Proof. apply flat_map_app. Qed.

Lemma fetched_app (a b : list ProbeEvent) : fetched (a ++ b) = fetched a ++ fetched b.
Proof. apply flat_map_app. Qed.

Lemma setBanner_title r p b : HTTPTitle (setBanner r p b) = HTTPTitle r.
Proof. reflexivity. Qed.

Lemma setBanner_server r p b : HTTPServer (setBanner r p b) = HTTPServer r.
Proof. reflexivity. Qed.

Lemma recordHTTP_title r port title server :
  HTTPTitle (recordHTTP r port title server) = first_nonempty [HTTPTitle r; title].
Proof.
  rewrite <- (first_nonempty_one title) at 2. cbn [first_nonempty].
  unfold recordHTTP.
  destruct (0 <? length (compositeParts title server))%nat; rewrite ?setBanner_title;
    destruct (String.eqb title "") eqn:Et, (String.eqb (HTTPTitle r) "") eqn:Er;
    cbn [negb andb]; destruct (negb (String.eqb server "") && _); cbn;
    rewrite ?Et, ?Er; try reflexivity;
    apply String.eqb_eq in Et; apply String.eqb_eq in Er; congruence.
Qed.

Lemma recordHTTP_server r port title server :
  HTTPServer (recordHTTP r port title server) = first_nonempty [HTTPServer r; server].
Proof.
  rewrite <- (first_nonempty_one server) at 2. cbn [first_nonempty].
  unfold recordHTTP.
  destruct (0 <? length (compositeParts title server))%nat; rewrite ?setBanner_server;
    destruct (negb (String.eqb title "") && String.eqb (HTTPTitle r) "");
    cbn [HTTPServer setHTTPTitle];
    destruct (String.eqb server "") eqn:Et, (String.eqb (HTTPServer r) "") eqn:Er;
    cbn; rewrite ?Et, ?Er; try reflexivity;
    apply String.eqb_eq in Et; apply String.eqb_eq in Er; congruence.
Qed.

Section Loops.
Variable W : Type.
Variable env : Probes W.

(** The first loop grabs a banner on every port that is not an HTTP
    port, in the order of the list, fetches nothing, and leaves the two
    HTTP fields alone. *)
Lemma bannerLoop_trace (ip : string) (ports : list Z) :
  forall result w tr,
    let '(result', (_, tr')) := bannerLoop W env ip ports result (w, tr) in
    grabbed tr' = grabbed tr ++ filter (fun p => negb (isHTTPPort p)) ports
    /\ fetched tr' = fetched tr
    /\ HTTPTitle result' = HTTPTitle result
    /\ HTTPServer result' = HTTPServer result.
Proof.
  induction ports as [|port rest IH]; intros result w tr.
  - cbn. now rewrite app_nil_r.
  - cbn [bannerLoop filter]. unfold pollDone, mbind, ret, call.
    destruct (isHTTPPort port); cbn [negb].
    + apply IH.
    + destruct (probeGrabBanner env ip port w) as [banner w1].
      match goal with
      | |- context [bannerLoop W env ip rest ?r (?wx, ?tx)] =>
          specialize (IH r wx tx);
          destruct (bannerLoop W env ip rest r (wx, tx)) as [r' [w2 tr']]
      end.
      destruct IH as (Hg & Hf & Ht & Hs).
      rewrite Hg, Hf, Ht, Hs, grabbed_app, fetched_app. cbn.
      rewrite app_nil_r, <- app_assoc. cbn.
      destruct (negb (String.eqb banner "")); auto.
Qed.

(** The second loop fetches on every HTTP port, in the order of the
    list, grabs nothing, and keeps for each field the first non-empty
    value. *)
Lemma httpLoop_trace (ip : string) (ports : list Z) :
  forall result w tr,
    let '(result', (_, tr')) := httpLoop W env ip ports result (w, tr) in
    grabbed tr' = grabbed tr
    /\ exists fs,
         fetched tr' = fetched tr ++ fs
         /\ map fst fs = filter isHTTPPort ports
         /\ HTTPTitle result' = first_nonempty (HTTPTitle result :: titles fs)
         /\ HTTPServer result' = first_nonempty (HTTPServer result :: servers fs).
Proof.
  induction ports as [|port rest IH]; intros result w tr.
  - cbn. split; [reflexivity|]. exists []. rewrite app_nil_r. cbn.
    repeat split;
      match goal with
      | |- ?x = _ => destruct (String.eqb_spec x "") as [E|E]; [now rewrite E | reflexivity]
      end.
  - cbn [httpLoop filter]. unfold pollDone, mbind, ret, call.
    destruct (isHTTPPort port); cbn [negb].
    + destruct (probeFetchHTTPInfo env ip port w) as [[title server] w1].
      match goal with
      | |- context [httpLoop W env ip rest ?r (?wx, ?tx)] =>
          specialize (IH r wx tx);
          destruct (httpLoop W env ip rest r (wx, tx)) as [r' [w2 tr']]
      end.
      destruct IH as (Hg & fs & Hf & Hp & Ht & Hs).
      split.
      { rewrite Hg, grabbed_app. cbn. now rewrite app_nil_r. }
      exists ((port, (title, server)) :: fs).
      split; [|split; [|split]].
      * rewrite Hf, fetched_app. cbn. now rewrite <- app_assoc.
      * cbn. now rewrite Hp.
      * rewrite Ht, recordHTTP_title. apply first_nonempty_cons2.
      * rewrite Hs, recordHTTP_server. apply first_nonempty_cons2.
    + apply IH.
Qed.

End Loops.

(** [RunAll] as a whole: the banner grabs, the HTTP fetches and the two
    HTTP fields of the result, read off its trace. *)
Lemma RunAll_trace (W : Type) (env : Probes W) (lower : string -> string)
      (ip mac manufacturer : string) (openPorts : list Z)
      (extraData : list (string * string)) (w : W) :
  let '(result, (_, tr)) :=
    RunAll W env lower ip mac manufacturer openPorts extraData (w, []) in
  grabbed tr = filter (fun p => negb (isHTTPPort p)) openPorts
  /\ map fst (fetched tr) = filter isHTTPPort openPorts
  /\ HTTPTitle result = first_nonempty (titles (fetched tr))
  /\ HTTPServer result = first_nonempty (servers (fetched tr)).
Proof.
  unfold RunAll, mbind, call, ret.
  destruct (probeReverseDNS env ip w) as [rdns w1].
  destruct (probeTCPPing env ip openPorts w1) as [lat w2].
  destruct (probeQueryNetBIOS env ip w2) as [nb w3].
  set (tr0 := (([] ++ _) ++ _) ++ _).
  assert (Hg0 : grabbed tr0 = []) by reflexivity.
  assert (Hf0 : fetched tr0 = []) by reflexivity.
  destruct openPorts as [|p ports]; [now cbn|].
  change (0 <? length (p :: ports))%nat with true. cbn beta iota.
  pose proof (bannerLoop_trace W env ip (p :: ports)
                (mkResult lat rdns [] "" "" "" nb) w3 tr0) as H1.
  destruct (bannerLoop W env ip (p :: ports) _ (w3, tr0)) as [r1 [w4 tr1]].
  destruct H1 as (Hg1 & Hf1 & Ht1 & Hs1).
  pose proof (httpLoop_trace W env ip (p :: ports) r1 w4 tr1) as H2.
  destruct (httpLoop W env ip (p :: ports) r1 (w4, tr1)) as [r2 [w5 tr2]].
  destruct H2 as (Hg2 & fs & Hf2 & Hp2 & Ht2 & Hs2).
  rewrite Hf1, Hf0 in Hf2. cbn [app] in Hf2.
  cbn beta iota zeta.
  rewrite Hg2, Hg1, Hg0, Hf2. cbn [app].
  cbn [HTTPTitle HTTPServer setDeviceType].
  rewrite Ht2, Hs2, Ht1, Hs1. cbn [HTTPTitle HTTPServer].
  repeat split; try assumption; reflexivity.
Qed.

End Prober.

(* ================================================================== *)
(** * discovery: interface suitability and listing (network_utils.go) *)
(* ================================================================== *)

Module Discovery.
Import Go GoNet.

(** The loop of [isLANSuitable] over the addresses: an IPv4 network
    whose mask has at most 30 leading ones. *)
Fixpoint hasUsableIPv4 (addrs : list Addr) : bool :=
  match addrs with
  | [] => false
  | AddrIPNet ipnet :: rest =>
      match To4 (IP ipnet) with
      | None => hasUsableIPv4 rest
      | Some _ =>
          let '(ones, _) := Size (Mask ipnet) in
          if (ones <=? 30)%nat then true else hasUsableIPv4 rest
      end
  | AddrOther _ :: rest => hasUsableIPv4 rest
  end.

Definition isLANSuitable (iface : Interface) : bool :=
  if (Z.land (Flags iface) FlagUp =? 0)%Z then false
  else if negb (Z.land (Flags iface) FlagLoopback =? 0)%Z then false
  else if negb (Z.land (Flags iface) FlagPointToPoint =? 0)%Z then false
  else if (Z.land (Flags iface) FlagBroadcast =? 0)%Z then false
  else
    match Addrs iface with
    | None => false
    | Some addrs => hasUsableIPv4 addrs
    end.

Record InterfaceEntry : Type := mkInterfaceEntry {
  Name : string;
  IPv4 : string;
  Subnet : string;
  MAC : string;
  Flags : string;
  IsVPN : bool
}.

(** [joinStrings(ss, sep)], [i] being the index of the head of [ss]. *)
Fixpoint joinFrom (i : nat) (ss : list string) (sep result : string) : string :=
  match ss with
  | [] => result
  | s :: rest =>
      let result := if (0 <? i)%nat then (result ++ sep)%string else result in
      joinFrom (S i) rest sep (result ++ s)%string
  end.

Definition joinStrings (ss : list string) (sep : string) : string :=
  joinFrom 0 ss sep "".

(** The description of the flags put into an entry. *)
Definition flagsText (flags : Z) : string :=
  let names := [] in
  let names := if negb (Z.land flags FlagBroadcast =? 0)%Z
               then names ++ ["broadcast"] else names in
  let names := if negb (Z.land flags FlagPointToPoint =? 0)%Z
               then names ++ ["point-to-point"] else names in
  let names := if negb (Z.land flags FlagMulticast =? 0)%Z
               then names ++ ["multicast"] else names in
  if (0 <? length names)%nat
  then ("[" ++ joinStrings names ", " ++ "]")%string
  else "".

Section WithFormatting.
(** The [String()] methods of [net.IP], [*net.IPNet] and
    [net.HardwareAddr]. *)
Variable IPString : list byte -> string.
Variable IPNetString : IPNet -> string.
Variable HardwareAddrString : list byte -> string.

Definition isVPNFlags (flags : Z) : bool :=
  negb (Z.land flags FlagPointToPoint =? 0)%Z || (Z.land flags FlagBroadcast =? 0)%Z.

(** The inner loop of [ListAllInterfaces]: the entry made from the first
    IPv4 network among the addresses, if there is one. *)
Fixpoint firstIPv4Entry (iface : Interface) (addrs : list Addr)
  : option InterfaceEntry :=
  match addrs with
  | [] => None
  | AddrIPNet ipnet :: rest =>
      match To4 (IP ipnet) with
      | None => firstIPv4Entry iface rest
      | Some _ =>
          Some (mkInterfaceEntry (GoNet.Name iface)
                                 (IPString (IP ipnet))
                                 (IPNetString ipnet)
                                 (HardwareAddrString (HardwareAddr iface))
                                 (flagsText (GoNet.Flags iface))
                                 (isVPNFlags (GoNet.Flags iface)))
      end
  | AddrOther _ :: rest => firstIPv4Entry iface rest
  end.

(** The body of the outer loop: the entry appended for [iface], [None]
    when the interface is skipped. *)
Definition entryFor (iface : Interface) : option InterfaceEntry :=
  if (Z.land (GoNet.Flags iface) FlagUp =? 0)%Z
     || negb (Z.land (GoNet.Flags iface) FlagLoopback =? 0)%Z
  then None
  else
    match Addrs iface with
    | None => None
    | Some addrs => firstIPv4Entry iface addrs
    end.

(** [ListAllInterfaces()], given the answer of [net.Interfaces()]
    ([None] when that call returns an error). *)
Definition ListAllInterfaces (interfaces : option (list Interface))
  : list InterfaceEntry :=
  match interfaces with
  | None => []
  | Some ifaces =>
      fold_left (fun result iface =>
                   match entryFor iface with
                   | Some entry => result ++ [entry]
                   | None => result
                   end) ifaces []
  end.

End WithFormatting.

(** An interface has an IPv4 address. *)
Fixpoint hasIPv4 (addrs : list Addr) : bool :=
  match addrs with
  | [] => false
  | AddrIPNet ipnet :: rest =>
      match To4 (IP ipnet) with
      | None => hasIPv4 rest
      | Some _ => true
      end
  | AddrOther _ :: rest => hasIPv4 rest
  end.

(** An interface that is up, is not the loopback and has an IPv4
    address: the interfaces the listing shows. *)
Definition listable (iface : Interface) : bool :=
  negb (Z.land (GoNet.Flags iface) FlagUp =? 0)%Z
  && (Z.land (GoNet.Flags iface) FlagLoopback =? 0)%Z
  && match Addrs iface with
     | None => false
     | Some addrs => hasIPv4 addrs
     end.

(** An Ethernet interface with a host route only (mask /32). *)
Definition eth_host_route : Interface :=
  mkInterface "eth0" 19 [x02; x00; x00; x00; x00; x01]
    (Some [AddrIPNet (mkIPNet [x0a; x00; x00; x01] [xff; xff; xff; xff])]).

(** A tunnel: point-to-point, no broadcast. *)
Definition tun_p2p : Interface :=
  mkInterface "tun0" 25 []
    (Some [AddrIPNet (mkIPNet [x0a; x08; x00; x02] [xff; xff; xff; x00])]).

(** ** Facts *)

Section Listing.
Variable IPString : list byte -> string.
Variable IPNetString : IPNet -> string.
Variable HardwareAddrString : list byte -> string.

Lemma firstIPv4Entry_spec (iface : Interface) (addrs : list Addr) :
  match firstIPv4Entry IPString IPNetString HardwareAddrString iface addrs with
  | Some e =>
      hasIPv4 addrs = true
      /\ Name e = GoNet.Name iface
      /\ IsVPN e = isVPNFlags (GoNet.Flags iface)
  | None => hasIPv4 addrs = false
  end.
Proof.
  induction addrs as [|[ipnet|ip] rest IH]; cbn; try exact IH; [reflexivity|].
  destruct (To4 (IP ipnet)); [cbn; auto | exact IH].
Qed.

(** An interface gets an entry exactly when it is listable; the entry
    carries its name and the flag computed from its flags. *)
Lemma entryFor_spec (iface : Interface) :
  match entryFor IPString IPNetString HardwareAddrString iface with
  | Some e =>
      listable iface = true
      /\ Name e = GoNet.Name iface
      /\ IsVPN e = isVPNFlags (GoNet.Flags iface)
  | None => listable iface = false
  end.
Proof.
  unfold entryFor, listable.
  destruct (Z.land (GoNet.Flags iface) FlagUp =? 0)%Z; cbn; [reflexivity|].
  destruct (Z.land (GoNet.Flags iface) FlagLoopback =? 0)%Z; cbn; [|reflexivity].
  destruct (Addrs iface) as [addrs|]; [|reflexivity].
  apply firstIPv4Entry_spec.
Qed.

Lemma ListAllInterfaces_fold (ifaces : list Interface) (acc : list InterfaceEntry) :
  fold_left (fun result iface =>
               match entryFor IPString IPNetString HardwareAddrString iface with
               | Some entry => result ++ [entry]
               | None => result
               end) ifaces acc
  = acc ++ flat_map (fun iface => match entryFor IPString IPNetString HardwareAddrString iface with
                                  | Some e => [e]
                                  | None => []
                                  end) ifaces.
Proof.
  revert acc. induction ifaces as [|i ifaces IH]; intros acc; cbn.
  - now rewrite app_nil_r.
  - rewrite IH. destruct (entryFor IPString IPNetString HardwareAddrString i); cbn;
      [now rewrite <- app_assoc | reflexivity].
Qed.

(** Every entry of the listing is the entry of one of the interfaces. *)
Lemma ListAllInterfaces_In (ifaces : list Interface) (e : InterfaceEntry) :
  In e (ListAllInterfaces IPString IPNetString HardwareAddrString (Some ifaces)) <->
  exists iface, In iface ifaces /\ entryFor IPString IPNetString HardwareAddrString iface = Some e.
Proof.
  unfold ListAllInterfaces.
  rewrite (ListAllInterfaces_fold ifaces []). cbn [app].
  rewrite in_flat_map. split.
  - intros [i [Hin He]]. exists i. split; [exact Hin|].
    destruct (entryFor IPString IPNetString HardwareAddrString i) as [e'|]; [|contradiction].
    destruct He as [->|[]]. reflexivity.
  - intros [i [Hin He]]. exists i. split; [exact Hin|]. rewrite He. now left.
Qed.

End Listing.

(** A flagged interface is never suitable for the LAN. *)
Lemma isVPN_not_suitable (iface : Interface) :
  isVPNFlags (GoNet.Flags iface) = true -> isLANSuitable iface = false.
Proof.
  unfold isVPNFlags, isLANSuitable. intros H.
  destruct (Z.land (GoNet.Flags iface) FlagUp =? 0)%Z; [reflexivity|].
  destruct (Z.land (GoNet.Flags iface) FlagLoopback =? 0)%Z; [|reflexivity].
  destruct (Z.land (GoNet.Flags iface) FlagPointToPoint =? 0)%Z; [|reflexivity].
  destruct (Z.land (GoNet.Flags iface) FlagBroadcast =? 0)%Z; [reflexivity|].
  discriminate H.
Qed.

(** A listable interface that is not suitable and not flagged has no
    IPv4 network of mask /30 or shorter. *)
Lemma unflagged_unsuitable (iface : Interface) :
  listable iface = true ->
  isLANSuitable iface = false ->
  isVPNFlags (GoNet.Flags iface) = false ->
  exists addrs, Addrs iface = Some addrs /\ hasUsableIPv4 addrs = false.
Proof.
  unfold listable, isLANSuitable, isVPNFlags. intros Hl Hs Hv.
  destruct (Z.land (GoNet.Flags iface) FlagUp =? 0)%Z; [discriminate Hl|].
  destruct (Z.land (GoNet.Flags iface) FlagLoopback =? 0)%Z; [|discriminate Hl].
  destruct (Z.land (GoNet.Flags iface) FlagPointToPoint =? 0)%Z; [|discriminate Hv].
  destruct (Z.land (GoNet.Flags iface) FlagBroadcast =? 0)%Z; [discriminate Hv|].
  cbn in *. destruct (Addrs iface) as [addrs|]; [|discriminate Hl].
  exists addrs. split; [reflexivity | exact Hs].
Qed.

End Discovery.

(* ================================================================== *)
(** * The documented properties *)
(* ================================================================== *)

Import Go GoNet GoStrings.

(** ** Wake-on-LAN *)

(** The network that accepts every dial and every write. *)
Definition net_up : Wol.UDPNet := Wol.mkUDPNet (fun _ _ => true) (fun _ => true).

Definition mac_aabbccddeeff : list byte := [xaa; xbb; xcc; xdd; xee; xff].

(** C1. For a MAC string that parses to six bytes, [SendWoL] builds the
    102-byte packet made of six bytes 0xFF followed by sixteen copies of
    the address, dials UDP [broadcast_ip:9] and, the dial succeeding,
    writes exactly that packet; the call fails only with the dial or the
    write. For a string that does not parse to six bytes it returns an
    error and touches the network not at all. *)
Theorem SendWoL_magic_packet (net : Wol.UDPNet) (macStr broadcastAddr : string) :
  (forall mac,
      ParseMAC macStr = Some mac ->
      length mac = 6%nat ->
      let packet := Wol.magic_packet mac in
      let addr := (broadcastAddr ++ ":9")%string in
      length packet = 102%nat
      /\ firstn 6 packet = repeat xff 6
      /\ skipn 6 packet = concat (repeat mac 16)
      /\ snd (Wol.SendWoL net macStr broadcastAddr)
         = (if Wol.dial_ok net "udp" addr
            then [Wol.EvDial "udp" addr; Wol.EvWrite packet; Wol.EvClose]
            else [Wol.EvDial "udp" addr])
      /\ fst (Wol.SendWoL net macStr broadcastAddr)
         = (if Wol.dial_ok net "udp" addr
            then if Wol.write_ok net packet then None else Some Wol.SendFailed
            else Some Wol.DialFailed))
  /\ ((ParseMAC macStr = None
       \/ exists mac, ParseMAC macStr = Some mac /\ length mac <> 6%nat) ->
      exists e, Wol.SendWoL net macStr broadcastAddr = (Some e, [])).
Proof.
  split.
  - intros mac Hparse Hlen packet addr. subst packet addr.
    rewrite (Wol.magic_packet_layout mac Hlen).
    assert (Hl : length (repeat xff 6 ++ concat (repeat mac 16)) = 102%nat).
    { destruct mac as [|a [|b [|c [|d [|e [|f [|g mac]]]]]]]; try discriminate.
      reflexivity. }
    split; [exact Hl|]. split; [reflexivity|]. split; [reflexivity|].
    unfold Wol.SendWoL. rewrite Hparse, Hlen. cbn [Nat.eqb negb].
    rewrite (Wol.magic_packet_layout mac Hlen).
    destruct (Wol.dial_ok net "udp" (broadcastAddr ++ ":9")); cbn [negb];
      [destruct (Wol.write_ok net _)|]; split; reflexivity.
  - intros [Hnone | [mac [Hsome Hlen]]]; unfold Wol.SendWoL.
    + rewrite Hnone. eauto.
    + rewrite Hsome. apply Nat.eqb_neq in Hlen. rewrite Hlen. cbn. eauto.
Qed.

Lemma SendWoL_magic_packet_witness :
  ParseMAC "aa:bb:cc:dd:ee:ff" = Some mac_aabbccddeeff
  /\ Wol.SendWoL net_up "aa:bb:cc:dd:ee:ff" "192.168.1.255"
     = (None, [Wol.EvDial "udp" "192.168.1.255:9";
               Wol.EvWrite (repeat xff 6 ++ concat (repeat mac_aabbccddeeff 16));
               Wol.EvClose])
  /\ firstn 6 (skipn 96 (Wol.magic_packet mac_aabbccddeeff)) = mac_aabbccddeeff
  /\ exists e, Wol.SendWoL net_up "aa:bb:cc:dd:ee" "192.168.1.255" = (Some e, []).
Proof.
  pose proof (proj1 (SendWoL_magic_packet net_up "aa:bb:cc:dd:ee:ff" "192.168.1.255")
                _ eq_refl eq_refl) as H.
  pose proof (proj2 (SendWoL_magic_packet net_up "aa:bb:cc:dd:ee" "192.168.1.255")
                (or_introl eq_refl)) as H'.
  split; [reflexivity|]. split; [reflexivity|]. split; [reflexivity | exact H'].
Defined.

(** ** Broadcast address *)

(** C2. For an IPv4 network (an address with a four-byte form and a
    four-byte mask) [BroadcastAddr] returns the four bytes
    [ip[i] | ^mask[i]], so that the result or-ed with the mask is all
    ones; the broadcast of 192.168.1.37/24 is 192.168.1.255. *)
Theorem BroadcastAddr_or_mask :
  (forall (ipNet : IPNet) (ip : list byte),
      To4 (IP ipNet) = Some ip ->
      length (Mask ipNet) = 4%nat ->
      exists bc,
        Wol.BroadcastAddr ipNet = Ret (Some bc)
        /\ length bc = 4%nat
        /\ (forall i, (i < 4)%nat ->
              nth i bc x00 = byte_or (nth i ip x00) (byte_not (nth i (Mask ipNet) x00)))
        /\ map (fun p => byte_or (fst p) (snd p)) (combine bc (Mask ipNet))
           = repeat xff 4)
  /\ Wol.BroadcastAddr (mkIPNet [xc0; xa8; x01; x25] [xff; xff; xff; x00])
     = Ret (Some [xc0; xa8; x01; xff]).
Proof.
  split; [|reflexivity].
  intros [ip0 mask] ip Hto4 Hmask. cbn [IP Mask] in *.
  pose proof (Wol.To4_length _ _ Hto4) as Hlen.
  unfold Wol.BroadcastAddr. cbn [IP Mask]. rewrite Hto4.
  rewrite Wol.broadcast_loop_ok by (rewrite Hlen, Hmask; lia).
  cbn [bind].
  destruct ip as [|a [|b [|c [|d [|e ip]]]]]; try discriminate.
  destruct mask as [|ma [|mb [|mc [|md [|me mask]]]]]; try discriminate.
  eexists. split; [reflexivity|]. split; [reflexivity|]. split.
  - intros i Hi. destruct i as [|[|[|[|i]]]]; try reflexivity. lia.
  - cbn. now rewrite !or_not_all_ones.
Qed.

Lemma BroadcastAddr_or_mask_witness :
  exists bc,
    Wol.BroadcastAddr (mkIPNet [x0a; x00; x05; x07] [xff; xff; xfc; x00]) = Ret (Some bc)
    /\ bc = [x0a; x00; x07; xff].
Proof.
  destruct (proj1 BroadcastAddr_or_mask
              (mkIPNet [x0a; x00; x05; x07] [xff; xff; xfc; x00])
              [x0a; x00; x05; x07] eq_refl eq_refl) as [bc [H _]].
  exists bc. split; [exact H|].
  vm_compute in H. now injection H as <-.
Defined.

(** ** Banner sanitizer *)

(** C3, as the code has it. For every raw input the sanitizer keeps the
    prefix before the first carriage return or line feed, keeps of it the
    bytes in 0x20..0x7E only, trims white space at both ends, and returns
    at most 120 bytes, all in 0x20..0x7E (so no CR or LF), without white
    space at either end. A text longer than 120 bytes is cut to its first
    117 bytes followed by ["..."]; a shorter one is returned as it is,
    whatever its ending. *)
Theorem sanitizeBanner_spec (raw : string) :
  let out := Banner.sanitizeBanner raw in
  (str_forall (fun c => negb (Banner.is_crlf c)) (Banner.firstLine raw) = true
   /\ exists rest,
        raw = (Banner.firstLine raw ++ rest)%string
        /\ match rest with
           | EmptyString => True
           | String c _ => Banner.is_crlf c = true
           end)
  /\ Banner.trimmed raw
     = TrimSpace (str_filter Banner.printable_char (Banner.firstLine raw))
  /\ (String.length out <= 120)%nat
  /\ str_forall Banner.printable_char out = true
  /\ str_forall (fun c => negb (Banner.is_crlf c)) out = true
  /\ firstSatisfies asciiSpace out = false
  /\ lastSatisfies asciiSpace out = false
  /\ (if Banner.truncated raw
      then out = (substring 0 117 (Banner.trimmed raw) ++ "...")%string
           /\ String.length out = 120%nat
           /\ HasSuffix out "..." = true
      else out = Banner.trimmed raw).
Proof.
  cbn zeta.
  split; [apply Banner.firstLine_split|].
  split; [unfold Banner.trimmed; now rewrite Banner.writePrintable_runes|].
  pose proof (Banner.sanitizeBanner_printable raw) as Hp.
  pose proof (Banner.sanitizeBanner_no_outer_space raw) as [Hf Hl].
  destruct (Banner.sanitizeBanner_cases raw) as [(Ht & He & Hlen)|(Ht & He & Hlen)];
    rewrite Ht.
  - repeat split; try assumption.
    + rewrite He. exact Hlen.
    + now apply Banner.printable_not_crlf.
  - repeat split; try assumption.
    + rewrite Hlen. lia.
    + now apply Banner.printable_not_crlf.
    + rewrite He. apply HasSuffix_append.
Qed.

(** C3 as stated fails in one direction: a banner that itself ends in
    three dots comes back with them although nothing was cut. *)
Lemma sanitizeBanner_dots_without_truncation :
  ~ (HasSuffix (Banner.sanitizeBanner "Loading...") "..." = true
     <-> Banner.truncated "Loading..." = true).
Proof.
  intros [H _]. specialize (H eq_refl). discriminate H.
Qed.

(** ** Operating-system detection *)

(** C4. [DetectOS] returns the first non-empty verdict of its seven
    signals taken in the order SSH banner, HTTP Server header, other
    banners, mDNS/SSDP data, NetBIOS name, TTL, ports, and samples the
    TTL only when the five signals before it are empty. With the banner
    ["OpenSSH_8.6 Ubuntu"] on port 22 the verdict is Linux even though
    port 3389 alone would say Windows; with nothing but a NetBIOS name
    the verdict is Windows. *)
Theorem DetectOS_priority (lower : string -> string) :
  (forall env ip ports banners srv nb extra,
      fst (OsDetect.DetectOS lower env ip ports banners srv nb extra)
      = Fingerprinting.first_nonempty
          (OsDetect.signals lower env ip ports banners srv nb extra)
      /\ (Fingerprinting.first_nonempty
            (firstn 5 (OsDetect.signals lower env ip ports banners srv nb extra)) <> ""
          -> snd (OsDetect.DetectOS lower env ip ports banners srv nb extra) = []))
  /\ OsDetect.signals lower =
     (fun env ip ports banners srv nb extra =>
        [ OsDetect.osFromSSHBanner lower banners;
          OsDetect.osFromHTTPServer lower srv;
          OsDetect.osFromBanners lower banners;
          OsDetect.osFromExtraData lower extra;
          (if String.eqb nb "" then "" else OsDetect.OSWindows);
          fst (OsDetect.osFromTTL env ip ports);
          OsDetect.osFromPorts ports ])
  /\ (forall env ip ports banners srv nb extra,
         OsDetect.lookup banners 22 = Some "OpenSSH_8.6 Ubuntu" ->
         In 3389%Z ports ->
         OsDetect.DetectOS lower env ip ports banners srv nb extra
         = (OsDetect.OSLinux, [])
         /\ OsDetect.osFromPorts ports = OsDetect.OSWindows)
  /\ (forall env ip ports banners srv nb extra,
         OsDetect.osFromSSHBanner lower banners = "" ->
         OsDetect.osFromHTTPServer lower srv = "" ->
         OsDetect.osFromBanners lower banners = "" ->
         OsDetect.osFromExtraData lower extra = "" ->
         nb <> "" ->
         OsDetect.DetectOS lower env ip ports banners srv nb extra
         = (OsDetect.OSWindows, [])).
Proof.
  split; [|split; [reflexivity|split]].
  - intros. split.
    + apply OsDetect.DetectOS_first_signal.
    + apply OsDetect.DetectOS_lazy.
  - intros env ip ports banners srv nb extra Hssh Hport.
    assert (Hv : OsDetect.osFromSSHBanner lower banners = OsDetect.OSLinux).
    { unfold OsDetect.osFromSSHBanner. rewrite Hssh. reflexivity. }
    split.
    + rewrite OsDetect.DetectOS_ssh; rewrite Hv; [reflexivity | discriminate].
    + unfold OsDetect.osFromPorts.
      apply Fingerprinting.portSet_true_iff in Hport. now rewrite Hport.
  - intros env ip ports banners srv nb extra H1 H2 H3 H4 Hnb.
    unfold OsDetect.DetectOS. rewrite H1, H2, H3, H4. cbn.
    apply String.eqb_neq in Hnb. now rewrite Hnb.
Qed.

Definition no_network : OsDetect.TTLEnv :=
  OsDetect.mkTTLEnv (fun _ => false) (fun _ _ _ => None).

Definition ttl_on_443 (ttl : Z) : OsDetect.TTLEnv :=
  OsDetect.mkTTLEnv (fun _ => false)
                    (fun _ _ port => if (port =? 443)%Z then Some ttl else None).

Definition ascii_lower : string -> string := mapBytes lowerByte.

Lemma DetectOS_priority_witness :
  OsDetect.DetectOS ascii_lower (ttl_on_443 128) "192.168.1.20" [22; 3389]%Z
                    [(22%Z, "OpenSSH_8.6 Ubuntu")] "" "" []
  = (OsDetect.OSLinux, [])
  /\ OsDetect.DetectOS ascii_lower (ttl_on_443 64) "192.168.1.21" [] [] "" "WORKSTATION" []
     = (OsDetect.OSWindows, []).
Proof.
  pose proof (DetectOS_priority ascii_lower) as (_ & _ & Hssh & Hnb).
  split.
  - apply (Hssh (ttl_on_443 128) "192.168.1.20" [22; 3389]%Z
                [(22%Z, "OpenSSH_8.6 Ubuntu")] "" "" [] eq_refl).
    right. left. reflexivity.
  - apply (Hnb (ttl_on_443 64) "192.168.1.21" [] [] "" "WORKSTATION" []
               eq_refl eq_refl eq_refl eq_refl).
    discriminate.
Defined.

(** ** Device-type fingerprint *)

(** C5. [Fingerprint] returns the first non-empty verdict of its three
    stages in the order manufacturer keywords, mDNS/SSDP keywords,
    ports and banners, and ["Unknown"] when the three are empty. The
    manufacturer "Canon Inc." gives Printer, the extra data
    [mdns.service = _airplay._tcp] gives Smart TV, the open ports
    139, 445 and 80 give NAS/Storage. *)
Theorem Fingerprint_precedence (lower : string -> string) :
  (forall mac manufacturer ports banners nb srv extra,
      Fingerprinting.Fingerprint lower mac manufacturer ports banners nb srv extra
      = let verdict :=
          Fingerprinting.first_nonempty
            [ Fingerprinting.fingerprintByManufacturer (ToLower lower manufacturer);
              Fingerprinting.fingerprintByServices
                (ToLower lower (Fingerprinting.flattenMap extra));
              Fingerprinting.fingerprintByPorts lower ports banners (ToLower lower srv) ] in
        if String.eqb verdict "" then Fingerprinting.TypeUnknown else verdict)
  /\ (forall mac ports banners nb srv extra,
         Fingerprinting.Fingerprint lower mac "Canon Inc." ports banners nb srv extra
         = Fingerprinting.TypePrinter)
  /\ (forall mac ports banners nb srv,
         Fingerprinting.Fingerprint lower mac "" ports banners nb srv
                                    [("mdns.service", "_airplay._tcp")]
         = Fingerprinting.TypeSmartTV)
  /\ (forall mac banners nb srv,
         Fingerprinting.Fingerprint lower mac "" [139; 445; 80]%Z banners nb srv []
         = Fingerprinting.TypeNAS)
  /\ Fingerprinting.Fingerprint lower "" "" [] [] "" "" [] = Fingerprinting.TypeUnknown
  /\ Fingerprinting.fingerprintByManufacturer (ToLower lower "Canon Inc.")
     = Fingerprinting.TypePrinter
  /\ Fingerprinting.fingerprintByServices
       (ToLower lower (Fingerprinting.flattenMap [("mdns.service", "_airplay._tcp")]))
     = Fingerprinting.TypeSmartTV
  /\ (forall banners srv,
         Fingerprinting.fingerprintByPorts lower [139; 445; 80]%Z banners srv
         = Fingerprinting.TypeNAS).
Proof.
  split; [intros; apply Fingerprinting.Fingerprint_stages|].
  repeat split; intros; reflexivity.
Qed.

(** ** Prober *)

(** C6, as the code has it. [RunAll] treats exactly 80, 443, 8080, 8443
    and 9090 as HTTP ports; it grabs a banner on every open port that is
    not one of them and on no other, fetches the HTTP information on
    every open port that is one of them and on no other, and fills
    [HTTPTitle] and [HTTPServer] with the first non-empty value among
    the fetches, the HTTP ports being consulted in the order in which
    they stand in the list of open ports. *)
Theorem RunAll_http_ports (W : Type) (env : Prober.Probes W)
        (lower : string -> string) (ip mac manufacturer : string)
        (openPorts : list Z) (extraData : list (string * string)) (w : W) :
  (forall p, Prober.isHTTPPort p = true <-> In p [80; 443; 8080; 8443; 9090]%Z)
  /\ let '(result, (_, tr)) :=
       Prober.RunAll W env lower ip mac manufacturer openPorts extraData (w, []) in
     Prober.grabbed tr = filter (fun p => negb (Prober.isHTTPPort p)) openPorts
     /\ map fst (Prober.fetched tr) = filter Prober.isHTTPPort openPorts
     /\ Prober.HTTPTitle result
        = Fingerprinting.first_nonempty (Prober.titles (Prober.fetched tr))
     /\ Prober.HTTPServer result
        = Fingerprinting.first_nonempty (Prober.servers (Prober.fetched tr)).
Proof.
  split; [apply Prober.isHTTPPort_set | apply Prober.RunAll_trace].
Qed.

(** A host whose port 80 and port 443 serve different pages. *)
Definition two_sites : Prober.Probes unit :=
  Prober.mkProbes unit
    (fun _ w => ("", w))
    (fun _ _ w => (0%Z, w))
    (fun _ w => ("", w))
    (fun _ _ w => ("", w))
    (fun _ port w => (if (port =? 80)%Z then ("Router", "nginx")
                      else ("Secure Login", "Apache"), w)).

(** C6 as stated fails on the order: with the open ports given as
    443, 80 the title is the one of port 443, while the HTTP ports taken
    in ascending order would give the one of port 80. *)
Lemma RunAll_not_ascending :
  let ports := [443; 80]%Z in
  let title_of p := fst (fst (Prober.probeFetchHTTPInfo two_sites "10.0.0.5" p tt)) in
  Prober.HTTPTitle
    (fst (Prober.RunAll unit two_sites ascii_lower "10.0.0.5" "" "" ports [] (tt, [])))
  <> Fingerprinting.first_nonempty
       (map title_of (Prober.sortPorts (filter Prober.isHTTPPort ports))).
Proof. cbv. discriminate. Qed.

(** ** Interface listing *)

(** C7, as the code has it. Every entry of the listing belongs to an
    interface that is up, is not the loopback and has an IPv4 address;
    its flag [IsVPN] is set exactly when the interface is point-to-point
    or cannot broadcast, so an interface that fails the LAN-suitability
    predicate for one of these two reasons is flagged, and a flagged
    interface is never LAN-suitable. An entry that is not flagged
    although its interface is unsuitable belongs to an interface none
    of whose IPv4 networks has a mask of /30 or shorter. *)
Theorem ListAllInterfaces_vpn_flag
        (IPString : list byte -> string) (IPNetString : IPNet -> string)
        (HardwareAddrString : list byte -> string)
        (ifaces : list Interface) (e : Discovery.InterfaceEntry) :
  In e (Discovery.ListAllInterfaces IPString IPNetString HardwareAddrString
                                    (Some ifaces)) ->
  exists iface,
    In iface ifaces
    /\ Discovery.listable iface = true
    /\ Discovery.Name e = GoNet.Name iface
    /\ Discovery.IsVPN e
       = (negb (Z.land (GoNet.Flags iface) FlagPointToPoint =? 0)%Z
          || (Z.land (GoNet.Flags iface) FlagBroadcast =? 0)%Z)
    /\ (Discovery.IsVPN e = true -> Discovery.isLANSuitable iface = false)
    /\ (Discovery.isLANSuitable iface = false ->
        Discovery.IsVPN e = false ->
        exists addrs,
          Addrs iface = Some addrs /\ Discovery.hasUsableIPv4 addrs = false).
Proof.
  intros Hin. apply Discovery.ListAllInterfaces_In in Hin as [iface [Hi He]].
  pose proof (Discovery.entryFor_spec IPString IPNetString HardwareAddrString iface) as Hs.
  rewrite He in Hs. destruct Hs as (Hl & Hn & Hv).
  exists iface.
  split; [exact Hi|]. split; [exact Hl|]. split; [exact Hn|]. split; [exact Hv|].
  split.
  - intros Ht. apply Discovery.isVPN_not_suitable. now rewrite <- Hv.
  - intros Hu Hf. apply Discovery.unflagged_unsuitable; try assumption.
    now rewrite <- Hv.
Qed.

Definition no_text {A : Type} (_ : A) : string := "".

Lemma ListAllInterfaces_vpn_flag_witness :
  exists iface,
    In iface [Discovery.eth_host_route; Discovery.tun_p2p]
    /\ GoNet.Name iface = "tun0"
    /\ Discovery.isLANSuitable iface = false.
Proof.
  destruct (ListAllInterfaces_vpn_flag no_text no_text no_text
              [Discovery.eth_host_route; Discovery.tun_p2p]
              (Discovery.mkInterfaceEntry "tun0" "" "" "" "[point-to-point, multicast]" true)
              (or_intror (or_introl eq_refl)))
    as (iface & Hin & _ & Hname & _ & Hvpn & _).
  exists iface. split; [exact Hin|]. split; [now rewrite <- Hname|].
  apply Hvpn. reflexivity.
Defined.

(** C7 as stated fails: an Ethernet interface whose only IPv4 network
    is a /32 is listed, is not LAN-suitable, and is not flagged. *)
Lemma listing_host_route_not_flagged :
  Discovery.listable Discovery.eth_host_route = true
  /\ Discovery.isLANSuitable Discovery.eth_host_route = false
  /\ map (fun e => (Discovery.Name e, Discovery.IsVPN e))
         (Discovery.ListAllInterfaces no_text no_text no_text
            (Some [Discovery.eth_host_route]))
     = [("eth0", false)].
Proof. repeat split. Qed.

(** ** NBSTAT parser *)

(** C8. On every buffer the parser returns a name: the empty string for
    a buffer shorter than 57 bytes and for one that ends before the count
    of names is read; otherwise, [n] being the count and [off] the offset
    of the name table, the trimmed name of the first of the [n] 18-byte
    entries held by the buffer whose suffix is 0x00, whose group flag is
    clear and whose trimmed name is not empty, and the empty string when
    there is no such entry. The canned reply with a group record followed
    by the record of WORKSTATION yields ["WORKSTATION"]. *)
Theorem parseNBSTATResponse_first_unique :
  (forall data : list byte,
      exists name,
        Nbstat.parseNBSTATResponse data = Ret name
        /\ ((length data < 57)%nat -> name = "")
        /\ ((57 <= length data)%nat ->
            Nbstat.name_table data = Ret None -> name = "")
        /\ (forall n off,
               (57 <= length data)%nat ->
               Nbstat.name_table data = Ret (Some (n, off)) ->
               name = Nbstat.first_unique_name (Nbstat.entries n data off)
               /\ (n = 0%nat -> name = "")
               /\ ((length data < off + 18)%nat -> name = "")
               /\ (forall e,
                      find Nbstat.unique_workstation (Nbstat.entries n data off) = Some e ->
                      name = TrimRight (string_of_list_byte (Nbstat.ne_name e))
                                       Nbstat.name_cutset
                      /\ Nbstat.ne_suffix e = x00
                      /\ Z.testbit (Nbstat.ne_flags e) 15 = false
                      /\ name <> "")
               /\ (find Nbstat.unique_workstation (Nbstat.entries n data off) = None ->
                   name = "")))
  /\ Nbstat.parseNBSTATResponse Nbstat.canned_response = Ret "WORKSTATION".
Proof.
  split; [|reflexivity].
  intros data. destruct (Nat.ltb_spec (length data) 57) as [Hshort|Hlong].
  - exists "". unfold Nbstat.parseNBSTATResponse.
    replace (length data <? 57)%nat with true by (symmetry; now apply Nat.ltb_lt).
    repeat split; intros; try reflexivity; lia.
  - rewrite (Nbstat.parse_by_table data Hlong).
    destruct (Nbstat.name_table_total data Hlong) as [[[n off]|] Ht]; rewrite Ht; cbn [bind].
    + eexists. split; [reflexivity|]. split; [lia|]. split; [discriminate|].
      intros n' off' _ [= <- <-].
      split; [reflexivity|]. split; [now intros ->|]. split.
      { intros Hout. destruct n; [reflexivity|]. cbn [Nbstat.entries].
        unfold Nbstat.entry_at.
        replace (off + 18 <=? length data)%nat with false
          by (symmetry; apply Nat.leb_gt; lia).
        reflexivity. }
      unfold Nbstat.first_unique_name. split.
      * intros e He. rewrite He. apply find_some in He as [_ Hq].
        unfold Nbstat.unique_workstation in Hq.
        apply andb_true_iff in Hq as [Hq Hname]. apply andb_true_iff in Hq as [Hsuf Hgrp].
        split; [reflexivity|]. split; [now apply Byte.byte_dec_bl|].
        split; [now apply negb_true_iff in Hgrp|].
        apply negb_true_iff in Hname. now apply String.eqb_neq in Hname.
      * intros Hnone. now rewrite Hnone.
    + exists "". repeat split; intros; try reflexivity; try lia; discriminate.
Qed.

Lemma parseNBSTATResponse_first_unique_witness :
  Nbstat.name_table Nbstat.canned_response = Ret (Some (2%nat, 63%nat))
  /\ exists name,
       Nbstat.parseNBSTATResponse Nbstat.canned_response = Ret name
       /\ name = Nbstat.first_unique_name (Nbstat.entries 2 Nbstat.canned_response 63).
Proof.
  split; [reflexivity|].
  destruct (proj1 parseNBSTATResponse_first_unique Nbstat.canned_response)
    as [name (Hp & _ & _ & Hn)].
  exists name. split; [exact Hp|].
  assert (Hlen : (57 <= length Nbstat.canned_response)%nat) by (vm_compute; lia).
  destruct (Hn 2%nat 63%nat Hlen eq_refl) as [H _]. exact H.
Defined.

(** C10. On every byte buffer, of any length and content, the parser
    terminates with a name: none of its reads falls outside the buffer
    and none of its loops runs on. *)
Theorem parseNBSTATResponse_safe (data : list byte) :
  exists name, Nbstat.parseNBSTATResponse data = Ret name.
Proof.
  destruct (Nat.ltb_spec (length data) 57) as [Hshort|Hlong].
  - exists "". unfold Nbstat.parseNBSTATResponse.
    now replace (length data <? 57)%nat with true by (symmetry; now apply Nat.ltb_lt).
  - rewrite (Nbstat.parse_by_table data Hlong).
    destruct (Nbstat.name_table_total data Hlong) as [[[n off]|] Ht]; rewrite Ht;
      cbn [bind]; eauto.
Qed.

(** ** Determinism of the classifiers *)

(** C9, as the code has it. The device type is a function of the inputs
    of [Fingerprint] alone: it is the same whatever the order in which
    the banner map and the extra-data map are enumerated (case mapping
    being rune by rune). The verdict of [DetectOS] is fixed by its inputs
    whenever the SSH banner or the HTTP Server header gives a verdict: it
    is then the same whatever the network answers and whatever the order
    of enumeration. *)
Theorem classification_determinism (lower : string -> string) :
  lower_splits_at_space lower ->
  (forall mac manufacturer ports banners banners' nb srv extra extra',
      Permutation banners banners' ->
      Permutation extra extra' ->
      Fingerprinting.Fingerprint lower mac manufacturer ports banners nb srv extra
      = Fingerprinting.Fingerprint lower mac manufacturer ports banners' nb srv extra')
  /\ (forall env env' ip ports banners banners' srv nb extra extra',
         NoDup (map fst banners) ->
         Permutation banners banners' ->
         Permutation extra extra' ->
         OsDetect.osFromSSHBanner lower banners <> ""
         \/ OsDetect.osFromHTTPServer lower srv <> "" ->
         OsDetect.DetectOS lower env ip ports banners srv nb extra
         = OsDetect.DetectOS lower env' ip ports banners' srv nb extra').
Proof.
  intros Hsplit. split.
  - intros. now apply Fingerprinting.Fingerprint_order.
  - intros env env' ip ports banners banners' srv nb extra extra' Hnd Hb He Hv.
    pose proof (OsDetect.osFromSSHBanner_order lower banners banners' Hnd Hb) as Hssh.
    destruct (string_dec (OsDetect.osFromSSHBanner lower banners) "") as [Hs|Hs].
    + destruct Hv as [Hv|Hv]; [contradiction|].
      rewrite !OsDetect.DetectOS_http; congruence.
    + rewrite !OsDetect.DetectOS_ssh; congruence.
Qed.

Definition ftp_smtp_banners : list (Z * string) :=
  [(21%Z, "220 Microsoft FTP Service"); (25%Z, "220 mail ESMTP Postfix (Ubuntu)")].

Lemma classification_determinism_witness :
  Fingerprinting.Fingerprint ascii_lower "" "" [22]%Z
    [(22%Z, "SSH-2.0-OpenSSH_9.0"); (21%Z, "220 ready")] "" ""
    [("mdns.name", "Den"); ("ssdp.server", "Linux UPnP")]
  = Fingerprinting.Fingerprint ascii_lower "" "" [22]%Z
    [(21%Z, "220 ready"); (22%Z, "SSH-2.0-OpenSSH_9.0")] "" ""
    [("ssdp.server", "Linux UPnP"); ("mdns.name", "Den")]
  /\ OsDetect.DetectOS ascii_lower (ttl_on_443 128) "10.0.0.9" [22]%Z
       [(22%Z, "SSH-2.0-OpenSSH_9.0"); (21%Z, "220 ready")] "" "" []
     = OsDetect.DetectOS ascii_lower no_network "10.0.0.9" [22]%Z
       [(21%Z, "220 ready"); (22%Z, "SSH-2.0-OpenSSH_9.0")] "" "" [].
Proof.
  destruct (classification_determinism ascii_lower ascii_lower_splits) as [Hf Hd].
  split.
  - apply Hf; apply perm_swap.
  - apply Hd.
    + repeat constructor; cbn; intuition discriminate.
    + apply perm_swap.
    + apply perm_nil.
    + left. discriminate.
Defined.

(** C9 as stated fails for the operating system: on identical inputs the
    verdict changes with the TTL that the network returns, and for one
    and the same banner map it changes with the order in which the map
    is enumerated. *)
Lemma DetectOS_not_a_function_of_its_inputs :
  fst (OsDetect.DetectOS ascii_lower (ttl_on_443 64) "10.0.0.9" [] [] "" "" [])
  <> fst (OsDetect.DetectOS ascii_lower (ttl_on_443 128) "10.0.0.9" [] [] "" "" [])
  /\ Permutation ftp_smtp_banners (rev ftp_smtp_banners)
  /\ fst (OsDetect.DetectOS ascii_lower no_network "10.0.0.9" []
                            ftp_smtp_banners "" "" [])
     <> fst (OsDetect.DetectOS ascii_lower no_network "10.0.0.9" []
                               (rev ftp_smtp_banners) "" "" []).
Proof.
  split; [cbv; discriminate|]. split; [apply perm_swap|]. cbv. discriminate.
Qed.

(* ================================================================== *)
(** * probe: more about the broadcast address *)
(* ================================================================== *)

Module WolMore.
Import Go GoNet Wol.

(** [a & b] on [uint8]. *)
Definition byte_and (a b : byte) : byte :=
  byte_of_Z (Z.land (byte_val a) (byte_val b)).

(** [a[i] & b[i]] for every index of two equally long lists. *)
Definition and_bytes (a b : list byte) : list byte :=
  map (fun p => byte_and (fst p) (snd p)) (combine a b).

(** The bytes [ip[i] | ^mask[i]] of two equally long lists. *)
Definition or_not (ip mask : list byte) : list byte :=
  map (fun p => byte_or (fst p) (byte_not (snd p))) (combine ip mask).

Ltac byte_bits :=
  apply byte_val_inj; unfold byte_and, byte_or, byte_not;
  rewrite ?byte_val_of_Z; change 256%Z with (2 ^ 8)%Z;
  apply Z.bits_inj'; intros n Hn;
  destruct (Z.ltb_spec n 8) as [Hlt|Hge];
  [ repeat first [ rewrite Z.mod_pow2_bits_low by lia
                 | rewrite Z.land_spec | rewrite Z.lor_spec
                 | rewrite Z.lnot_spec by lia ];
    repeat match goal with
           | |- context [Z.testbit (byte_val ?b) n] =>
               destruct (Z.testbit (byte_val b) n)
           end; reflexivity
  | rewrite ?Z.mod_pow2_bits_high by lia; try reflexivity ].

Lemma and_or_not_mask (a m : byte) :
  byte_and (byte_or a (byte_not m)) m = byte_and a m.
Proof. byte_bits. Qed.

Lemma and_or_not_host (a m : byte) :
  byte_and (byte_or a (byte_not m)) (byte_not m) = byte_not m.
Proof. byte_bits. Qed.

Lemma or_or_not (a m : byte) :
  byte_or (byte_or a (byte_not m)) (byte_not m) = byte_or a (byte_not m).
Proof. byte_bits. Qed.

Lemma BroadcastAddr_value (ipNet : IPNet) (ip : list byte) :
  To4 (IP ipNet) = Some ip ->
  (4 <= length (Mask ipNet))%nat ->
  BroadcastAddr ipNet = Ret (Some (or_not ip (firstn 4 (Mask ipNet)))).
Proof.
  intros Hto4 Hmask. pose proof (To4_length _ _ Hto4) as Hlen.
  unfold BroadcastAddr. rewrite Hto4.
  rewrite broadcast_loop_ok by lia. cbn [bind skipn]. now rewrite Hlen.
Qed.

Lemma broadcast_loop_short (mask : list byte) :
  forall ip i,
    (length mask < i + length ip)%nat ->
    (0 < length ip)%nat ->
    broadcast_loop ip mask i = Fault.
Proof.
  induction ip as [|b ip IH]; intros i Hlen Hpos; cbn in *; [lia|].
  unfold index. destruct (nth_error mask i) as [m|] eqn:E; [|reflexivity].
  cbn [bind]. destruct ip as [|b' ip'].
  - assert (i < length mask)%nat by (apply nth_error_Some; congruence).
    cbn in *; lia.
  - rewrite IH; cbn in *; [reflexivity | lia | lia].
Qed.

Lemma or_not_length (ip mask : list byte) :
  length ip = length mask -> length (or_not ip mask) = length ip.
Proof.
  intros H. unfold or_not. rewrite length_map, length_combine, <- H. apply Nat.min_id.
Qed.

Lemma or_not_network (ip : list byte) :
  forall mask, length ip = length mask ->
               and_bytes (or_not ip mask) mask = and_bytes ip mask.
Proof.
  unfold and_bytes, or_not.
  induction ip as [|a ip IH]; intros [|m mask] H; try discriminate H; [reflexivity|].
  cbn [combine map fst snd]. rewrite and_or_not_mask. f_equal. apply IH.
  now injection H.
Qed.

Lemma or_not_host (ip : list byte) :
  forall mask, length ip = length mask ->
               and_bytes (or_not ip mask) (map byte_not mask) = map byte_not mask.
Proof.
  unfold and_bytes, or_not.
  induction ip as [|a ip IH]; intros [|m mask] H; try discriminate H; [reflexivity|].
  cbn [combine map fst snd]. rewrite and_or_not_host. f_equal. apply IH.
  now injection H.
Qed.

Lemma or_not_again (ip : list byte) :
  forall mask, length ip = length mask ->
               or_not (or_not ip mask) mask = or_not ip mask.
Proof.
  unfold or_not.
  induction ip as [|a ip IH]; intros [|m mask] H; try discriminate H; [reflexivity|].
  cbn [combine map fst snd]. rewrite or_or_not. f_equal. apply IH.
  now injection H.
Qed.

Lemma To4_four (ip : list byte) : length ip = 4%nat -> To4 ip = Some ip.
Proof. intros H. unfold To4. now rewrite H. Qed.

(** X1. With a four-byte mask the broadcast address agrees with the IP
    on the bits of the mask and has every other bit set. *)
Lemma BroadcastAddr_bits (ipNet : IPNet) (ip : list byte) :
  To4 (IP ipNet) = Some ip ->
  length (Mask ipNet) = 4%nat ->
  exists bc,
    BroadcastAddr ipNet = Ret (Some bc)
    /\ length bc = 4%nat
    /\ and_bytes bc (Mask ipNet) = and_bytes ip (Mask ipNet)
    /\ and_bytes bc (map byte_not (Mask ipNet)) = map byte_not (Mask ipNet).
Proof.
  intros H4 Hm. pose proof (To4_length _ _ H4) as Hlen.
  exists (or_not ip (Mask ipNet)).
  assert (Hf : firstn 4 (Mask ipNet) = Mask ipNet) by (apply firstn_all2; lia).
  split.
  { rewrite (BroadcastAddr_value ipNet ip H4) by lia. now rewrite Hf. }
  split; [rewrite or_not_length; congruence|].
  split; [apply or_not_network | apply or_not_host]; congruence.
Qed.

(** X2. The broadcast address of a network is its own broadcast
    address. *)
Lemma BroadcastAddr_idempotent (ipNet : IPNet) (bc : list byte) :
  length (Mask ipNet) = 4%nat ->
  BroadcastAddr ipNet = Ret (Some bc) ->
  BroadcastAddr (mkIPNet bc (Mask ipNet)) = Ret (Some bc).
Proof.
  intros Hm Hb.
  destruct (To4 (IP ipNet)) as [ip|] eqn:H4.
  2:{ unfold BroadcastAddr in Hb. rewrite H4 in Hb. discriminate Hb. }
  pose proof (To4_length _ _ H4) as Hlen.
  assert (Hf : firstn 4 (Mask ipNet) = Mask ipNet) by (apply firstn_all2; lia).
  rewrite (BroadcastAddr_value ipNet ip H4), Hf in Hb by lia.
  assert (E : bc = or_not ip (Mask ipNet)) by congruence.
  assert (Hbl : length bc = 4%nat) by (rewrite E, or_not_length; congruence).
  rewrite (BroadcastAddr_value (mkIPNet bc (Mask ipNet)) bc); cbn [IP Mask];
    [|now apply To4_four | lia].
  rewrite Hf, E, or_not_again by congruence. reflexivity.
Qed.

(** X3. [BroadcastAddr] answers [nil] exactly when the IP has no
    four-byte form, and indexes past the end of the mask exactly when
    the IP has one and the mask is shorter than four bytes. *)
Lemma BroadcastAddr_failures (ipNet : IPNet) :
  (BroadcastAddr ipNet = Ret None <-> To4 (IP ipNet) = None)
  /\ (BroadcastAddr ipNet = Fault
      <-> To4 (IP ipNet) <> None /\ (length (Mask ipNet) < 4)%nat).
Proof.
  destruct (To4 (IP ipNet)) as [ip|] eqn:H4.
  - pose proof (To4_length _ _ H4) as Hlen.
    destruct (Nat.lt_ge_cases (length (Mask ipNet)) 4) as [Hs|Hl].
    + assert (Hf : BroadcastAddr ipNet = Fault).
      { unfold BroadcastAddr. rewrite H4, broadcast_loop_short by lia. reflexivity. }
      rewrite Hf. split; split; try discriminate; [intros _|reflexivity].
      split; [discriminate | exact Hs].
    + rewrite (BroadcastAddr_value ipNet ip H4 Hl).
      split; split; try discriminate. intros [_ H]. lia.
  - assert (Hn : BroadcastAddr ipNet = Ret None).
    { unfold BroadcastAddr. now rewrite H4. }
    rewrite Hn. split; split; try discriminate; try reflexivity.
    intros [H _]. now contradiction H.
Qed.

Lemma BroadcastAddr_bits_witness :
  exists bc,
    BroadcastAddr (mkIPNet [xc0; xa8; x05; x25] [xff; xff; xfc; x00]) = Ret (Some bc)
    /\ length bc = 4%nat
    /\ and_bytes bc [xff; xff; xfc; x00] = [xc0; xa8; x04; x00]
    /\ and_bytes bc [x00; x00; x03; xff] = [x00; x00; x03; xff].
Proof.
  exact (BroadcastAddr_bits (mkIPNet [xc0; xa8; x05; x25] [xff; xff; xfc; x00])
                            [xc0; xa8; x05; x25] eq_refl eq_refl).
Defined.

Lemma BroadcastAddr_idempotent_witness :
  BroadcastAddr (mkIPNet [xc0; xa8; x07; xff] [xff; xff; xfc; x00])
  = Ret (Some [xc0; xa8; x07; xff]).
Proof.
  exact (BroadcastAddr_idempotent (mkIPNet [xc0; xa8; x05; x25] [xff; xff; xfc; x00])
                                  [xc0; xa8; x07; xff] eq_refl eq_refl).
Defined.

End WolMore.

(* ================================================================== *)
(** * Package net: the text forms of addresses *)
(* ================================================================== *)

Module NetText.
Import Go GoNet GoStrings.

(** [hexDigit[n]] for [n] below 16. *)
Definition hexDigit (n : Z) : ascii :=
  if (n <? 10)%Z then chr (48 + n) else chr (97 + (n - 10)).

(** The two characters [hexDigit[b>>4]], [hexDigit[b&0xF]]. *)
Definition hexByte (b : byte) : string :=
  String (hexDigit (Z.shiftr (byte_val b) 4))
         (String (hexDigit (Z.land (byte_val b) 0xF)) "").

(** The loop of [HardwareAddr.String], [i] being the index of the head. *)
Fixpoint hwLoop (i : nat) (a : list byte) (buf : string) : string :=
  match a with
  | [] => buf
  | b :: rest =>
      let buf := if (0 <? i)%nat then (buf ++ ":")%string else buf in
      hwLoop (S i) rest (buf ++ hexByte b)%string
  end.

(** [net.HardwareAddr.String]. *)
Definition HardwareAddrString (a : list byte) : string :=
  if (length a =? 0)%nat then "" else hwLoop 0 a "".

(** A number below 256 in decimal, without leading zeros. *)
Definition digit (n : nat) : ascii := ascii_of_nat (48 + n).

Definition decimalByte (b : byte) : string :=
  let n := Byte.to_nat b in
  if (n <? 10)%nat then String (digit n) ""
  else if (n <? 100)%nat then String (digit (n / 10)) (String (digit (n mod 10)) "")
  else String (digit (n / 100))
              (String (digit ((n / 10) mod 10)) (String (digit (n mod 10)) "")).

(** [net.IP.String] for an address with a four-byte form: dotted
    decimal. The text of any other address is not needed here. *)
Definition IPv4String (ip : list byte) : option string :=
  match To4 ip with
  | Some [a; b; c; d] =>
      Some (decimalByte a ++ "." ++ decimalByte b ++ "." ++ decimalByte c
            ++ "." ++ decimalByte d)%string
  | _ => None
  end.

(** [net.IP.String]; [otherForms] is the text of an address without a
    four-byte form. *)
Definition IPString (otherForms : list byte -> string) (ip : list byte) : string :=
  match IPv4String ip with
  | Some text => text
  | None => otherForms ip
  end.

(** The text of a non-empty address: the first byte, then a colon and a
    byte for each of the others. *)
Fixpoint colonTail (a : list byte) : string :=
  match a with
  | [] => ""
  | b :: rest => (":" ++ hexByte b ++ colonTail rest)%string
  end.

(** ** Facts *)

Lemma xtoi2_hexByte (b : byte) (rest : string) (sep : ascii) :
  match rest with
  | EmptyString => True
  | String c _ => c = sep
  end ->
  xtoi2 (hexByte b ++ rest) sep = Some b.
Proof.
  intros Hrest. unfold hexByte. cbn [String.append xtoi2].
  replace (match rest with
           | EmptyString => true
           | String c2 _ => Ascii.eqb c2 sep
           end) with true
    by (destruct rest; [reflexivity | subst; now rewrite Ascii.eqb_refl]).
  destruct b; reflexivity.
Qed.

Lemma drop_append (a b : string) : drop (String.length a) (a ++ b) = b.
Proof.
  unfold drop. rewrite length_append.
  replace (String.length a + String.length b - String.length a)%nat
    with (String.length b) by lia.
  induction a as [|c a IH]; cbn; [apply substring_all | exact IH].
Qed.

Lemma hwLoop_tail (a : list byte) :
  forall i buf, hwLoop (S i) a buf = (buf ++ colonTail a)%string.
Proof.
  induction a as [|b a IH]; intros i buf; cbn [hwLoop colonTail].
  - clear. induction buf as [|c buf IHb]; cbn; [reflexivity | now rewrite <- IHb].
  - rewrite IH. cbn [Nat.ltb Nat.leb].
    now rewrite !string_append_assoc.
Qed.

Lemma HardwareAddrString_cons (b : byte) (rest : list byte) :
  HardwareAddrString (b :: rest) = (hexByte b ++ colonTail rest)%string.
Proof.
  unfold HardwareAddrString. cbn [length Nat.eqb hwLoop Nat.ltb Nat.leb].
  now rewrite hwLoop_tail.
Qed.

Lemma parse_groups3_step (n : nat) (s : string) (sep : ascii) :
  parse_groups3 (S n) s sep =
  match xtoi2 s sep with
  | None => None
  | Some b =>
      match parse_groups3 n (drop 3 s) sep with
      | None => None
      | Some bs => Some (b :: bs)
      end
  end.
Proof. reflexivity. Qed.

Lemma parse_groups3_text (rest : list byte) :
  forall b, parse_groups3 (S (length rest)) (hexByte b ++ colonTail rest) ":"
            = Some (b :: rest).
Proof.
  induction rest as [|b' rest IH]; intros b; rewrite parse_groups3_step.
  - rewrite xtoi2_hexByte by exact I. reflexivity.
  - rewrite xtoi2_hexByte by reflexivity.
    cbn [colonTail length].
    assert (Hd : drop 3 (hexByte b ++ ":" ++ hexByte b' ++ colonTail rest)
                 = (hexByte b' ++ colonTail rest)%string)
      by exact (drop_append (hexByte b ++ ":") (hexByte b' ++ colonTail rest)).
    rewrite Hd, IH. reflexivity.
Qed.

(** Parsing the text of a six-byte address gives the address back. *)
Lemma ParseMAC_text6 (mac : list byte) :
  length mac = 6%nat -> ParseMAC (HardwareAddrString mac) = Some mac.
Proof.
  intros H.
  destruct mac as [|a [|b [|c [|d [|e [|f [|g mac]]]]]]]; try discriminate.
  rewrite HardwareAddrString_cons.
  rewrite <- (parse_groups3_text [b; c; d; e; f] a).
  reflexivity.
Qed.

(** X4. Parsing the text [HardwareAddr.String] gives for an address of
    6, 8 or 20 bytes (the lengths [ParseMAC] accepts) returns the
    address. *)
Lemma ParseMAC_HardwareAddrString (mac : list byte) :
  mac_size_ok (length mac) = true ->
  ParseMAC (HardwareAddrString mac) = Some mac.
Proof.
  intros H.
  assert (Hlen : length mac = 6%nat \/ length mac = 8%nat \/ length mac = 20%nat).
  { unfold mac_size_ok in H. apply orb_true_iff in H as [H|H];
      [apply orb_true_iff in H as [H|H]|]; apply Nat.eqb_eq in H; auto. }
  clear H. destruct Hlen as [H|[H|H]].
  - now apply ParseMAC_text6.
  - destruct mac as [|a [|b [|c [|d [|e [|f [|g [|h [|i mac]]]]]]]]]; try discriminate.
    rewrite HardwareAddrString_cons.
    rewrite <- (parse_groups3_text [b; c; d; e; f; g; h] a).
    reflexivity.
  - do 20 (destruct mac as [|? mac]; [discriminate H|]).
    destruct mac; [|discriminate H].
    rewrite HardwareAddrString_cons.
    match goal with
    | |- ParseMAC (hexByte ?a ++ colonTail ?rest) = _ =>
        rewrite <- (parse_groups3_text rest a)
    end.
    reflexivity.
Qed.

Lemma ParseMAC_HardwareAddrString_witness :
  ParseMAC (HardwareAddrString [x00; x1a; x2b; x3c; x4d; x5e; x6f; x70])
  = Some [x00; x1a; x2b; x3c; x4d; x5e; x6f; x70].
Proof.
  exact (ParseMAC_HardwareAddrString [x00; x1a; x2b; x3c; x4d; x5e; x6f; x70] eq_refl).
Defined.

End NetText.

(* ================================================================== *)
(** * probe: the NBSTAT query and the exchange (netbios.go) *)
(* ================================================================== *)

Module NbstatQuery.
Import Go GoStrings Nbstat.

(** [buildNBSTATQuery]: fifty zero bytes with the assignments of the
    source applied in order. *)
Definition buildNBSTATQuery : list byte :=
  let packet := repeat x00 50 in
  let packet := set_at packet 0 x00 in
  let packet := set_at packet 1 x01 in
  let packet := set_at packet 4 x00 in
  let packet := set_at packet 5 x01 in
  let packet := set_at packet 12 x20 in
  let packet := set_at packet 13 x43 in
  let packet := set_at packet 14 x4b in
  let packet :=
    fold_left (fun p i => set_at (set_at p (15 + i * 2) x43) (15 + i * 2 + 1) x41)
              (seq 0 15) packet in
  let packet := set_at packet 45 x00 in
  let packet := set_at packet 46 x00 in
  let packet := set_at packet 47 x21 in
  let packet := set_at packet 48 x00 in
  set_at packet 49 x01.




(** One entry of the name table on the wire. *)
Definition entry_bytes (e : NameEntry) : list byte :=
  ne_name e ++ [ne_suffix e;
                byte_of_Z (Z.shiftr (ne_flags e) 8);
                byte_of_Z (ne_flags e)].

Definition wire_entry (e : NameEntry) : Prop :=
  length (ne_name e) = 15%nat /\ (0 <= ne_flags e < 65536)%Z.

(** A reply that repeats the question of the query and answers it with a
    compressed name: header, question, pointer, ten bytes of record
    header, the count and the table. *)
Definition reply_to_query (header : list byte) (ptr_hi ptr_lo : byte)
           (rr : list byte) (count : byte) (es : list NameEntry) : list byte :=
  header ++ skipn 12 buildNBSTATQuery ++ [ptr_hi; ptr_lo] ++ rr ++ [count]
  ++ concat (map entry_bytes es).

(** ** Facts *)

Lemma buildNBSTATQuery_bytes :
  buildNBSTATQuery
  = [x00; x01; x00; x00; x00; x01; x00; x00; x00; x00; x00; x00]
    ++ encoded_wildcard ++ [x00; x21; x00; x01].
Proof. reflexivity. Qed.

Lemma flags_bytes (f : Z) :
  (0 <= f < 65536)%Z ->
  (byte_val (byte_of_Z (Z.shiftr f 8)) * 256 + byte_val (byte_of_Z f))%Z = f.
Proof.
  intros Hf. rewrite !byte_val_of_Z, Z.shiftr_div_pow2 by lia.
  change (2 ^ 8)%Z with 256%Z. Z.to_euclidean_division_equations. lia.
Qed.

Lemma entry_bytes_length (e : NameEntry) :
  wire_entry e -> length (entry_bytes e) = 18%nat.
Proof. intros [Hn _]. unfold entry_bytes. rewrite length_app, Hn. reflexivity. Qed.

Lemma entry_at_wire (pre rest : list byte) (e : NameEntry) :
  wire_entry e ->
  entry_at (pre ++ entry_bytes e ++ rest) (length pre) = Some e.
Proof.
  intros [Hn Hf]. unfold entry_at.
  replace (length pre + 18 <=? length (pre ++ entry_bytes e ++ rest))%nat with true.
  2:{ symmetry. apply Nat.leb_le. rewrite !length_app.
      rewrite (entry_bytes_length e (conj Hn Hf)). lia. }
  rewrite skipn_app, skipn_all, Nat.sub_diag. cbn [app skipn].
  rewrite !app_nth2_plus.
  unfold entry_bytes. rewrite <- app_assoc.
  rewrite firstn_app, Hn, firstn_all2 by lia.
  replace (15 - 15)%nat with 0%nat by lia. cbn [firstn]. rewrite app_nil_r.
  replace 17%nat with (length (ne_name e) + 2)%nat by lia.
  replace 16%nat with (length (ne_name e) + 1)%nat by lia.
  replace (@nth byte 15) with (@nth byte (length (ne_name e) + 0)) by (now rewrite Hn).
  rewrite !app_nth2_plus. cbn [nth app]. rewrite (flags_bytes _ Hf).
  destruct e; reflexivity.
Qed.

(** The table read back from the wire: the first [n] entries. *)
Lemma entries_wire (es : list NameEntry) :
  Forall wire_entry es ->
  forall n pre,
    entries n (pre ++ concat (map entry_bytes es)) (length pre) = firstn n es.
Proof.
  induction 1 as [|e es He Hes IH]; intros n pre.
  - destruct n; [reflexivity|]. cbn [map concat entries firstn]. unfold entry_at.
    replace (length pre + 18 <=? length (pre ++ []))%nat with false; [reflexivity|].
    symmetry. apply Nat.leb_gt. rewrite length_app. cbn. lia.
  - destruct n; [reflexivity|]. cbn [map concat entries firstn].
    rewrite (entry_at_wire pre _ e He).
    specialize (IH n (pre ++ entry_bytes e)).
    rewrite length_app, (entry_bytes_length e He), <- app_assoc in IH.
    now rewrite IH.
Qed.

Lemma skipLabels_question (data : list byte) (fuel : nat) :
  nth_error data 12 = Some x20 ->
  nth_error data 45 = Some x00 ->
  skipLabels (S (S fuel)) data 12 = Ret 45%nat.
Proof.
  intros H12 H45.
  assert (Hlen : (45 < length data)%nat) by (apply nth_error_Some; congruence).
  cbn [skipLabels].
  replace (12 <? length data)%nat with true by (symmetry; apply Nat.ltb_lt; lia).
  unfold byte_at, index. rewrite H12. cbn [bind].
  change (Byte.to_nat x20 =? 0)%nat with false. cbn iota.
  change (12 + (Byte.to_nat x20 + 1))%nat with 45%nat.
  replace (45 <? length data)%nat with true by (symmetry; apply Nat.ltb_lt; lia).
  rewrite H45. reflexivity.
Qed.

(** The header walk on a buffer whose question is one 32-byte label and
    whose answer name is a compression pointer. *)
Lemma name_table_pointer (data : list byte) (ptr count : byte) :
  nth_error data 12 = Some x20 ->
  nth_error data 45 = Some x00 ->
  nth_error data 50 = Some ptr ->
  (Z.land (byte_val ptr) 0xC0 =? 0xC0)%Z = true ->
  nth_error data 62 = Some count ->
  name_table data = Ret (Some (Byte.to_nat count, 63%nat)).
Proof.
  intros H12 H45 H50 Hp H62.
  assert (Hlen : (62 < length data)%nat) by (apply nth_error_Some; congruence).
  unfold name_table.
  destruct (length data) as [|len] eqn:El; [lia|].
  rewrite (skipLabels_question data len H12 H45). cbn [bind].
  change (45 + 1 + 4)%nat with 50%nat.
  replace (S len <=? 50)%nat with false by (symmetry; apply Nat.leb_gt; lia).
  unfold index at 1. rewrite H50. cbn [bind]. rewrite Hp. cbn [bind].
  change (50 + 2 + 10)%nat with 62%nat.
  replace (S len <=? 62)%nat with false by (symmetry; apply Nat.leb_gt; lia).
  unfold byte_at, index. rewrite H62. reflexivity.
Qed.

Lemma name_table_reply (header : list byte) (ptr_hi ptr_lo : byte)
      (rr : list byte) (count : byte) (es : list NameEntry) :
  length header = 12%nat ->
  (Z.land (byte_val ptr_hi) 0xC0 =? 0xC0)%Z = true ->
  length rr = 10%nat ->
  name_table (reply_to_query header ptr_hi ptr_lo rr count es)
  = Ret (Some (Byte.to_nat count, 63%nat)).
Proof.
  intros Hh Hp Hr.
  destruct header as [|h0 [|h1 [|h2 [|h3 [|h4 [|h5 [|h6 [|h7 [|h8 [|h9 [|h10
    [|h11 [|h12 header]]]]]]]]]]]]]; try discriminate.
  destruct rr as [|r0 [|r1 [|r2 [|r3 [|r4 [|r5 [|r6 [|r7 [|r8 [|r9 [|r10 rr]]]]]]]]]]];
    try discriminate.
  apply (name_table_pointer _ ptr_hi count); try reflexivity. exact Hp.
Qed.

Lemma length_string_of_list_byte (l : list byte) :
  String.length (string_of_list_byte l) = length l.
Proof.
  unfold string_of_list_byte. induction l as [|b l IH]; cbn; [reflexivity | now rewrite IH].
Qed.

Lemma length_trimRightBy p (s : string) :
  (String.length (trimRightBy p s) <= String.length s)%nat.
Proof.
  induction s as [|c s IH]; cbn; [lia|].
  destruct (trimRightBy p s); [destruct (p c)|]; cbn in *; lia.
Qed.

Lemma entries_name_length (data : list byte) :
  forall n off e, In e (entries n data off) -> length (ne_name e) = 15%nat.
Proof.
  induction n as [|n IH]; intros off e Hin; [contradiction|].
  cbn [entries] in Hin. unfold entry_at in Hin.
  destruct (Nat.leb_spec (off + 18) (length data)) as [Hle|]; [|contradiction].
  destruct Hin as [<-|Hin]; [|eapply IH; eassumption].
  cbn [ne_name]. rewrite length_firstn, length_skipn. lia.
Qed.

(** A name found in a table has at most fifteen bytes and ends neither
    in a space nor in a NUL. *)
Lemma first_unique_name_shape (es : list NameEntry) :
  (forall e, In e es -> length (ne_name e) = 15%nat) ->
  (String.length (first_unique_name es) <= 15)%nat
  /\ lastSatisfies (fun c => mem c name_cutset) (first_unique_name es) = false.
Proof.
  intros Hlen. unfold first_unique_name.
  destruct (find unique_workstation es) as [e|] eqn:E; [|split; [cbn; lia | reflexivity]].
  apply find_some in E as [Hin _]. unfold trimmed_name, TrimRight. split.
  - etransitivity; [apply length_trimRightBy|].
    rewrite length_string_of_list_byte, (Hlen e Hin). lia.
  - apply trimRightBy_last.
Qed.

(** X6. A name the parser returns has at most fifteen bytes and ends
    neither in a space nor in a NUL. *)
Lemma parse_shape (data : list byte) (name : string) :
  parseNBSTATResponse data = Ret name ->
  (String.length name <= 15)%nat
  /\ lastSatisfies (fun c => mem c name_cutset) name = false.
Proof.
  destruct (Nat.ltb_spec (length data) 57) as [Hshort|Hlong].
  - unfold parseNBSTATResponse.
    replace (length data <? 57)%nat with true by (symmetry; now apply Nat.ltb_lt).
    intros [= <-]. split; [cbn; lia | reflexivity].
  - rewrite (parse_by_table data Hlong).
    destruct (name_table_total data Hlong) as [[[n off]|] Ht]; rewrite Ht; cbn [bind].
    + intros [= <-]. apply first_unique_name_shape.
      intros e. apply entries_name_length.
    + intros [= <-]. split; [cbn; lia | reflexivity].
Qed.

(** The header walk on a buffer that holds a 32-byte label at offset 12,
    its terminator at 45 and a zero byte where the second name starts. *)
Lemma name_table_empty_second_name (data : list byte) (count : byte) :
  nth_error data 12 = Some x20 ->
  nth_error data 45 = Some x00 ->
  nth_error data 50 = Some x00 ->
  nth_error data 61 = Some count ->
  name_table data = Ret (Some (Byte.to_nat count, 62%nat)).
Proof.
  intros H12 H45 H50 H61.
  assert (Hlen : (61 < length data)%nat) by (apply nth_error_Some; congruence).
  unfold name_table.
  destruct (length data) as [|len] eqn:El; [lia|].
  rewrite (skipLabels_question data len H12 H45). cbn [bind].
  change (45 + 1 + 4)%nat with 50%nat.
  replace (S len <=? 50)%nat with false by (symmetry; apply Nat.leb_gt; lia).
  unfold index at 1. rewrite H50. cbn [bind].
  change (Z.land (byte_val x00) 192 =? 192)%Z with false. cbn iota.
  cbn [skipLabels]. rewrite <- El.
  replace (50 <? length data)%nat with true by (symmetry; apply Nat.ltb_lt; lia).
  unfold byte_at at 1, index at 1. rewrite H50. cbn [bind].
  change (Byte.to_nat x00 =? 0)%nat with true. cbn iota. cbn [bind].
  change (50 + 1 + 10)%nat with 61%nat.
  replace (length data <=? 61)%nat with false by (symmetry; apply Nat.leb_gt; lia).
  unfold byte_at, index. rewrite H61. reflexivity.
Qed.


Lemma reply_to_query_length (header : list byte) (ptr_hi ptr_lo : byte)
      (rr : list byte) (count : byte) (es : list NameEntry) :
  length header = 12%nat -> length rr = 10%nat ->
  length (header ++ skipn 12 buildNBSTATQuery ++ [ptr_hi; ptr_lo] ++ rr ++ [count])
  = 63%nat.
Proof.
  intros Hh Hr. rewrite !length_app, Hh, Hr. reflexivity.
Qed.

(** X5. A reply that echoes the question of [buildNBSTATQuery], names
    the answer by a compression pointer and carries the table [es] is
    read back as the first unique workstation name among the first
    [count] entries. *)
Lemma parse_reply_to_query (header : list byte) (ptr_hi ptr_lo : byte)
      (rr : list byte) (count : byte) (es : list NameEntry) :
  length header = 12%nat ->
  (Z.land (byte_val ptr_hi) 0xC0 =? 0xC0)%Z = true ->
  length rr = 10%nat ->
  Forall wire_entry es ->
  parseNBSTATResponse (reply_to_query header ptr_hi ptr_lo rr count es)
  = Ret (first_unique_name (firstn (Byte.to_nat count) es)).
Proof.
  intros Hh Hp Hr Hes.
  pose proof (reply_to_query_length header ptr_hi ptr_lo rr count es Hh Hr) as Hpre.
  assert (Hshape : reply_to_query header ptr_hi ptr_lo rr count es
    = (header ++ skipn 12 buildNBSTATQuery ++ [ptr_hi; ptr_lo] ++ rr ++ [count])
      ++ concat (map entry_bytes es)).
  { unfold reply_to_query. now rewrite <- !app_assoc. }
  rewrite parse_by_table.
  2:{ rewrite Hshape, length_app, Hpre. lia. }
  rewrite (name_table_reply header ptr_hi ptr_lo rr count es Hh Hp Hr). cbn [bind].
  rewrite Hshape.
  pose proof (entries_wire es Hes (Byte.to_nat count)
                (header ++ skipn 12 buildNBSTATQuery ++ [ptr_hi; ptr_lo] ++ rr ++ [count]))
    as E.
  rewrite Hpre in E. now rewrite E.
Qed.


(** X8. When the byte where the answer name starts is zero (a name
    written out, and empty) the parser steps over it as one byte: the
    count is read at offset 61 and the table starts at 62, one byte
    earlier than after a compression pointer. *)
Lemma parse_reply_empty_answer_name (pre : list byte) (count : byte)
      (es : list NameEntry) :
  length pre = 62%nat ->
  nth_error pre 12 = Some x20 ->
  nth_error pre 45 = Some x00 ->
  nth_error pre 50 = Some x00 ->
  nth_error pre 61 = Some count ->
  Forall wire_entry es ->
  parseNBSTATResponse (pre ++ concat (map entry_bytes es))
  = Ret (first_unique_name (firstn (Byte.to_nat count) es)).
Proof.
  intros Hl H12 H45 H50 H61 Hes.
  assert (Hn : forall i b, nth_error pre i = Some b ->
                           nth_error (pre ++ concat (map entry_bytes es)) i = Some b).
  { intros i b H. rewrite nth_error_app1; [exact H|]. apply nth_error_Some. congruence. }
  rewrite parse_by_table by (rewrite length_app; lia).
  rewrite (name_table_empty_second_name _ count (Hn _ _ H12) (Hn _ _ H45) (Hn _ _ H50)
             (Hn _ _ H61)).
  cbn [bind]. pose proof (entries_wire es Hes (Byte.to_nat count) pre) as E.
  rewrite Hl in E. now rewrite E.
Qed.

Definition workgroup_entry : NameEntry :=
  mkNameEntry [x57; x4f; x52; x4b; x47; x52; x4f; x55; x50; x20; x20; x20; x20; x20; x20]
              x00 0x8400.

Definition workstation_entry : NameEntry :=
  mkNameEntry [x50; x43; x2d; x31; x20; x20; x20; x20; x20; x20; x20; x20; x20; x20; x20]
              x00 0x0400.

Lemma wire_entries_example : Forall wire_entry [workgroup_entry; workstation_entry].
Proof.
  repeat constructor; cbn; lia.
Defined.

Lemma parse_reply_to_query_witness :
  parseNBSTATResponse
    (reply_to_query [x00; x01; x84; x00; x00; x00; x00; x01; x00; x00; x00; x00]
                    xc0 x0c [x00; x21; x00; x01; x00; x00; x00; x00; x00; x41]
                    x02 [workgroup_entry; workstation_entry])
  = Ret (first_unique_name (firstn 2 [workgroup_entry; workstation_entry])).
Proof.
  exact (parse_reply_to_query
           [x00; x01; x84; x00; x00; x00; x00; x01; x00; x00; x00; x00]
           xc0 x0c [x00; x21; x00; x01; x00; x00; x00; x00; x00; x41]
           x02 [workgroup_entry; workstation_entry]
           eq_refl eq_refl eq_refl wire_entries_example).
Defined.

Lemma parse_shape_witness :
  (String.length "WORKSTATION" <= 15)%nat
  /\ lastSatisfies (fun c => mem c name_cutset) "WORKSTATION" = false.
Proof.
  exact (parse_shape canned_response "WORKSTATION" eq_refl).
Defined.

(** Sixty-two bytes: header, the question of the query, an empty answer
    name, ten bytes of record header and the count 2. *)
Definition reply_head_empty_name : list byte :=
  [x00; x01; x84; x00; x00; x00; x00; x01; x00; x00; x00; x00]
  ++ skipn 12 buildNBSTATQuery
  ++ [x00] ++ [x00; x21; x00; x01; x00; x00; x00; x00; x00; x41] ++ [x02].

Lemma parse_reply_empty_answer_name_witness :
  parseNBSTATResponse
    (reply_head_empty_name ++ concat (map entry_bytes [workgroup_entry; workstation_entry]))
  = Ret (first_unique_name (firstn 2 [workgroup_entry; workstation_entry])).
Proof.
  exact (parse_reply_empty_answer_name reply_head_empty_name x02
           [workgroup_entry; workstation_entry]
           eq_refl eq_refl eq_refl eq_refl eq_refl wire_entries_example).
Defined.

End NbstatQuery.

(* ================================================================== *)
(** * probe: the sub-probes that dial the host (prober.go, http.go) *)
(* ================================================================== *)

Module SubProbes.
Import GoStrings Banner OsDetect.

(** [strings.TrimSuffix(s, suffix)]. *)
Definition TrimSuffix (s suffix : string) : string :=
  if HasSuffix s suffix
  then substring 0 (String.length s - String.length suffix) s
  else s.

(** [ReverseDNS(ip)], given the answer of [net.LookupAddr] ([None] for
    an error). *)
Definition ReverseDNS (lookupAddr : string -> option (list string)) (ip : string)
  : string :=
  match lookupAddr ip with
  | None => ""
  | Some [] => ""
  | Some (name :: _) => TrimSuffix name "."
  end.




(** [GrabBanner(ctx, ip, port, timeout)], given what the connection
    yields: [None] when the dial fails, otherwise the bytes of the first
    read (none on a timeout). The read buffer holds 1024 bytes. *)
Definition GrabBanner (greeting : string -> Z -> option string) (ip : string)
           (port : Z) : string :=
  match greeting ip port with
  | None => ""
  | Some data =>
      let received := substring 0 1024 data in
      if (String.length received =? 0)%nat then ""
      else sanitizeBanner received
  end.


(** [l] is an initial segment of [l']. *)
Definition is_prefix (l l' : list Z) : Prop := exists rest, l' = l ++ rest.

(** ** Facts *)



Lemma ttlLoop_prefix (env : TTLEnv) (ip : string) (ports : list Z) :
  forall k, is_prefix (snd (ttlLoop env ip ports k)) ports.
Proof.
  induction ports as [|port rest IH]; intros k; cbn [ttlLoop].
  - exists []. reflexivity.
  - destruct (ctx_done env k); [exists (port :: rest); reflexivity|].
    destruct (getTTL env k ip port <=? 0)%Z.
    + specialize (IH (S k)). destruct (ttlLoop env ip rest (S k)) as [os d].
      destruct IH as [r Hr]. exists r. cbn in *. now rewrite Hr.
    + exists rest. reflexivity.
Qed.

Lemma classifyTTL_values (ttl : Z) :
  classifyTTL ttl = "" \/ classifyTTL ttl = OSLinux \/ classifyTTL ttl = OSWindows.
Proof.
  unfold classifyTTL.
  destruct (ttl <=? 0)%Z; [now left|].
  destruct (ttl <=? 64)%Z; [now right; left|].
  destruct (ttl <=? 128)%Z; [now right; right | now right; left].
Qed.

Lemma ttlLoop_values (env : TTLEnv) (ip : string) (ports : list Z) :
  forall k, let os := fst (ttlLoop env ip ports k) in
            os = "" \/ os = OSLinux \/ os = OSWindows.
Proof.
  induction ports as [|port rest IH]; intros k; cbn [ttlLoop].
  - now left.
  - destruct (ctx_done env k); [now left|].
    destruct (getTTL env k ip port <=? 0)%Z.
    + specialize (IH (S k)). destruct (ttlLoop env ip rest (S k)). exact IH.
    + apply classifyTTL_values.
Qed.


Lemma TrimSuffix_append (s suffix : string) :
  TrimSuffix (s ++ suffix) suffix = s.
Proof.
  unfold TrimSuffix. rewrite HasSuffix_append, length_append.
  replace (String.length s + String.length suffix - String.length suffix)%nat
    with (String.length s) by lia.
  induction s as [|c s IH]; cbn.
  - destruct suffix; reflexivity.
  - now rewrite IH.
Qed.

Lemma IndexAny_none (s chars : string) :
  str_forall (fun c => negb (mem c chars)) s = true -> IndexAny s chars = (-1)%Z.
Proof.
  induction s as [|c s IH]; cbn [IndexAny str_forall]; [reflexivity|].
  intros H. apply andb_true_iff in H as [Hc Hs].
  apply negb_true_iff in Hc. rewrite Hc, (IH Hs). reflexivity.
Qed.

Lemma str_filter_all (p : ascii -> bool) (s : string) :
  str_forall p s = true -> str_filter p s = s.
Proof.
  induction s as [|c s IH]; cbn [str_filter str_forall]; [reflexivity|].
  intros H. apply andb_true_iff in H as [Hc Hs]. now rewrite Hc, (IH Hs).
Qed.

Lemma trimLeftBy_id (p : ascii -> bool) (s : string) :
  firstSatisfies p s = false -> trimLeftBy p s = s.
Proof. destruct s as [|c s]; cbn; [reflexivity|]. now intros ->. Qed.

Lemma trimRightBy_id (p : ascii -> bool) (s : string) :
  lastSatisfies p s = false -> trimRightBy p s = s.
Proof.
  induction s as [|c s IH]; [reflexivity|].
  cbn [trimRightBy lastSatisfies]. destruct s as [|d s].
  - cbn. now intros ->.
  - intros H. rewrite (IH H). reflexivity.
Qed.

(** A text of at most 120 printable bytes without white space at either
    end passes through the sanitizer unchanged. *)
Lemma sanitizeBanner_fixed (s : string) :
  str_forall printable_char s = true ->
  firstSatisfies asciiSpace s = false ->
  lastSatisfies asciiSpace s = false ->
  (String.length s <= 120)%nat ->
  sanitizeBanner s = s.
Proof.
  intros Hp Hf Hl Hlen.
  assert (Ht : trimmed s = s).
  { unfold trimmed, firstLine, TrimSpace.
    rewrite (IndexAny_none s _ (printable_not_crlf s Hp)). cbn [Z.leb Z.compare].
    rewrite writePrintable_runes, (str_filter_all _ s Hp).
    now rewrite (trimLeftBy_id _ s Hf), (trimRightBy_id _ s Hl). }
  unfold sanitizeBanner. rewrite Ht.
  now replace (120 <? String.length s)%nat with false
    by (symmetry; apply Nat.ltb_ge; exact Hlen).
Qed.

Lemma sanitizeBanner_length (raw : string) :
  (String.length (sanitizeBanner raw) <= 120)%nat.
Proof.
  destruct (sanitizeBanner_cases raw) as [(_ & -> & H)|(_ & _ & H)]; [exact H|].
  rewrite H. lia.
Qed.

(** X15. Sanitizing twice is sanitizing once. *)
Lemma sanitizeBanner_idempotent (raw : string) :
  sanitizeBanner (sanitizeBanner raw) = sanitizeBanner raw.
Proof.
  destruct (sanitizeBanner_no_outer_space raw) as [Hf Hl].
  apply sanitizeBanner_fixed;
    [apply sanitizeBanner_printable | exact Hf | exact Hl | apply sanitizeBanner_length].
Qed.

(** X16. The banner of a port: empty when the dial fails or nothing is
    read, otherwise the sanitized form of the first 1024 bytes received;
    in every case at most 120 printable bytes that the sanitizer would
    leave alone. *)
Lemma GrabBanner_sanitized (greeting : string -> Z -> option string)
      (ip : string) (port : Z) :
  let banner := GrabBanner greeting ip port in
  match greeting ip port with
  | None => banner = ""
  | Some data => banner = sanitizeBanner (substring 0 1024 data)
  end
  /\ (String.length banner <= 120)%nat
  /\ str_forall printable_char banner = true
  /\ sanitizeBanner banner = banner.
Proof.
  cbv zeta.
  assert (E : GrabBanner greeting ip port
              = match greeting ip port with
                | None => ""
                | Some data => sanitizeBanner (substring 0 1024 data)
                end).
  { unfold GrabBanner. destruct (greeting ip port) as [data|]; [|reflexivity].
    destruct (substring 0 1024 data) as [|c rest]; reflexivity. }
  rewrite E. destruct (greeting ip port) as [data|].
  - split; [reflexivity|]. split; [apply sanitizeBanner_length|].
    split; [apply sanitizeBanner_printable|].
    destruct (sanitizeBanner_no_outer_space (substring 0 1024 data)) as [Hf Hl].
    apply sanitizeBanner_fixed;
      [apply sanitizeBanner_printable | exact Hf | exact Hl | apply sanitizeBanner_length].
  - repeat split. cbn. lia.
Qed.

Lemma HasSuffix_split (s suffix : string) :
  HasSuffix s suffix = true -> s = (TrimSuffix s suffix ++ suffix)%string.
Proof.
  intros H. unfold TrimSuffix. rewrite H. unfold HasSuffix in H.
  apply andb_true_iff in H as [Hlen Heq].
  apply Nat.leb_le in Hlen. apply String.eqb_eq in Heq.
  rewrite (substring_split (String.length s - String.length suffix) s) at 1 by lia.
  replace (String.length s - (String.length s - String.length suffix))%nat
    with (String.length suffix) by lia.
  now rewrite Heq.
Qed.

(** X18. The name of a reverse lookup: empty when the lookup fails or
    answers no name; otherwise the first name, without its last byte
    when that is a dot (one dot only: of a name ending in two dots one
    is kept). *)
Lemma ReverseDNS_result (lookupAddr : string -> option (list string)) (ip : string) :
  match lookupAddr ip with
  | Some (name :: _) =>
      if HasSuffix name "."
      then name = (ReverseDNS lookupAddr ip ++ ".")%string
      else ReverseDNS lookupAddr ip = name
  | _ => ReverseDNS lookupAddr ip = ""
  end.
Proof.
  unfold ReverseDNS. destruct (lookupAddr ip) as [[|name others]|]; try reflexivity.
  destruct (HasSuffix name ".") eqn:E.
  - now apply HasSuffix_split.
  - unfold TrimSuffix. now rewrite E.
Qed.




End SubProbes.

(* ================================================================== *)
(** * probe: what the two classifiers can answer *)
(* ================================================================== *)

Module Verdicts.
Import GoStrings Fingerprinting OsDetect SubProbes.

(** The values [DetectOS] is declared to return. *)
Definition os_names : list string :=
  [OSWindows; OSLinux; OSMacOS; OSFreeBSD; OSAndroid; OSIOS].

(** The device types some rule of [fingerprint.go] answers. *)
Definition device_types : list string :=
  [TypeRouter; TypePhone; TypeDesktop; TypeServer; TypePrinter; TypeSmartTV;
   TypeNAS; TypeCamera; TypeSmartHome; TypeGameConsole].

(** A verdict of a stage: nothing, or one of [names]. *)
Definition verdict_of (names : list string) (v : string) : Prop :=
  v = "" \/ In v names.

(** Two port lists with the same members. *)
Definition same_ports (ports ports' : list Z) : Prop :=
  forall p, In p ports <-> In p ports'.

(** The banners [osFromBanners] looks at. *)
Definition generic_banners (banners : list (Z * string)) : list string :=
  map snd (filter (fun kv => negb (fst kv =? 22)%Z) banners).

(** ** Facts *)

Ltac pick :=
  right; unfold os_names, device_types; cbn [In];
  repeat (first [left; reflexivity | right]).

Lemma matchRules_dtype (rules : list rule) (text : string) :
  matchRules rules text = "" \/ In (matchRules rules text) (map dtype rules).
Proof.
  induction rules as [|r rules IH]; cbn [matchRules map]; [now left|].
  destruct (existsb (Contains text) (keywords r)).
  - right. now left.
  - destruct IH as [IH|IH]; [now left | right; now right].
Qed.

Lemma portSet_same (ports ports' : list Z) :
  same_ports ports ports' -> forall k, portSet ports k = portSet ports' k.
Proof.
  intros H k.
  destruct (portSet ports' k) eqn:E.
  - apply portSet_true_iff, H, portSet_true_iff, E.
  - destruct (portSet ports k) eqn:E'; [|reflexivity].
    apply portSet_true_iff, H, portSet_true_iff in E'. congruence.
Qed.

Section WithCaseTables.
Variable lower : string -> string.

Lemma osFromSSHBanner_verdict (banners : list (Z * string)) :
  verdict_of os_names (osFromSSHBanner lower banners).
Proof.
  unfold osFromSSHBanner.
  destruct (lookup banners 22) as [banner|]; [|now left].
  destruct (String.eqb banner ""); [now left|].
  destruct (existsb _ linuxHints); [pick|].
  destruct (Contains _ "freebsd"); [pick|].
  destruct (Contains _ "microsoft" || Contains _ "windows"); [pick|].
  destruct (Contains _ "openssh"); [pick | now left].
Qed.

Lemma osFromHTTPServer_verdict (server : string) :
  verdict_of os_names (osFromHTTPServer lower server).
Proof.
  unfold osFromHTTPServer.
  destruct (String.eqb server ""); [now left|].
  repeat match goal with
         | |- verdict_of _ (if ?c then _ else _) => destruct c; [pick|]
         end.
  now left.
Qed.

Lemma bannerVerdict_verdict (banner : string) :
  verdict_of os_names (bannerVerdict lower banner).
Proof.
  unfold bannerVerdict.
  repeat match goal with
         | |- verdict_of _ (if ?c then _ else _) => destruct c; [pick|]
         end.
  now left.
Qed.

(** The loop over the banners: the entries of port 22 are passed over,
    the others are judged one by one until a verdict is there. *)
Lemma osFromBanners_first (banners : list (Z * string)) :
  osFromBanners lower banners
  = first_nonempty (map (bannerVerdict lower) (generic_banners banners)).
Proof.
  unfold generic_banners.
  induction banners as [|[port banner] rest IH]; cbn [osFromBanners]; [reflexivity|].
  cbn [filter fst]. destruct (port =? 22)%Z; cbn [negb]; [exact IH|].
  cbn [map snd first_nonempty].
  destruct (String.eqb (bannerVerdict lower banner) ""); cbn [negb]; [exact IH | reflexivity].
Qed.

Lemma first_nonempty_In (vs : list string) :
  first_nonempty vs <> "" -> In (first_nonempty vs) vs.
Proof.
  induction vs as [|v vs IH]; cbn [first_nonempty]; intros H; [now contradiction H|].
  destruct (String.eqb v ""); [right; now apply IH | now left].
Qed.

Lemma first_nonempty_empty (vs : list string) :
  first_nonempty vs = "" <-> forall v, In v vs -> v = "".
Proof.
  induction vs as [|v vs IH]; cbn [first_nonempty].
  - split; [intros _ v [] | reflexivity].
  - destruct (String.eqb_spec v "") as [->|Hne].
    + rewrite IH. split.
      * intros H v [<-|Hin]; [reflexivity | now apply H].
      * intros H v Hin. apply H. now right.
    + split; [intros E; now contradiction Hne|].
      intros H. apply H. now left.
Qed.

Lemma osFromBanners_verdict (banners : list (Z * string)) :
  verdict_of os_names (osFromBanners lower banners).
Proof.
  induction banners as [|[port banner] rest IH]; cbn [osFromBanners]; [now left|].
  destruct (port =? 22)%Z; [exact IH|].
  destruct (String.eqb (bannerVerdict lower banner) ""); cbn [negb]; [exact IH|].
  apply bannerVerdict_verdict.
Qed.

Lemma osFromExtraData_verdict (extra : list (string * string)) :
  verdict_of os_names (osFromExtraData lower extra).
Proof.
  unfold osFromExtraData.
  destruct (length extra =? 0)%nat; [now left|].
  repeat match goal with
         | |- verdict_of _ (if ?c then _ else _) => destruct c; [pick|]
         end.
  now left.
Qed.

Lemma osFromPorts_verdict (ports : list Z) :
  verdict_of os_names (osFromPorts ports).
Proof.
  unfold osFromPorts.
  repeat match goal with
         | |- verdict_of _ (if ?c then _ else _) => destruct c; [pick|]
         end.
  now left.
Qed.

Lemma osFromTTL_verdict (env : TTLEnv) (ip : string) (ports : list Z) :
  verdict_of os_names (fst (osFromTTL env ip ports)).
Proof.
  unfold osFromTTL.
  destruct (ttlLoop_values env ip (fold_left addFallback [80; 443; 22]%Z ports) 0)
    as [H|[H|H]]; rewrite H; [now left | pick | pick].
Qed.

Lemma fingerprintByPorts_verdict (ports : list Z) (banners : list (Z * string))
      (srv : string) :
  verdict_of device_types (fingerprintByPorts lower ports banners srv).
Proof.
  unfold fingerprintByPorts.
  repeat match goal with
         | |- verdict_of _ (if ?c then _ else _) => destruct c; [pick|]
         end.
  now left.
Qed.

End WithCaseTables.

Lemma fingerprintByManufacturer_verdict (mfr : string) :
  verdict_of device_types (fingerprintByManufacturer mfr).
Proof.
  unfold fingerprintByManufacturer. destruct (String.eqb mfr ""); [now left|].
  destruct (matchRules_dtype manufacturerRules mfr) as [H|H]; [now left|].
  right. revert H. generalize (matchRules manufacturerRules mfr). intros v.
  cbn. intuition (subst; auto 20).
Qed.

Lemma fingerprintByServices_verdict (extra : string) :
  verdict_of device_types (fingerprintByServices extra).
Proof.
  unfold fingerprintByServices. destruct (String.eqb extra ""); [now left|].
  destruct (matchRules_dtype serviceRules extra) as [H|H]; [now left|].
  right. revert H. generalize (matchRules serviceRules extra). intros v.
  cbn. intuition (subst; auto 20).
Qed.

Lemma verdict_nonempty (names : list string) (v : string) :
  verdict_of names v -> String.eqb v "" = false -> In v names.
Proof.
  intros [->|H] E; [discriminate E | exact H].
Qed.

(** X11. Whatever the inputs and the network, the answer of [DetectOS]
    is one of the six system names or the empty [OSUnknown]. *)
Lemma DetectOS_range (lower : string -> string) (env : TTLEnv) (ip : string)
      (openPorts : list Z) (banners : list (Z * string))
      (httpServer netbiosName : string) (extraData : list (string * string)) :
  let os := fst (DetectOS lower env ip openPorts banners httpServer netbiosName extraData) in
  os = OSUnknown \/ In os os_names.
Proof.
  unfold DetectOS.
  destruct (String.eqb (osFromSSHBanner lower banners) "") eqn:E1; cbn [negb].
  2:{ right. exact (verdict_nonempty _ _ (osFromSSHBanner_verdict lower banners) E1). }
  destruct (String.eqb (osFromHTTPServer lower httpServer) "") eqn:E2; cbn [negb].
  2:{ right. exact (verdict_nonempty _ _ (osFromHTTPServer_verdict lower httpServer) E2). }
  destruct (String.eqb (osFromBanners lower banners) "") eqn:E3; cbn [negb].
  2:{ right. exact (verdict_nonempty _ _ (osFromBanners_verdict lower banners) E3). }
  destruct (String.eqb (osFromExtraData lower extraData) "") eqn:E4; cbn [negb].
  2:{ right. exact (verdict_nonempty _ _ (osFromExtraData_verdict lower extraData) E4). }
  destruct (String.eqb netbiosName ""); cbn [negb].
  2:{ right. now left. }
  pose proof (osFromTTL_verdict env ip openPorts) as Ht.
  destruct (osFromTTL env ip openPorts) as [os dialled]. cbn [fst] in Ht.
  destruct (String.eqb os "") eqn:E6; cbn [negb].
  2:{ right. exact (verdict_nonempty _ _ Ht E6). }
  destruct (String.eqb (osFromPorts openPorts) "") eqn:E7; cbn [negb].
  2:{ right. exact (verdict_nonempty _ _ (osFromPorts_verdict openPorts) E7). }
  now left.
Qed.

(** X12. [Fingerprint] always answers: one of the ten types its rules
    name, or ["Unknown"]; never the empty string, and never
    [TypeSwitch], [TypeAP] or [TypeIoT], which no rule mentions. *)
Lemma Fingerprint_range (lower : string -> string) (mac manufacturer : string)
      (openPorts : list Z) (banners : list (Z * string))
      (netbiosName httpServer : string) (extraData : list (string * string)) :
  let t := Fingerprint lower mac manufacturer openPorts banners netbiosName
                       httpServer extraData in
  In t (TypeUnknown :: device_types)
  /\ t <> "" /\ t <> TypeSwitch /\ t <> TypeAP /\ t <> TypeIoT.
Proof.
  cbv zeta.
  assert (Hin : In (Fingerprint lower mac manufacturer openPorts banners netbiosName
                                httpServer extraData) (TypeUnknown :: device_types)).
  { unfold Fingerprint.
    destruct (String.eqb (fingerprintByManufacturer (ToLower lower manufacturer)) "")
      eqn:E1; cbn [negb].
    2:{ right. exact (verdict_nonempty _ _ (fingerprintByManufacturer_verdict _) E1). }
    destruct (String.eqb (fingerprintByServices (ToLower lower (flattenMap extraData))) "")
      eqn:E2; cbn [negb].
    2:{ right. exact (verdict_nonempty _ _ (fingerprintByServices_verdict _) E2). }
    destruct (String.eqb (fingerprintByPorts lower openPorts banners
                                             (ToLower lower httpServer)) "")
      eqn:E3; cbn [negb].
    2:{ right. exact (verdict_nonempty _ _ (fingerprintByPorts_verdict lower _ _ _) E3). }
    now left. }
  split; [exact Hin|].
  revert Hin. generalize (Fingerprint lower mac manufacturer openPorts banners
                                      netbiosName httpServer extraData). intros t Hin.
  cbn in Hin.
  repeat split; intros ->;
    repeat (destruct Hin as [Hin|Hin]; [discriminate Hin|]); exact Hin.
Qed.

(** X13. The two port heuristics see the list of open ports only as a
    set: neither its order nor repeated entries change the answers. *)
Lemma port_heuristics_same_ports (lower : string -> string) (ports ports' : list Z)
      (banners : list (Z * string)) (srv : string) :
  same_ports ports ports' ->
  osFromPorts ports = osFromPorts ports'
  /\ fingerprintByPorts lower ports banners srv
     = fingerprintByPorts lower ports' banners srv.
Proof.
  intros H. pose proof (portSet_same ports ports' H) as E.
  unfold osFromPorts, fingerprintByPorts. cbv zeta.
  now rewrite !E.
Qed.

(** X14. [osFromBanners] passes over port 22; it is silent exactly when
    every other banner is judged silent, and a verdict it gives is the
    verdict of one of those banners. *)
Lemma osFromBanners_generic (lower : string -> string) (banners : list (Z * string)) :
  (osFromBanners lower banners = ""
   <-> forall port banner, In (port, banner) banners -> port <> 22%Z ->
                           bannerVerdict lower banner = "")
  /\ (osFromBanners lower banners <> "" ->
      exists port banner,
        In (port, banner) banners /\ port <> 22%Z
        /\ bannerVerdict lower banner = osFromBanners lower banners).
Proof.
  assert (Hmem : forall v, In v (map (bannerVerdict lower) (generic_banners banners))
                 <-> exists port banner, In (port, banner) banners /\ port <> 22%Z
                                         /\ bannerVerdict lower banner = v).
  { intros v. unfold generic_banners. rewrite in_map_iff. split.
    - intros [b [Hv Hb]]. apply in_map_iff in Hb as [[port banner] [Hs Hf]].
      apply filter_In in Hf as [Hin Hp]. cbn in Hs, Hp. subst b.
      exists port, banner. split; [exact Hin|]. split; [|exact Hv].
      intros ->. discriminate Hp.
    - intros (port & banner & Hin & Hp & Hv). exists banner. split; [exact Hv|].
      apply in_map_iff. exists (port, banner). split; [reflexivity|].
      apply filter_In. split; [exact Hin|]. cbn.
      destruct (Z.eqb_spec port 22); [contradiction | reflexivity]. }
  rewrite osFromBanners_first. split.
  - rewrite first_nonempty_empty. split.
    + intros H port banner Hin Hp. apply H, Hmem. now exists port, banner.
    + intros H v Hv. apply Hmem in Hv as (port & banner & Hin & Hp & <-).
      now apply (H port banner).
  - intros H. apply Hmem, first_nonempty_In, H.
Qed.

Lemma port_heuristics_same_ports_witness :
  osFromPorts [445; 5985; 22]%Z = osFromPorts [22; 5985; 445; 22]%Z
  /\ fingerprintByPorts (fun s => s) [445; 5985; 22]%Z [] ""
     = fingerprintByPorts (fun s => s) [22; 5985; 445; 22]%Z [] "".
Proof.
  apply (port_heuristics_same_ports (fun s => s) [445; 5985; 22]%Z [22; 5985; 445; 22]%Z).
  intros p. cbn. intuition.
Defined.

End Verdicts.

(* ================================================================== *)
(** * probe: the banner map and the order of the calls of RunAll *)
(* ================================================================== *)

Module ProberFacts.
Import GoStrings Fingerprinting Prober.

(** What [RunAll] keeps true of [result.Banners]: one entry per key,
    every key one of [ports], no empty banner. *)
Definition banners_ok (ports : list Z) (banners : list (Z * string)) : Prop :=
  NoDup (map fst banners)
  /\ forall port banner, In (port, banner) banners -> In port ports /\ banner <> "".

Definition is_grab (ip : string) (ev : ProbeEvent) : Prop :=
  exists port banner, ev = EvGrabBanner ip port banner /\ isHTTPPort port = false.

Definition is_fetch (ip : string) (ev : ProbeEvent) : Prop :=
  exists port title server,
    ev = EvFetchHTTP ip port title server /\ isHTTPPort port = true.

(** ** Facts *)

Lemma mapSet_keys (m : list (Z * string)) (k : Z) (v : string) :
  forall k', In k' (map fst (mapSet m k v)) <-> k' = k \/ In k' (map fst m).
Proof.
  induction m as [|[k0 v0] m IH]; intros k'; cbn [mapSet].
  - cbn. intuition.
  - destruct (Z.eqb_spec k0 k) as [->|Hne]; cbn [map fst In].
    + intuition.
    + rewrite IH. intuition.
Qed.

Lemma mapSet_NoDup (m : list (Z * string)) (k : Z) (v : string) :
  NoDup (map fst m) -> NoDup (map fst (mapSet m k v)).
Proof.
  induction m as [|[k0 v0] m IH]; intros Hnd; cbn [mapSet].
  - cbn. constructor; [intros [] | constructor].
  - inversion Hnd as [|? ? Hnotin Hnd']; subst.
    destruct (Z.eqb_spec k0 k) as [->|Hne]; cbn [map fst].
    + now constructor.
    + constructor; [|now apply IH].
      rewrite mapSet_keys. intros [E|Hin]; [now apply Hne | now apply Hnotin].
Qed.

Lemma mapSet_In (m : list (Z * string)) (k : Z) (v : string) :
  forall k' v', In (k', v') (mapSet m k v) -> (k' = k /\ v' = v) \/ In (k', v') m.
Proof.
  induction m as [|[k0 v0] m IH]; intros k' v'; cbn [mapSet].
  - intros [[= <- <-]|[]]. now left.
  - destruct (Z.eqb_spec k0 k) as [->|Hne]; cbn [In].
    + intros [[= <- <-]|Hin]; [now left | right; now right].
    + intros [E|Hin]; [right; now left|].
      destruct (IH _ _ Hin) as [H|H]; [now left | right; now right].
Qed.

Lemma banners_ok_set (ports : list Z) (banners : list (Z * string))
      (port : Z) (banner : string) :
  banners_ok ports banners -> In port ports -> banner <> "" ->
  banners_ok ports (mapSet banners port banner).
Proof.
  intros [Hnd Hall] Hin Hne. split; [now apply mapSet_NoDup|].
  intros k v Hkv. destruct (mapSet_In _ _ _ _ _ Hkv) as [[-> ->]|H].
  - now split.
  - now apply Hall.
Qed.

Lemma banners_ok_weaken (ports ports' : list Z) (banners : list (Z * string)) :
  (forall p, In p ports -> In p ports') ->
  banners_ok ports banners -> banners_ok ports' banners.
Proof.
  intros Hsub [Hnd Hall]. split; [exact Hnd|].
  intros k v Hkv. destruct (Hall k v Hkv). split; auto.
Qed.

Lemma compositeParts_nonempty (title server : string) :
  (0 <? length (compositeParts title server))%nat = true ->
  Join (compositeParts title server) " | " <> "".
Proof.
  unfold compositeParts.
  destruct (String.eqb_spec server "") as [->|Hs], (String.eqb_spec title "") as [->|Ht];
    cbn [negb app length Nat.ltb Nat.leb Join].
  - discriminate.
  - intros _ E. unfold dquote in E. cbn [append] in E. discriminate E.
  - intros _. exact Hs.
  - intros _ E. destruct server; [now contradiction Hs | cbn [append] in E; discriminate E].
Qed.

Lemma recordHTTP_banners (ports : list Z) (r : Result) (port : Z)
      (title server : string) :
  banners_ok ports (Banners r) -> In port ports ->
  banners_ok ports (Banners (recordHTTP r port title server)).
Proof.
  intros Hok Hin. unfold recordHTTP.
  destruct (0 <? length (compositeParts title server))%nat eqn:E.
  - cbn [Banners setBanner].
    apply banners_ok_set; [|exact Hin | now apply compositeParts_nonempty].
    destruct (negb (String.eqb title "") && _), (negb (String.eqb server "") && _);
      exact Hok.
  - destruct (negb (String.eqb title "") && _), (negb (String.eqb server "") && _);
      exact Hok.
Qed.

Section Loops.
Variable W : Type.
Variable env : Probes W.

Lemma bannerLoop_events (ip : string) (ports : list Z) :
  forall all result w tr,
    (forall p, In p ports -> In p all) ->
    banners_ok all (Banners result) ->
    let '(result', (_, tr')) := bannerLoop W env ip ports result (w, tr) in
    banners_ok all (Banners result')
    /\ Latency result' = Latency result
    /\ ReverseDNS result' = ReverseDNS result
    /\ NetBIOSName result' = NetBIOSName result
    /\ exists grabs, tr' = tr ++ grabs /\ Forall (is_grab ip) grabs.
Proof.
  induction ports as [|port rest IH]; intros all result w tr Hsub Hok.
  - cbn. split; [exact Hok|]. do 3 (split; [reflexivity|]).
    exists []. now rewrite app_nil_r.
  - cbn [bannerLoop]. unfold pollDone, mbind, ret, call.
    assert (Hsub' : forall p, In p rest -> In p all) by (intros p Hp; apply Hsub; now right).
    destruct (isHTTPPort port) eqn:Eh.
    + now apply IH.
    + destruct (probeGrabBanner env ip port w) as [banner w1].
      set (r1 := if negb (String.eqb banner "") then setBanner result port banner
                 else result).
      assert (Hok1 : banners_ok all (Banners r1)).
      { unfold r1. destruct (String.eqb_spec banner "") as [->|Hne]; cbn [negb]; [exact Hok|].
        cbn [Banners setBanner]. apply banners_ok_set; [exact Hok | | exact Hne].
        apply Hsub. now left. }
      assert (Hf : Latency r1 = Latency result /\ ReverseDNS r1 = ReverseDNS result
                   /\ NetBIOSName r1 = NetBIOSName result).
      { unfold r1. destruct (negb (String.eqb banner "")); repeat split. }
      destruct Hf as (Hl & Hr & Hn).
      specialize (IH all r1 w1 (tr ++ [EvGrabBanner ip port banner]) Hsub' Hok1).
      destruct (bannerLoop W env ip rest r1 (w1, tr ++ [EvGrabBanner ip port banner]))
        as [r' [w2 tr']].
      destruct IH as (Hok' & Hl' & Hr' & Hn' & grabs & Htr & Hg).
      split; [exact Hok'|]. split; [congruence|]. split; [congruence|].
      split; [congruence|].
      exists (EvGrabBanner ip port banner :: grabs). split.
      * rewrite Htr, <- app_assoc. reflexivity.
      * constructor; [|exact Hg]. now exists port, banner.
Qed.

Lemma httpLoop_events (ip : string) (ports : list Z) :
  forall all result w tr,
    (forall p, In p ports -> In p all) ->
    banners_ok all (Banners result) ->
    let '(result', (_, tr')) := httpLoop W env ip ports result (w, tr) in
    banners_ok all (Banners result')
    /\ Latency result' = Latency result
    /\ ReverseDNS result' = ReverseDNS result
    /\ NetBIOSName result' = NetBIOSName result
    /\ exists fetches, tr' = tr ++ fetches /\ Forall (is_fetch ip) fetches.
Proof.
  induction ports as [|port rest IH]; intros all result w tr Hsub Hok.
  - cbn. split; [exact Hok|]. do 3 (split; [reflexivity|]).
    exists []. now rewrite app_nil_r.
  - cbn [httpLoop]. unfold pollDone, mbind, ret, call.
    assert (Hsub' : forall p, In p rest -> In p all) by (intros p Hp; apply Hsub; now right).
    destruct (isHTTPPort port) eqn:Eh; cbn [negb].
    + destruct (probeFetchHTTPInfo env ip port w) as [[title server] w1].
      cbn [fst snd].
      assert (Hok1 : banners_ok all (Banners (recordHTTP result port title server))).
      { apply recordHTTP_banners; [exact Hok|]. apply Hsub. now left. }
      assert (Hf : Latency (recordHTTP result port title server) = Latency result
                   /\ ReverseDNS (recordHTTP result port title server) = ReverseDNS result
                   /\ NetBIOSName (recordHTTP result port title server)
                      = NetBIOSName result).
      { unfold recordHTTP.
        destruct (negb (String.eqb title "") && _), (negb (String.eqb server "") && _),
          (0 <? length (compositeParts title server))%nat; repeat split. }
      destruct Hf as (Hl & Hr & Hn).
      specialize (IH all (recordHTTP result port title server) w1
                     (tr ++ [EvFetchHTTP ip port title server]) Hsub' Hok1).
      destruct (httpLoop W env ip rest (recordHTTP result port title server)
                         (w1, tr ++ [EvFetchHTTP ip port title server]))
        as [r' [w2 tr']].
      destruct IH as (Hok' & Hl' & Hr' & Hn' & fetches & Htr & Hg).
      split; [exact Hok'|]. split; [congruence|]. split; [congruence|].
      split; [congruence|].
      exists (EvFetchHTTP ip port title server :: fetches). split.
      * rewrite Htr, <- app_assoc. reflexivity.
      * constructor; [|exact Hg]. now exists port, title, server.
    + now apply IH.
Qed.

End Loops.

(** X17. [RunAll] calls the reverse lookup, the ping (on the open ports
    as given) and the NetBIOS query once each and in this order, then
    grabs every plain banner, and only then fetches from the HTTP ports;
    the three first answers are stored as they are. The banner map it
    ends with has one entry per key, holds open ports only, and no
    empty banner. *)
Lemma RunAll_calls_and_banners (W : Type) (env : Probes W) (lower : string -> string)
      (ip mac manufacturer : string) (openPorts : list Z)
      (extraData : list (string * string)) (w : W) :
  let '(result, (_, tr)) :=
    RunAll W env lower ip mac manufacturer openPorts extraData (w, []) in
  (exists grabs fetches,
      tr = [EvReverseDNS ip (ReverseDNS result);
            EvTCPPing ip openPorts (Latency result);
            EvNetBIOS ip (NetBIOSName result)] ++ grabs ++ fetches
      /\ Forall (is_grab ip) grabs /\ Forall (is_fetch ip) fetches)
  /\ banners_ok openPorts (Banners result).
Proof.
  unfold RunAll, mbind, call, ret.
  destruct (probeReverseDNS env ip w) as [rdns w1].
  destruct (probeTCPPing env ip openPorts w1) as [lat w2].
  destruct (probeQueryNetBIOS env ip w2) as [nb w3].
  cbn [app].
  assert (Hok0 : banners_ok openPorts (Banners (mkResult lat rdns [] "" "" "" nb))).
  { split; [constructor | intros ? ? []]. }
  destruct (0 <? length openPorts)%nat.
  - pose proof (bannerLoop_events W env ip openPorts openPorts
                  (mkResult lat rdns [] "" "" "" nb) w3
                  [EvReverseDNS ip rdns; EvTCPPing ip openPorts lat; EvNetBIOS ip nb]
                  (fun p H => H) Hok0) as H1.
    destruct (bannerLoop W env ip openPorts _ _) as [r1 [w4 tr1]].
    destruct H1 as (Hok1 & Hl1 & Hr1 & Hn1 & grabs & Htr1 & Hg).
    pose proof (httpLoop_events W env ip openPorts openPorts r1 w4 tr1
                  (fun p H => H) Hok1) as H2.
    destruct (httpLoop W env ip openPorts r1 (w4, tr1)) as [r2 [w5 tr2]].
    destruct H2 as (Hok2 & Hl2 & Hr2 & Hn2 & fetches & Htr2 & Hf).
    cbn [setDeviceType Banners Latency ReverseDNS NetBIOSName].
    split; [|exact Hok2].
    exists grabs, fetches. split; [|now split].
    rewrite Htr2, Htr1, Hl2, Hl1, Hr2, Hr1, Hn2, Hn1. cbn.
    reflexivity.
  - cbn [setDeviceType Banners Latency ReverseDNS NetBIOSName].
    split; [|exact Hok0]. exists [], []. repeat split; constructor.
Qed.

End ProberFacts.

(* ================================================================== *)
(** * discovery: choosing an interface (network_utils.go) *)
(* ================================================================== *)

Module Selection.
Import Go GoNet GoStrings Discovery.

(** [InterfaceInfo], the three pointers being set. *)
Record InterfaceInfo : Type := mkInterfaceInfo {
  Interface_ : Interface;
  IPv4Addr : list byte;
  IPv4Net : IPNet
}.

(** The errors of the functions below. *)
Inductive SelectError : Type :=
| ErrLookup            (* the error of a call into package net *)
| ErrNoInterface       (* "no network interface found" *)
| ErrAddrs             (* "get addresses for ..." *)
| ErrNoIPv4.           (* "... has no IPv4 address" *)

(** What the operating system answers:
    - [byUDP]: the result of [getInterfaceNameByUDP()], [None] for an error;
    - [interfaces]: the answer of [net.Interfaces()];
    - [byName]: the answer of [net.InterfaceByName]. *)
Record Host : Type := mkHost {
  byUDP : option Interface;
  interfaces : option (list Interface);
  byName : string -> option Interface
}.

Definition upNotLoopback (iface : Interface) : bool :=
  (Z.land (GoNet.Flags iface) FlagLoopback =? 0)%Z
  && negb (Z.land (GoNet.Flags iface) FlagUp =? 0)%Z.

(** [for _, iface := range interfaces { if cond(iface) { return &iface } }]. *)
Fixpoint firstWhere (cond : Interface -> bool) (ifaces : list Interface)
  : option Interface :=
  match ifaces with
  | [] => None
  | iface :: rest => if cond iface then Some iface else firstWhere cond rest
  end.

Definition getDefaultInterface (host : Host) : SelectError + Interface :=
  let fallback :=
    match interfaces host with
    | None => inl ErrLookup
    | Some ifaces =>
        match firstWhere isLANSuitable ifaces with
        | Some iface => inr iface
        | None =>
            match firstWhere upNotLoopback ifaces with
            | Some iface => inr iface
            | None => inl ErrNoInterface
            end
        end
    end in
  match byUDP host with
  | Some iface => if isLANSuitable iface then inr iface else fallback
  | None => fallback
  end.

Definition getNetworkInterface (host : Host) (interfaceName : string)
  : SelectError + Interface :=
  if negb (String.eqb interfaceName "") then
    match byName host interfaceName with
    | None => inl ErrLookup
    | Some iface => inr iface
    end
  else getDefaultInterface host.

(** The loop over the addresses shared by [NewInterfaceInfo] and
    [GetInterfaceIP]: the first [*net.IPNet] whose IP has a 4-byte form. *)
Fixpoint firstIPv4Net (addresses : list Addr) : option IPNet :=
  match addresses with
  | [] => None
  | AddrIPNet ipnet :: rest =>
      match To4 (IP ipnet) with
      | Some _ => Some ipnet
      | None => firstIPv4Net rest
      end
  | AddrOther _ :: rest => firstIPv4Net rest
  end.

Definition NewInterfaceInfo (host : Host) (interfaceName : string)
  : SelectError + InterfaceInfo :=
  match getNetworkInterface host interfaceName with
  | inl err => inl err
  | inr iface =>
      match Addrs iface with
      | None => inl ErrAddrs
      | Some addresses =>
          match firstIPv4Net addresses with
          | Some ipnet => inr (mkInterfaceInfo iface (IP ipnet) ipnet)
          | None => inl ErrNoIPv4
          end
      end
  end.

Definition GetInterfaceIP (iface : Interface) : SelectError + list byte :=
  match Addrs iface with
  | None => inl ErrLookup
  | Some addresses =>
      match firstIPv4Net addresses with
      | Some ipnet => inr (IP ipnet)
      | None => inl ErrNoIPv4
      end
  end.

(** Bit [n] of the flags. *)
Definition flag (iface : Interface) (n : Z) : bool := Z.testbit (GoNet.Flags iface) n.

(** An address that makes an interface usable on a LAN. *)
Definition usable_addr (a : Addr) : Prop :=
  exists ipnet, a = AddrIPNet ipnet
                /\ To4 (IP ipnet) <> None
                /\ (fst (Size (Mask ipnet)) <= 30)%nat.

(** ** Facts *)

Lemma joinFrom_Join (ss : list string) (sep : string) :
  forall i result,
    joinFrom i ss sep result
    = match ss with
      | [] => result
      | _ => ((if (0 <? i)%nat then result ++ sep else result) ++ Join ss sep)%string
      end.
Proof.
  induction ss as [|s ss IH]; intros i result; cbn [joinFrom]; [reflexivity|].
  rewrite IH. destruct ss as [|s' ss'].
  - reflexivity.
  - change (0 <? S i)%nat with true. cbn iota.
    change (Join (s :: s' :: ss') sep) with (s ++ sep ++ Join (s' :: ss') sep)%string.
    now rewrite !string_append_assoc.
Qed.

Lemma hasUsableIPv4_iff (addrs : list Addr) :
  hasUsableIPv4 addrs = true <-> exists a, In a addrs /\ usable_addr a.
Proof.
  induction addrs as [|[ipnet|ip] rest IH]; cbn [hasUsableIPv4].
  - split; [discriminate | intros [a [[] _]]].
  - assert (Hrest : (exists a, In a rest /\ usable_addr a) ->
                    exists a, In a (AddrIPNet ipnet :: rest) /\ usable_addr a).
    { intros [a [Hin Ha]]. exists a. split; [now right | exact Ha]. }
    destruct (To4 (IP ipnet)) as [ip4|] eqn:E4.
    + destruct (Size (Mask ipnet)) as [ones bits] eqn:Es.
      destruct (Nat.leb_spec ones 30) as [Hle|Hgt].
      * split; [|reflexivity]. intros _. exists (AddrIPNet ipnet). split; [now left|].
        exists ipnet. rewrite E4, Es. repeat split; [discriminate | exact Hle].
      * rewrite IH. split; [exact Hrest|].
        intros [a [[<-|Hin] Ha]]; [|now exists a].
        destruct Ha as [n [[= <-] [_ Hn]]]. rewrite Es in Hn. cbn in Hn. lia.
    + rewrite IH. split; [exact Hrest|].
      intros [a [[<-|Hin] Ha]]; [|now exists a].
      destruct Ha as [n [[= <-] [Hn _]]]. now contradiction Hn.
  - rewrite IH. split.
    + intros [a [Hin Ha]]. exists a. split; [now right | exact Ha].
    + intros [a [[<-|Hin] Ha]]; [|now exists a].
      destruct Ha as [n [Hn _]]. discriminate Hn.
Qed.

Lemma firstWhere_Some (cond : Interface -> bool) (ifaces : list Interface)
      (iface : Interface) :
  firstWhere cond ifaces = Some iface -> In iface ifaces /\ cond iface = true.
Proof.
  induction ifaces as [|i rest IH]; cbn [firstWhere]; [discriminate|].
  destruct (cond i) eqn:E.
  - intros [= <-]. split; [now left | exact E].
  - intros H. destruct (IH H). split; [now right | assumption].
Qed.

Lemma firstWhere_None (cond : Interface -> bool) (ifaces : list Interface) :
  firstWhere cond ifaces = None <-> forall iface, In iface ifaces -> cond iface = false.
Proof.
  induction ifaces as [|i rest IH]; cbn [firstWhere].
  - split; [intros _ ? [] | reflexivity].
  - destruct (cond i) eqn:E.
    + split; [discriminate|]. intros H. rewrite (H i) in E by now left. discriminate.
    + rewrite IH. split.
      * intros H x [<-|Hin]; [exact E | now apply H].
      * intros H x Hin. apply H. now right.
Qed.

Lemma isLANSuitable_upNotLoopback (iface : Interface) :
  isLANSuitable iface = true -> upNotLoopback iface = true.
Proof.
  unfold isLANSuitable, upNotLoopback.
  destruct (Z.land (GoNet.Flags iface) FlagUp =? 0)%Z; [discriminate|].
  destruct (Z.land (GoNet.Flags iface) FlagLoopback =? 0)%Z; [reflexivity | discriminate].
Qed.

Lemma firstIPv4Net_spec (addresses : list Addr) :
  match firstIPv4Net addresses with
  | Some ipnet => In (AddrIPNet ipnet) addresses /\ To4 (IP ipnet) <> None
                  /\ hasIPv4 addresses = true
  | None => hasIPv4 addresses = false
  end.
Proof.
  induction addresses as [|[ipnet|ip] rest IH]; cbn [firstIPv4Net hasIPv4].
  - reflexivity.
  - destruct (To4 (IP ipnet)) eqn:E.
    + split; [now left|]. split; [congruence | reflexivity].
    + destruct (firstIPv4Net rest); [|exact IH].
      destruct IH as (Hin & H4 & Hh). split; [now right|]. now split.
  - destruct (firstIPv4Net rest); [|exact IH].
    destruct IH as (Hin & H4 & Hh). split; [now right|]. now split.
Qed.

Section Listing.
Variable IPString : list byte -> string.
Variable IPNetString : IPNet -> string.
Variable HardwareAddrString : list byte -> string.

Lemma firstIPv4Entry_net (iface : Interface) (addrs : list Addr) :
  firstIPv4Entry IPString IPNetString HardwareAddrString iface addrs
  = match firstIPv4Net addrs with
    | Some ipnet =>
        Some (mkInterfaceEntry (GoNet.Name iface) (IPString (IP ipnet))
                               (IPNetString ipnet)
                               (HardwareAddrString (HardwareAddr iface))
                               (flagsText (GoNet.Flags iface))
                               (isVPNFlags (GoNet.Flags iface)))
    | None => None
    end.
Proof.
  induction addrs as [|[ipnet|ip] rest IH]; cbn [firstIPv4Entry firstIPv4Net];
    [reflexivity | | exact IH].
  destruct (To4 (IP ipnet)); [reflexivity | exact IH].
Qed.

End Listing.

(** X19. The hand-written [joinStrings] agrees with [strings.Join]. *)
Lemma joinStrings_Join (ss : list string) (sep : string) :
  joinStrings ss sep = Join ss sep.
Proof.
  unfold joinStrings. rewrite joinFrom_Join. destruct ss; reflexivity.
Qed.

(** X20. An interface is suitable for the LAN exactly when it is up, is
    neither a loopback nor point-to-point, can broadcast, answers for
    its addresses, and one of them is an IPv4 network whose mask has at
    most 30 leading ones (a mask that is not a run of ones followed by
    zeros counts as 0 ones). *)
Lemma isLANSuitable_iff (iface : Interface) :
  isLANSuitable iface = true
  <-> flag iface 0 = true /\ flag iface 2 = false /\ flag iface 3 = false
      /\ flag iface 1 = true
      /\ exists addrs a, Addrs iface = Some addrs /\ In a addrs /\ usable_addr a.
Proof.
  unfold isLANSuitable, flag.
  change FlagUp with (2 ^ 0)%Z. change FlagLoopback with (2 ^ 2)%Z.
  change FlagPointToPoint with (2 ^ 3)%Z. change FlagBroadcast with (2 ^ 1)%Z.
  rewrite !land_pow2 by lia.
  destruct (Z.testbit (GoNet.Flags iface) 0); cbn [negb];
    [|split; [discriminate | intros [H _]; discriminate H]].
  destruct (Z.testbit (GoNet.Flags iface) 2); cbn [negb];
    [split; [discriminate | intros (_ & H & _); discriminate H]|].
  destruct (Z.testbit (GoNet.Flags iface) 3); cbn [negb];
    [split; [discriminate | intros (_ & _ & H & _); discriminate H]|].
  destruct (Z.testbit (GoNet.Flags iface) 1); cbn [negb];
    [|split; [discriminate | intros (_ & _ & _ & H & _); discriminate H]].
  destruct (Addrs iface) as [addrs|].
  - rewrite hasUsableIPv4_iff. split.
    + intros [a [Hin Ha]]. do 4 (split; [reflexivity|]). now exists addrs, a.
    + intros (_ & _ & _ & _ & addrs' & a & [= <-] & Hin & Ha). now exists a.
  - split; [discriminate|]. intros (_ & _ & _ & _ & addrs' & a & H & _). discriminate H.
Qed.

(** The outcomes of [getDefaultInterface], case by case. *)
Lemma getDefaultInterface_cases (host : Host) :
  match getDefaultInterface host with
  | inr iface =>
      upNotLoopback iface = true
      /\ (byUDP host = Some iface
          \/ exists ifaces, interfaces host = Some ifaces /\ In iface ifaces)
      /\ (isLANSuitable iface = false ->
          (forall i, byUDP host = Some i -> isLANSuitable i = false)
          /\ exists ifaces, interfaces host = Some ifaces
                            /\ forall i, In i ifaces -> isLANSuitable i = false)
  | inl err =>
      (forall i, byUDP host = Some i -> isLANSuitable i = false)
      /\ match interfaces host with
         | None => err = ErrLookup
         | Some ifaces =>
             err = ErrNoInterface
             /\ forall i, In i ifaces -> upNotLoopback i = false
         end
  end.
Proof.
  assert (Hudp : forall b, match byUDP host with
                           | Some iface => if isLANSuitable iface then false else b
                           | None => b
                           end = true ->
                           b = true /\ forall i, byUDP host = Some i -> isLANSuitable i = false).
  { intros b. destruct (byUDP host) as [u|].
    - destruct (isLANSuitable u) eqn:E; [discriminate|].
      intros ->. split; [reflexivity|]. now intros i [= <-].
    - intros ->. split; [reflexivity | discriminate]. }
  unfold getDefaultInterface.
  destruct (byUDP host) as [u|] eqn:Eu.
  - destruct (isLANSuitable u) eqn:Es.
    + split; [now apply isLANSuitable_upNotLoopback|]. split; [now left|].
      intros H. congruence.
    + assert (Hu : forall i, Some u = Some i -> isLANSuitable i = false)
        by now intros i [= <-].
      destruct (interfaces host) as [ifaces|]; [|now split].
      destruct (firstWhere isLANSuitable ifaces) as [i1|] eqn:E1.
      * apply firstWhere_Some in E1 as [Hin Hs].
        split; [now apply isLANSuitable_upNotLoopback|].
        split; [right; now exists ifaces|]. intros H. congruence.
      * rewrite firstWhere_None in E1.
        destruct (firstWhere upNotLoopback ifaces) as [i2|] eqn:E2.
        -- apply firstWhere_Some in E2 as [Hin Hs].
           split; [exact Hs|]. split; [right; now exists ifaces|].
           intros _. split; [exact Hu | now exists ifaces].
        -- rewrite firstWhere_None in E2. split; [exact Hu | now split].
  - assert (Hu : forall i : Interface, @None Interface = Some i -> isLANSuitable i = false)
      by discriminate.
    destruct (interfaces host) as [ifaces|]; [|now split].
    destruct (firstWhere isLANSuitable ifaces) as [i1|] eqn:E1.
    + apply firstWhere_Some in E1 as [Hin Hs].
      split; [now apply isLANSuitable_upNotLoopback|].
      split; [right; now exists ifaces|]. intros H. congruence.
    + rewrite firstWhere_None in E1.
      destruct (firstWhere upNotLoopback ifaces) as [i2|] eqn:E2.
      * apply firstWhere_Some in E2 as [Hin Hs].
        split; [exact Hs|]. split; [right; now exists ifaces|].
        intros _. split; [exact Hu | now exists ifaces].
      * rewrite firstWhere_None in E2. split; [exact Hu | now split].
Qed.

(** X21. Whenever some interface of the list is suitable for the LAN
    and the list can be read, the default interface is a suitable one. *)
Lemma getDefaultInterface_prefers_LAN (host : Host) (ifaces : list Interface)
      (lan : Interface) :
  interfaces host = Some ifaces ->
  In lan ifaces ->
  isLANSuitable lan = true ->
  exists iface, getDefaultInterface host = inr iface /\ isLANSuitable iface = true.
Proof.
  intros Hl Hin Hs.
  pose proof (getDefaultInterface_cases host) as H.
  destruct (getDefaultInterface host) as [err|iface].
  - destruct H as [_ H]. rewrite Hl in H. destruct H as [_ H].
    specialize (H lan Hin).
    rewrite (isLANSuitable_upNotLoopback lan Hs) in H. discriminate H.
  - exists iface. split; [reflexivity|].
    destruct (isLANSuitable iface) eqn:E; [reflexivity|].
    destruct H as (_ & _ & H). destruct (H eq_refl) as [_ [l [El Hall]]].
    rewrite Hl in El. injection El as <-. rewrite (Hall lan Hin) in Hs. discriminate Hs.
Qed.

(** X22. The default interface is always up and not a loopback, and
    the search fails exactly when the interface found through the UDP
    socket (if any) is unsuitable and the list either cannot be read or
    holds no interface that is up and not a loopback. *)
Lemma getDefaultInterface_outcome (host : Host) :
  (forall iface, getDefaultInterface host = inr iface -> upNotLoopback iface = true)
  /\ forall err,
       getDefaultInterface host = inl err
       <-> (forall i, byUDP host = Some i -> isLANSuitable i = false)
           /\ match interfaces host with
              | None => err = ErrLookup
              | Some ifaces =>
                  err = ErrNoInterface
                  /\ forall i, In i ifaces -> upNotLoopback i = false
              end.
Proof.
  pose proof (getDefaultInterface_cases host) as H. split.
  - intros iface E. rewrite E in H. apply H.
  - intros err. split.
    + intros E. rewrite E in H. exact H.
    + intros [Hudp Hl].
      assert (Hfall :
        match interfaces host with
        | None => inl ErrLookup
        | Some ifaces =>
            match firstWhere isLANSuitable ifaces with
            | Some iface => inr iface
            | None =>
                match firstWhere upNotLoopback ifaces with
                | Some iface => inr iface
                | None => inl ErrNoInterface
                end
            end
        end = @inl SelectError Interface err).
      { destruct (interfaces host) as [ifaces|]; [|now rewrite Hl].
        destruct Hl as [-> Hall].
        assert (E1 : firstWhere isLANSuitable ifaces = None).
        { apply firstWhere_None. intros i Hin.
          destruct (isLANSuitable i) eqn:Es; [|reflexivity].
          apply isLANSuitable_upNotLoopback in Es. rewrite (Hall i Hin) in Es.
          discriminate Es. }
        assert (E2 : firstWhere upNotLoopback ifaces = None)
          by now apply firstWhere_None.
        now rewrite E1, E2. }
      unfold getDefaultInterface. destruct (byUDP host) as [u|]; [|exact Hfall].
      rewrite (Hudp u eq_refl). exact Hfall.
Qed.

(** An Ethernet interface on a /24 network. *)
Definition eth_lan : Interface :=
  mkInterface "eth0" 19 [x02; x00; x00; x00; x00; x01]
    (Some [AddrIPNet (mkIPNet [xc0; xa8; x01; x25] [xff; xff; xff; x00])]).

(** A host whose UDP socket leaves through the tunnel. *)
Definition vpn_host : Host :=
  mkHost (Some tun_p2p) (Some [tun_p2p; eth_lan])
         (fun name => if String.eqb name "eth0" then Some eth_lan else None).

Lemma getDefaultInterface_prefers_LAN_witness :
  exists iface, getDefaultInterface vpn_host = inr iface /\ isLANSuitable iface = true.
Proof.
  apply (getDefaultInterface_prefers_LAN vpn_host [tun_p2p; eth_lan] eth_lan);
    [reflexivity | right; left; reflexivity | reflexivity].
Defined.

Section Picker.
Variable IPString : list byte -> string.
Variable IPNetString : IPNet -> string.
Variable HardwareAddrString : list byte -> string.

(** X23. The listing has one entry for each interface that is up, is
    not a loopback and has an IPv4 address, in the order of the
    operating system, and nothing else. *)
Lemma ListAllInterfaces_names (ifaces : list Interface) :
  map Discovery.Name
      (ListAllInterfaces IPString IPNetString HardwareAddrString (Some ifaces))
  = map GoNet.Name (filter listable ifaces).
Proof.
  unfold ListAllInterfaces. rewrite (ListAllInterfaces_fold _ _ _ ifaces []). cbn [app].
  induction ifaces as [|i rest IH]; cbn [flat_map filter map]; [reflexivity|].
  pose proof (entryFor_spec IPString IPNetString HardwareAddrString i) as H.
  destruct (entryFor IPString IPNetString HardwareAddrString i) as [e|].
  - destruct H as (-> & Hn & _). cbn [app map]. now rewrite Hn, IH.
  - rewrite H. exact IH.
Qed.

(** X24. An interface shown in the listing can be selected by the name
    shown, provided the system finds it under this name: the address
    and the subnet shown are those the scan will use, and
    [GetInterfaceIP] gives the same address. *)
Lemma listed_can_be_selected (host : Host) (iface : Interface) (e : InterfaceEntry) :
  entryFor IPString IPNetString HardwareAddrString iface = Some e ->
  Discovery.Name e <> "" ->
  byName host (Discovery.Name e) = Some iface ->
  exists info,
    NewInterfaceInfo host (Discovery.Name e) = inr info
    /\ Interface_ info = iface
    /\ IP (IPv4Net info) = IPv4Addr info
    /\ To4 (IPv4Addr info) <> None
    /\ GetInterfaceIP iface = inr (IPv4Addr info)
    /\ IPv4 e = IPString (IPv4Addr info)
    /\ Subnet e = IPNetString (IPv4Net info).
Proof.
  intros He Hne Hby.
  unfold NewInterfaceInfo, getNetworkInterface, GetInterfaceIP.
  destruct (String.eqb_spec (Discovery.Name e) "") as [E|_]; [contradiction|].
  cbn [negb]. rewrite Hby.
  unfold entryFor in He.
  destruct (_ || _) in He; [discriminate|].
  destruct (Addrs iface) as [addrs|]; [|discriminate].
  rewrite firstIPv4Entry_net in He.
  pose proof (firstIPv4Net_spec addrs) as Hn.
  destruct (firstIPv4Net addrs) as [ipnet|]; [|discriminate].
  destruct Hn as (_ & H4 & _). injection He as <-.
  eexists. split; [reflexivity|]. cbn. repeat split. exact H4.
Qed.

End Picker.

Definition show_ip (ip : list byte) : string :=
  match NetText.IPv4String ip with Some text => text | None => "" end.

Definition show_net (n : IPNet) : string :=
  (show_ip (IP n) ++ "/"
   ++ NetText.decimalByte (byte_of_Z (Z.of_nat (fst (Size (Mask n))))))%string.

Lemma listed_can_be_selected_witness :
  exists info,
    NewInterfaceInfo vpn_host "eth0" = inr info
    /\ Interface_ info = eth_lan
    /\ IP (IPv4Net info) = IPv4Addr info
    /\ To4 (IPv4Addr info) <> None
    /\ GetInterfaceIP eth_lan = inr (IPv4Addr info)
    /\ "192.168.1.37" = show_ip (IPv4Addr info)
    /\ "192.168.1.37/24" = show_net (IPv4Net info).
Proof.
  apply (listed_can_be_selected show_ip show_net NetText.HardwareAddrString vpn_host eth_lan
           (mkInterfaceEntry "eth0" "192.168.1.37" "192.168.1.37/24"
                             "02:00:00:00:00:01" "[broadcast, multicast]" false));
    [reflexivity | discriminate | reflexivity].
Defined.

End Selection.

(* ================================================================== *)
(** * ui: waking the selected device (app.go) *)
(* ================================================================== *)

Module WakeSelected.
Import Go GoNet GoStrings Wol WolMore NetText.

Section WithIPText.
(** The text [net.IP.String] gives an address without a four-byte form. *)
Variable otherForms : list byte -> string.

(** [(a *App) sendWoL()]: the network events it causes.
    - [selectedMAC]: [device.MAC] of [a.state.Selected()], [None] when
      nothing is selected;
    - [ifaceNet]: [a.iface.IPv4Net]; [None] when [a.iface] is nil,
      [Some None] when the network is. *)
Definition sendWoL (net : UDPNet) (selectedMAC : option string)
           (ifaceNet : option (option IPNet)) : run (list NetEvent) :=
  match selectedMAC with
  | None => Ret []
  | Some mac =>
      if String.eqb mac "" then Ret []
      else
        match ifaceNet with
        | None | Some None => Ret []
        | Some (Some ipNet) =>
            broadcast <- BroadcastAddr ipNet ;;
            match broadcast with
            | None => Ret []
            | Some bc => Ret (snd (SendWoL net mac (IPString otherForms bc)))
            end
        end
  end.

End WithIPText.

(** ** Facts *)

Lemma HardwareAddrString_nonempty (b : byte) (rest : list byte) :
  String.eqb (HardwareAddrString (b :: rest)) "" = false.
Proof. rewrite HardwareAddrString_cons. reflexivity. Qed.

Lemma IPv4String_four (a b c d : byte) :
  IPv4String [a; b; c; d]
  = Some (decimalByte a ++ "." ++ decimalByte b ++ "." ++ decimalByte c
          ++ "." ++ decimalByte d)%string.
Proof. reflexivity. Qed.

Lemma SendWoL_events (net : UDPNet) (mac : list byte) (macStr addr : string) :
  ParseMAC macStr = Some mac ->
  length mac = 6%nat ->
  snd (SendWoL net macStr addr)
  = EvDial "udp" (addr ++ ":9")
    :: (if dial_ok net "udp" (addr ++ ":9")
        then [EvWrite (magic_packet mac); EvClose] else []).
Proof.
  intros Hp Hl. unfold SendWoL. rewrite Hp, Hl. cbn [Nat.eqb negb].
  destruct (dial_ok net "udp" (addr ++ ":9")); cbn [negb]; [|reflexivity].
  destruct (write_ok net (magic_packet mac)); reflexivity.
Qed.

(** X25. Nothing is sent when no device is selected, when the device
    has no MAC address, when there is no interface or no IPv4 network,
    or when the network's IP has no four-byte form. *)
Lemma sendWoL_silent (otherForms : list byte -> string) (net : UDPNet)
      (selectedMAC : option string) (ifaceNet : option (option IPNet)) :
  selectedMAC = None \/ selectedMAC = Some ""
  \/ ifaceNet = None \/ ifaceNet = Some None
  \/ (exists ipNet, ifaceNet = Some (Some ipNet) /\ To4 (IP ipNet) = None) ->
  sendWoL otherForms net selectedMAC ifaceNet = Ret [].
Proof.
  unfold sendWoL.
  destruct selectedMAC as [mac|]; [|reflexivity].
  destruct (String.eqb_spec mac "") as [->|Hne]; [reflexivity|].
  intros [H|[H|[->|[->|[ipNet [-> H4]]]]]]; try discriminate H; try reflexivity.
  - injection H as ->. now contradiction Hne.
  - unfold BroadcastAddr. rewrite H4. reflexivity.
Qed.

(** X26. For a device whose MAC is shown in the form
    [HardwareAddr.String] gives six bytes, on an IPv4 network with a
    mask of four bytes or more: one dial to port 9 of the dotted
    broadcast address and, when the dial succeeds, one datagram: six
    bytes 0xFF followed by the six bytes of the MAC sixteen times. *)
Lemma sendWoL_wakes (otherForms : list byte -> string) (net : UDPNet)
      (mac : list byte) (ipNet : IPNet) (ip : list byte) :
  length mac = 6%nat ->
  To4 (IP ipNet) = Some ip ->
  (4 <= length (Mask ipNet))%nat ->
  exists text,
    IPv4String (or_not ip (firstn 4 (Mask ipNet))) = Some text
    /\ sendWoL otherForms net (Some (HardwareAddrString mac)) (Some (Some ipNet))
       = Ret (EvDial "udp" (text ++ ":9")
              :: (if dial_ok net "udp" (text ++ ":9")
                  then [EvWrite (repeat xff 6 ++ concat (repeat mac 16)); EvClose]
                  else [])).
Proof.
  intros Hm H4 Hmask. pose proof (To4_length _ _ H4) as Hlen.
  assert (Hbl : length (or_not ip (firstn 4 (Mask ipNet))) = 4%nat).
  { rewrite or_not_length; [exact Hlen|]. rewrite length_firstn. lia. }
  destruct (or_not ip (firstn 4 (Mask ipNet))) as [|a [|b [|c [|d [|e bc]]]]] eqn:Eb;
    try discriminate Hbl.
  eexists. split; [apply IPv4String_four|].
  unfold sendWoL.
  destruct mac as [|m0 mac']; [discriminate Hm|].
  rewrite HardwareAddrString_nonempty.
  rewrite (BroadcastAddr_value ipNet ip H4 Hmask), Eb. cbn [bind].
  rewrite (SendWoL_events net (m0 :: mac') _ _ (ParseMAC_text6 _ Hm) Hm).
  unfold IPString. rewrite IPv4String_four.
  now rewrite (magic_packet_layout _ Hm).
Qed.

(** A network on which every dial and every write succeeds. *)
Definition open_net : UDPNet := mkUDPNet (fun _ _ => true) (fun _ => true).

Definition hex_text (ip : list byte) : string := HardwareAddrString ip.

Lemma sendWoL_silent_witness :
  sendWoL hex_text open_net (Some "") (Some (Some (mkIPNet [xc0; xa8; x01; x25]
                                                           [xff; xff; xff; x00])))
  = Ret [].
Proof.
  apply (sendWoL_silent hex_text open_net). right. left. reflexivity.
Defined.

Lemma sendWoL_wakes_witness :
  exists text,
    IPv4String (or_not [xc0; xa8; x05; x25] (firstn 4 [xff; xff; xfc; x00])) = Some text
    /\ sendWoL hex_text open_net (Some (HardwareAddrString [xaa; xbb; xcc; xdd; xee; xff]))
               (Some (Some (mkIPNet [xc0; xa8; x05; x25] [xff; xff; xfc; x00])))
       = Ret (EvDial "udp" (text ++ ":9")
              :: (if dial_ok open_net "udp" (text ++ ":9")
                  then [EvWrite (repeat xff 6
                                 ++ concat (repeat [xaa; xbb; xcc; xdd; xee; xff] 16));
                        EvClose]
                  else [])).
Proof.
  apply (sendWoL_wakes hex_text open_net [xaa; xbb; xcc; xdd; xee; xff]
                       (mkIPNet [xc0; xa8; x05; x25] [xff; xff; xfc; x00])
                       [xc0; xa8; x05; x25]);
    [reflexivity | reflexivity | cbn; lia].
Defined.

End WakeSelected.
